(** * node-haste: the dependency resolver and graph collector

    A shallow embedding of [src/DependencyGraph/ResolutionRequest.js]
    (class [ResolutionRequest]) and the properties of its resolution
    pipeline and of [getOrderedDependencies].

    Promises are modelled by their settled outcome: a computation either
    fulfils with a value, rejects with an error, or never settles.  Every
    call made to a collaborator (file index, module cache, Haste map,
    resolution memo, ...) is recorded, in program order, in a log of
    events, so that "is tried before", "is not run" and "is not read" are
    statements about that log. *)

From Stdlib Require Import ZArith Ascii String List Bool Lia Permutation.
From stdpp Require Import base strings gmap list.

Local Open Scope string_scope.
Local Open Scope list_scope.
Local Open Scope nat_scope.

(** ** JavaScript strings *)

Module JsString.

(** [s[i]]: the character at index [i], [None] standing for [undefined]. *)
Definition charAt (s : string) (i : nat) : option ascii := String.get i s.

Definition startsWithChar (c : ascii) (s : string) : bool :=
  match charAt s 0 with
  | Some a => Ascii.eqb a c
  | None => false
  end.

(** [s[i] === c] *)
Definition charIs (s : string) (i : nat) (c : ascii) : bool :=
  match charAt s i with
  | Some a => Ascii.eqb a c
  | None => false
  end.

Fixpoint lastIndexOf_from (needle s : string) (i acc : Z) : Z :=
  let acc' := if String.prefix needle s then i else acc in
  match s with
  | EmptyString => acc'
  | String _ s' => lastIndexOf_from needle s' (i + 1)%Z acc'
  end.

(** [s.lastIndexOf(needle)], [-1] when there is no occurrence. *)
Definition lastIndexOf (s needle : string) : Z :=
  lastIndexOf_from needle s 0%Z (-1)%Z.

Fixpoint indexOfChar_from (c : ascii) (s : string) (i start : Z) : Z :=
  match s with
  | EmptyString => (-1)%Z
  | String a s' =>
      if ((start <=? i)%Z && Ascii.eqb a c)%bool then i
      else indexOfChar_from c s' (i + 1)%Z start
  end.

(** [s.indexOf(c, start)] for a one-character needle. *)
Definition indexOfChar (s : string) (c : ascii) (start : Z) : Z :=
  indexOfChar_from c s 0%Z start.

(** [s.slice(0, e)]: a negative [e] counts from the end. *)
Definition slice0 (s : string) (e : Z) : string :=
  let len := Z.of_nat (String.length s) in
  let e' := if (e <? 0)%Z then Z.max (len + e) 0 else Z.min e len in
  String.substring 0 (Z.to_nat e') s.

(** Truthiness of a string value: only the empty string is falsy. *)
Definition truthy (s : string) : bool :=
  match s with
  | EmptyString => false
  | _ => true
  end.

End JsString.

(** ** POSIX paths

    [fast-path], Node's [path] and [absolute-path] are libraries the
    resolver imports; they are modelled here on [/]-separated paths, by
    their behaviour on paths in normal form. *)

Module Path.

Definition slash : ascii := "/"%char.
Definition dot : ascii := "."%char.

Fixpoint split (s : string) : list string :=
  match s with
  | EmptyString => [EmptyString]
  | String a s' =>
      if Ascii.eqb a slash then EmptyString :: split s'
      else match split s' with
           | h :: t => String a h :: t
           | [] => [String a EmptyString]
           end
  end.

Definition unsplit (segs : list string) : string := String.concat "/" segs.

Definition isAbsolutePath (p : string) : bool :=
  JsString.startsWithChar slash p.

Definition nonempty (s : string) : bool := JsString.truthy s.

(** The path components, empty ones dropped. *)
Definition components (p : string) : list string :=
  List.filter nonempty (split p).

(** Resolution of [.] and [..] over a stack of components (innermost
    first). *)
Fixpoint normalizeOnto (abs : bool) (stack : list string)
         (segs : list string) : list string :=
  match segs with
  | [] => List.rev stack
  | s :: rest =>
      if String.eqb s "." then normalizeOnto abs stack rest
      else if String.eqb s ".." then
        match stack with
        | top :: below =>
            if String.eqb top ".." then normalizeOnto abs (s :: stack) rest
            else normalizeOnto abs below rest
        | [] =>
            if abs then normalizeOnto abs [] rest
            else normalizeOnto abs [s] rest
        end
      else normalizeOnto abs (s :: stack) rest
  end.

Definition endsWithSlash (p : string) : bool :=
  match List.last (split p) "x" with
  | EmptyString => true
  | _ => false
  end.

(** [path.normalize] *)
Definition normalize (p : string) : string :=
  match p with
  | EmptyString => "."
  | _ =>
      let abs := isAbsolutePath p in
      let body := unsplit (normalizeOnto abs [] (components p)) in
      let body :=
        match body with
        | EmptyString => if abs then "" else "."
        | _ => if endsWithSlash p then body +:+ "/" else body
        end in
      if abs then "/" +:+ body else body
  end.

(** [path.join(...parts)] *)
Definition join (parts : list string) : string :=
  normalize (unsplit (List.filter nonempty parts)).

(** [path.dirname] *)
Definition dirname (p : string) : string :=
  let segs := components p in
  let dir := unsplit (List.removelast segs) in
  if isAbsolutePath p then "/" +:+ dir
  else match dir with
       | EmptyString => "."
       | _ => dir
       end.

(** [path.parse(p).root] *)
Definition root (p : string) : string :=
  if isAbsolutePath p then "/" else "".

(** [path.resolve(p)] against the working directory [cwd]. *)
Definition resolve (cwd p : string) : string :=
  let full := if isAbsolutePath p then p else cwd +:+ "/" +:+ p in
  "/" +:+ unsplit (normalizeOnto true [] (components full)).

Fixpoint dropCommon (a b : list string) : list string * list string :=
  match a, b with
  | x :: a', y :: b' =>
      if String.eqb x y then dropCommon a' b' else (a, b)
  | _, _ => (a, b)
  end.

(** [path.relative(from, to)] *)
Definition relative (cwd from to : string) : string :=
  let '(up, down) :=
    dropCommon (components (resolve cwd from)) (components (resolve cwd to)) in
  unsplit (List.map (fun _ => "..") up ++ down).

Fixpoint lastDot (s : string) (i : nat) (acc : option nat) : option nat :=
  match s with
  | EmptyString => acc
  | String a s' =>
      lastDot s' (S i) (if Ascii.eqb a dot then Some i else acc)
  end.

(** [path.basename(p, path.extname(p))]: the last component without its
    extension. *)
Definition basenameNoExt (p : string) : string :=
  let base := List.last (components p) "" in
  match lastDot base 0 None with
  | Some (S i) => String.substring 0 (S i) base
  | _ => base
  end.

End Path.

#[global] Arguments Path.join : simpl never.
#[global] Arguments Path.dirname : simpl never.
#[global] Arguments Path.normalize : simpl never.
#[global] Arguments Path.resolve : simpl never.
#[global] Arguments Path.relative : simpl never.
#[global] Arguments Path.root : simpl never.

(** ** Modules, packages and errors *)

(** A module of the module cache, identified by its absolute path; [hash]
    is the key of the visited set. *)
Record Module := { path : string; hash : string }.

(** A package, identified by the path of its manifest. *)
Record Package := { manifest : string; root : string }.

(** An entry of the Haste map: [dep.type] is ['Module'] or ['Package']. *)
Inductive hasteEntry :=
| HasteModule (m : Module)
| HastePackage (p : Package).

(** A JavaScript error: [error.type] and [error.message]. *)
Record error := { err_type : string; err_message : string }.

(** [error.type !== 'UnableToResolveError'] is [negb (isUnableToResolve error)]. *)
Definition isUnableToResolve (e : error) : bool :=
  String.eqb (err_type e) "UnableToResolveError".

(** [new UnableToResolveError(fromModule, toModule, message)] *)
Definition UnableToResolveError (fromModule : Module) (toModule message : string)
  : error :=
  {| err_type := "UnableToResolveError";
     err_message := "Unable to resolve module " +:+ toModule +:+ " from "
                    +:+ path fromModule +:+ ": " +:+ message |}.

(** The outcome of a settled promise. *)
Inductive res (A : Type) :=
| Ok (a : A)
| Err (e : error).
Arguments Ok {A} a.
Arguments Err {A} e.

(** Calls to the collaborators and to the resolution memo. *)
Inductive event :=
| EvMemoRead (key : string)
| EvMemoWrite (key : string)
| EvAssetMap (fromPath toModuleName : string)
| EvPolicy
| EvHaste (name : string)
| EvRedirect (manifestPath name : string)
| EvDirExists (p : string)
| EvFileExists (p : string)
| EvMatches (dir pattern : string)
| EvGetModule (p : string)
| EvGetAssetModule (p : string)
| EvGetMain (manifestPath : string).

(** ** Promise chains

    A promise chain is its outcome and the calls it made; [None] is a
    chain that never settles. *)
Definition W (A : Type) : Type := option (res A * list event).

Definition ret {A} (a : A) : W A := Some (Ok a, []).
Definition throw {A} (e : error) : W A := Some (Err e, []).

(** A call to a collaborator that answers at once. *)
Definition call {A} (ev : event) (a : A) : W A := Some (Ok a, [ev]).

(** A call to a collaborator that answers with a promise. *)
Definition await {A} (ev : event) (r : res A) : W A := Some (r, [ev]).

(** [after t w]: the chain [w] run after the calls [t]. *)
Definition after {A} (t : list event) (w : W A) : W A :=
  match w with
  | Some (r, t') => Some (r, t ++ t')
  | None => None
  end.

(** [p.then(f)] *)
Definition bindW {A B} (m : W A) (f : A -> W B) : W B :=
  match m with
  | Some (Ok a, t) => after t (f a)
  | Some (Err e, t) => Some (Err e, t)
  | None => None
  end.

(** [p.catch(h)] *)
Definition catchW {A} (m : W A) (h : error -> W A) : W A :=
  match m with
  | Some (Err e, t) => after t (h e)
  | _ => m
  end.

Notation "'let*' x ':=' m 'in' k" := (bindW m (fun x => k))
  (at level 10, x name, m at level 100, k at level 200).

(** ** The collaborators of a [ResolutionRequest]

    The constructor arguments of the request and the methods of the
    modules and packages they hand out are defined outside this file:
    they are parameters of the model.  A method that answers with a
    promise has a [res] for its answer. *)

Record Env := {
  platform : option string;
  preferNativePlatform : bool;
  entryPath : string;
  cwd : string;
  hasteMap_getModule : string -> option string -> option hasteEntry;
  deprecatedAssetMap_resolve : Module -> string -> option Module;
  helpers_isNodeModulesDir : string -> bool;
  helpers_isAssetFile : string -> bool;
  getAssetDataFromName : string -> string * string;
  moduleCache_getModule : string -> res Module;
  moduleCache_getAssetModule : string -> res Module;
  moduleCache_getPackage : string -> Package;
  fastfs_dirExists : string -> bool;
  fastfs_fileExists : string -> bool;
  fastfs_matches : string -> string -> list string;
  fastfs_matchFilesByPattern : string -> list string;
  shouldThrowOnUnresolvedErrors : string -> option string -> bool;
  module_getPackage : Module -> option Package;
  module_getName : Module -> string;
  module_getDependencies : Module -> res (list string);
  package_getName : Package -> string;
  package_getMain : Package -> res string;
  package_redirectRequire : Package -> string -> res string
}.

(** The error message of a directory that is not in the file index. *)
Definition loadAsDir_message (potentialDirPath : string) : string :=
  "Unable to find this module in its module map or any of the node_modules directories under "
  +:+ potentialDirPath +:+ " and its parent directories

This might be related to https://github.com/facebook/react-native/issues/4968
To resolve try the following:
  1. Clear watchman watches: `watchman watch-del-all`.
  2. Delete the `node_modules` folder: `rm -rf node_modules && npm install`.
  3. Reset packager cache: `rm -fr $TMPDIR/react-*` or `npm start -- --reset-cache`.".

Section Resolver.

Context (env : Env).

(** [_tryResolve(action, secondaryAction)] *)
Definition _tryResolve {A} (action secondaryAction : unit -> W A) : W A :=
  catchW (action tt) (fun error =>
    if negb (isUnableToResolve error) then throw error
    else secondaryAction tt).

(** [resolutionHash(modulePath, depName)] *)
Definition resolutionHash (modulePath depName : string) : string :=
  Path.resolve (cwd env) modulePath +:+ ":" +:+ depName.

(** [normalizePath(modulePath)], on a platform whose separator is [/]. *)
Definition normalizePath (modulePath : string) : string :=
  let modulePath := Path.normalize modulePath in
  if Path.endsWithSlash modulePath
  then String.substring 0 (String.length modulePath - 1) modulePath
  else modulePath.

(** [_redirectRequire(fromModule, modulePath)] *)
Definition _redirectRequire (fromModule : Module) (modulePath : string)
  : W string :=
  match module_getPackage env fromModule with
  | Some p =>
      await (EvRedirect (manifest p) modulePath)
            (package_redirectRequire env p modulePath)
  | None => ret modulePath
  end.

(** The regular expression source built for an asset path. *)
Definition assetPattern (potentialModulePath : string) : string :=
  let '(name, type) := getAssetDataFromName env potentialModulePath in
  let pattern := "^" +:+ name +:+ "(@[\d\.]+x)?" in
  let pattern :=
    match platform env with
    | Some pl => pattern +:+ "(\." +:+ pl +:+ ")?"
    | None => pattern
    end in
  pattern +:+ "\." +:+ type.

(** [_loadAsFile], from [let file;] on: the probes of the file index. *)
Definition loadAsFile_probes (potentialModulePath : string)
           (fromModule : Module) (toModule : string) : W Module :=
  let found (file : string) : W Module :=
    await (EvGetModule file) (moduleCache_getModule env file) in
  let tail : W Module :=
    let* js := call (EvFileExists (potentialModulePath +:+ ".js"))
                    (fastfs_fileExists env (potentialModulePath +:+ ".js")) in
    if js then found (potentialModulePath +:+ ".js")
    else
      let* json := call (EvFileExists (potentialModulePath +:+ ".json"))
                        (fastfs_fileExists env (potentialModulePath +:+ ".json")) in
      if json then found (potentialModulePath +:+ ".json")
      else throw (UnableToResolveError fromModule toModule
                    ("File " +:+ potentialModulePath +:+ " doesnt exist")) in
  let native : W Module :=
    if preferNativePlatform env then
      let* n := call (EvFileExists (potentialModulePath +:+ ".native.js"))
                     (fastfs_fileExists env (potentialModulePath +:+ ".native.js")) in
      if n then found (potentialModulePath +:+ ".native.js") else tail
    else tail in
  let* exact := call (EvFileExists potentialModulePath)
                     (fastfs_fileExists env potentialModulePath) in
  if exact then found potentialModulePath
  else
    match platform env with
    | Some pl =>
        let* p := call (EvFileExists (potentialModulePath +:+ "." +:+ pl +:+ ".js"))
                       (fastfs_fileExists env
                          (potentialModulePath +:+ "." +:+ pl +:+ ".js")) in
        if p then found (potentialModulePath +:+ "." +:+ pl +:+ ".js")
        else native
    | None => native
    end.

(** [_loadAsFile(potentialModulePath, fromModule, toModule)] *)
Definition _loadAsFile (potentialModulePath : string)
           (fromModule : Module) (toModule : string) : W Module :=
  if helpers_isAssetFile env potentialModulePath then
    let dirname := Path.dirname potentialModulePath in
    let* exists_ := call (EvDirExists dirname) (fastfs_dirExists env dirname) in
    if negb exists_ then
      throw (UnableToResolveError fromModule toModule
               ("Directory " +:+ dirname +:+ " doesn't exist"))
    else
      let pattern := assetPattern potentialModulePath in
      let* found := call (EvMatches dirname pattern)
                         (fastfs_matches env dirname pattern) in
      match found with
      | assetFile :: _ =>
          if JsString.truthy assetFile then
            await (EvGetAssetModule assetFile)
                  (moduleCache_getAssetModule env assetFile)
          else loadAsFile_probes potentialModulePath fromModule toModule
      | [] => loadAsFile_probes potentialModulePath fromModule toModule
      end
  else loadAsFile_probes potentialModulePath fromModule toModule.

(** [_loadAsDir(potentialDirPath, fromModule, toModule)]; the recursion
    through package mains is bounded by [fuel]. *)
Fixpoint _loadAsDir (fuel : nat) (potentialDirPath : string)
         (fromModule : Module) (toModule : string) : W Module :=
  match fuel with
  | O => None
  | S fuel' =>
      let* exists_ := call (EvDirExists potentialDirPath)
                           (fastfs_dirExists env potentialDirPath) in
      if negb exists_ then
        throw (UnableToResolveError fromModule toModule
                 (loadAsDir_message potentialDirPath))
      else
        let packageJsonPath := Path.join [potentialDirPath; "package.json"] in
        let* hasManifest := call (EvFileExists packageJsonPath)
                                 (fastfs_fileExists env packageJsonPath) in
        if hasManifest then
          let* main := await (EvGetMain packageJsonPath)
                         (package_getMain env
                            (moduleCache_getPackage env packageJsonPath)) in
          _tryResolve
            (fun _ => _loadAsFile main fromModule toModule)
            (fun _ => _loadAsDir fuel' main fromModule toModule)
        else
          _loadAsFile (Path.join [potentialDirPath; "index"])
                      fromModule toModule
  end.

(** [_resolveFileOrDir(fromModule, toModuleName)] *)
Definition _resolveFileOrDir (fuel : nat) (fromModule : Module)
           (toModuleName : string) : W Module :=
  let potentialModulePath :=
    if Path.isAbsolutePath toModuleName then toModuleName
    else Path.join [Path.dirname (path fromModule); toModuleName] in
  let* realModuleName := _redirectRequire fromModule potentialModulePath in
  _tryResolve
    (fun _ => _loadAsFile realModuleName fromModule toModuleName)
    (fun _ => _loadAsDir fuel realModuleName fromModule toModuleName).

(** The [for] loop of [_resolveNodeDependency] that fills [searchQueue],
    entered with [currDir]. *)
Fixpoint searchQueue_from (fuel : nat) (fsRoot currDir realModuleName : string)
  : option (list string) :=
  if String.eqb currDir fsRoot then Some []
  else
    match fuel with
    | O => None
    | S fuel' =>
        match searchQueue_from fuel' fsRoot (Path.dirname currDir)
                               realModuleName with
        | Some queue =>
            Some (Path.join [currDir; "node_modules"; realModuleName] :: queue)
        | None => None
        end
    end.

Definition searchQueue (fuel : nat) (fromModule : Module)
           (realModuleName : string) : option (list string) :=
  searchQueue_from fuel (Path.root (path fromModule))
                   (Path.dirname (path fromModule)) realModuleName.

(** The body of [searchQueue.forEach]: the new value of [p]. *)
Definition searchStep (fuel : nat) (fromModule : Module) (toModuleName : string)
           (p : W Module) (potentialModulePath : string) : W Module :=
  _tryResolve
    (fun _ => _tryResolve
                (fun _ => p)
                (fun _ => _loadAsFile potentialModulePath fromModule toModuleName))
    (fun _ => _loadAsDir fuel potentialModulePath fromModule toModuleName).

(** [searchQueue.forEach(...)] started from the rejected promise. *)
Definition searchNodeModules (fuel : nat) (fromModule : Module)
           (toModuleName : string) (queue : list string) : W Module :=
  fold_left (searchStep fuel fromModule toModuleName) queue
    (throw (UnableToResolveError fromModule toModuleName "Node module not found")).

(** [name[0] === '.' || name[1] === '/'], as the source writes it. *)
Definition looksRelative (name : string) : bool :=
  JsString.charIs name 0 Path.dot || JsString.charIs name 1 Path.slash.

(** [fromModuleDir], computed from [fromModule.path]: the directory
    [/.../node_modules/<package>] the requester lives in. *)
Definition fromModuleDir (fromPath : string) : string :=
  let fromModuleParentIdx :=
    (JsString.lastIndexOf fromPath "node_modules/" + 13)%Z in
  JsString.slice0 fromPath
    (JsString.indexOfChar fromPath Path.slash fromModuleParentIdx).

(** [_resolveNodeDependency(fromModule, toModuleName)] *)
Definition _resolveNodeDependency (fuel : nat) (fromModule : Module)
           (toModuleName : string) : W Module :=
  if looksRelative toModuleName then
    _resolveFileOrDir fuel fromModule toModuleName
  else
    let* realModuleName := _redirectRequire fromModule toModuleName in
    if looksRelative realModuleName then
      let absPath :=
        Path.join [fromModuleDir (path fromModule); realModuleName] in
      _resolveFileOrDir fuel fromModule absPath
    else
      match searchQueue fuel fromModule realModuleName with
      | Some queue => searchNodeModules fuel fromModule toModuleName queue
      | None => None
      end.

Definition isHastePackage (dep : option hasteEntry) : bool :=
  match dep with
  | Some (HastePackage _) => true
  | _ => false
  end.

(** The [while] loop of [_resolveHasteDependency]: the final values of
    [dep] and [packageName]. *)
Fixpoint hastePackageLoop (fuel : nat) (dep : option hasteEntry)
         (packageName : string) : W (option hasteEntry * string) :=
  if JsString.truthy packageName && negb (String.eqb packageName ".") then
    match fuel with
    | O => None
    | S fuel' =>
        let* dep := call (EvHaste packageName)
                         (hasteMap_getModule env packageName (platform env)) in
        if isHastePackage dep then ret (dep, packageName)
        else hastePackageLoop fuel' dep (Path.dirname packageName)
    end
  else ret (dep, packageName).

(** [_resolveHasteDependency(fromModule, toModuleName)] *)
Definition _resolveHasteDependency (fuel : nat) (fromModule : Module)
           (toModuleName : string) : W Module :=
  let toModuleName := normalizePath toModuleName in
  let* realModuleName :=
    match module_getPackage env fromModule with
    | Some p => await (EvRedirect (manifest p) toModuleName)
                      (package_redirectRequire env p toModuleName)
    | None => ret toModuleName
    end in
  let* dep := call (EvHaste realModuleName)
                   (hasteMap_getModule env realModuleName (platform env)) in
  match dep with
  | Some (HasteModule m) => ret m
  | _ =>
      let* found := hastePackageLoop fuel dep realModuleName in
      match found with
      | (Some (HastePackage pkg), packageName) =>
          let potentialModulePath :=
            Path.join [root pkg;
                       Path.relative (cwd env) packageName realModuleName] in
          _tryResolve
            (fun _ => _loadAsFile potentialModulePath fromModule toModuleName)
            (fun _ => _loadAsDir fuel potentialModulePath fromModule toModuleName)
      | _ =>
          throw (UnableToResolveError fromModule toModuleName
                   "Unable to resolve dependency")
      end
  end.

End Resolver.

(** ** [resolveDependency] and the resolution memo *)

(** [_resetResolutionCache()]: the memo of a new request, an object with
    no keys.  The constructor is its only caller. *)
Definition _resetResolutionCache : gmap string Module := ∅.

(** What the synchronous part of [resolveDependency] returns: a settled
    value, or a pipeline left in flight. *)
Inductive lookup :=
| Settled (v : Module)
| InFlight.

Section ResolveDependency.

Context (env : Env).

(** [resolveDependency], up to the definition of [cacheResult]: the memo
    is read, then the deprecated asset map is asked. *)
Definition resolveDependency_lookup (fromModule : Module)
           (toModuleName : string) (cache : gmap string Module)
  : lookup * list event :=
  let resHash := resolutionHash env (path fromModule) toModuleName in
  match cache !! resHash with
  | Some hit => (Settled hit, [EvMemoRead resHash])
  | None =>
      match deprecatedAssetMap_resolve env fromModule toModuleName with
      | Some asset_DEPRECATED =>
          (Settled asset_DEPRECATED,
           [EvMemoRead resHash; EvAssetMap (path fromModule) toModuleName])
      | None =>
          (InFlight,
           [EvMemoRead resHash; EvAssetMap (path fromModule) toModuleName])
      end
  end.

(** The promise that [.then(cacheResult, forgive)] is attached to. *)
Definition resolvePipeline (fuel : nat) (fromModule : Module)
           (toModuleName : string) : W Module :=
  if negb (helpers_isNodeModulesDir env (path fromModule))
     && negb (JsString.charIs toModuleName 0 Path.dot)
     && negb (JsString.charIs toModuleName 0 Path.slash)
  then
    _tryResolve
      (fun _ => _resolveHasteDependency env fuel fromModule toModuleName)
      (fun _ => _resolveNodeDependency env fuel fromModule toModuleName)
  else _resolveNodeDependency env fuel fromModule toModuleName.

(** [.then(cacheResult, forgive)]: the value ([None] is [null]), the calls
    made and the memo afterwards. *)
Definition resolveDependency_settle (fuel : nat) (fromModule : Module)
           (toModuleName : string) (cache : gmap string Module)
  : option (res (option Module) * list event * gmap string Module) :=
  let resHash := resolutionHash env (path fromModule) toModuleName in
  match resolvePipeline fuel fromModule toModuleName with
  | None => None
  | Some (Ok result, t) =>
      Some (Ok (Some result), t ++ [EvMemoWrite resHash],
            <[resHash := result]> cache)
  | Some (Err error, t) =>
      if negb (isUnableToResolve error) then Some (Err error, t, cache)
      else if shouldThrowOnUnresolvedErrors env (entryPath env) (platform env)
      then Some (Err error, t ++ [EvPolicy], cache)
      else Some (Ok None, t ++ [EvPolicy], cache)
  end.

(** [resolveDependency(fromModule, toModuleName)], run until it settles. *)
Definition resolveDependency (fuel : nat) (fromModule : Module)
           (toModuleName : string) (cache : gmap string Module)
  : option (res (option Module) * list event * gmap string Module) :=
  match resolveDependency_lookup fromModule toModuleName cache with
  | (Settled v, t) => Some (Ok (Some v), t, cache)
  | (InFlight, t) =>
      match resolveDependency_settle fuel fromModule toModuleName cache with
      | Some (r, t', cache') => Some (r, t ++ t', cache')
      | None => None
      end
  end.

End ResolveDependency.

(** ** The graph collector *)

(** Modelled from the spec: the [Response] accumulator that
    [getOrderedDependencies] fills is defined outside this file; it holds
    the ordered sequence of visited modules, the resolved pairs recorded
    for each module and the final mock table, and the collector only
    appends to it. *)
Record Response := {
  dependencies : list Module;
  mappings : list (Module * list (string * Module));
  responseMocks : option (gmap string string)
}.

Definition pushDependency (r : Response) (m : Module) : Response :=
  {| dependencies := dependencies r ++ [m];
     mappings := mappings r;
     responseMocks := responseMocks r |}.

Definition setResolvedDependencyPairs (r : Response) (mod_ : Module)
           (pairs : list (string * Module)) : Response :=
  {| dependencies := dependencies r;
     mappings := mappings r ++ [(mod_, pairs)];
     responseMocks := responseMocks r |}.

Definition setMocks (r : Response) (mocks : gmap string string) : Response :=
  {| dependencies := dependencies r;
     mappings := mappings r;
     responseMocks := Some mocks |}.

(** The value a [collect] promise settles to: arrays nested in arrays. *)
#[local] Set Warnings "-register-all".
Inductive jsval :=
| JModule (m : Module)
| JArray (items : list jsval).

Fixpoint flattenItem (item : jsval) : list Module :=
  match item with
  | JModule m => [m]
  | JArray items => concat (List.map flattenItem items)
  end.

(** [recursiveFlatten(array)] *)
Definition recursiveFlatten (array : list jsval) : list Module :=
  concat (List.map flattenItem array).

(** The promises of one build.  [collect(mod)] settles to an array of
    [[modDep, collect(modDep)]]: an entry of that array is a module with
    the promise of its own collection, either pending or settled to such
    an array in turn. *)
Inductive forest :=
| FNil
| FPending (modDep : Module) (rest : forest)
| FSettled (modDep : Module) (kids : forest) (rest : forest).

Fixpoint pendingCount (f : forest) : nat :=
  match f with
  | FNil => 0
  | FPending _ rest => S (pendingCount rest)
  | FSettled _ kids rest => pendingCount kids + pendingCount rest
  end.

(** The module of the [i]-th pending collection, left to right. *)
Fixpoint nthPending (i : nat) (f : forest) : option Module :=
  match f with
  | FNil => None
  | FPending m rest =>
      match i with
      | O => Some m
      | S i' => nthPending i' rest
      end
  | FSettled _ kids rest =>
      if i <? pendingCount kids then nthPending i kids
      else nthPending (i - pendingCount kids) rest
  end.

(** The [i]-th pending collection settles to [value]. *)
Fixpoint settle (i : nat) (value : forest) (f : forest) : forest :=
  match f with
  | FNil => FNil
  | FPending m rest =>
      match i with
      | O => FSettled m value rest
      | S i' => FPending m (settle i' value rest)
      end
  | FSettled m kids rest =>
      if i <? pendingCount kids then FSettled m (settle i value kids) rest
      else FSettled m kids (settle (i - pendingCount kids) value rest)
  end.

(** The array a forest without pending collections stands for. *)
Fixpoint settledValue (f : forest) : option (list jsval) :=
  match f with
  | FNil => Some []
  | FPending _ _ => None
  | FSettled m kids rest =>
      match settledValue kids, settledValue rest with
      | Some k, Some r => Some (JArray [JModule m; JArray k] :: r)
      | _, _ => None
      end
  end.

(** The variables [getOrderedDependencies] closes over, with the memo of
    the request and the promise of [collect(entry)]: [deps] is the
    one-entry forest [[entry, collect(entry)]]. *)
Record collector := {
  cache : gmap string Module;
  mocks : gmap string string;
  visited : list string;
  response : Response;
  finishedModules : nat;
  totalModules : nat;
  progress : list (nat * nat);
  deps : forest
}.

Section Collector.

Context (env : Env).
Context (fuel : nat).
(** [allMocks], whether [onProgress] was passed, and [recursive]. *)
Context (allMocks : option (gmap string string)).
Context (onProgress : bool).
Context (recursive : bool).

(** [visited[h]] *)
Definition isVisited (v : list string) (h : string) : bool :=
  existsb (String.eqb h) v.

(** [visited[h] = true]; the keys are kept in insertion order. *)
Definition markVisited (v : list string) (h : string) : list string :=
  if isVisited v h then v else v ++ [h].

(** [table[name]] when it is truthy. *)
Definition truthyEntry (table : gmap string string) (name : string)
  : option string :=
  match table !! name with
  | Some file => if JsString.truthy file then Some file else None
  | None => None
  end.

(** [allMocks && allMocks[name] && !mocks[name]]: the mock file to attach. *)
Definition unattachedMock (mocks_ : gmap string string) (name : string)
  : option string :=
  match allMocks with
  | Some all =>
      match truthyEntry all name, truthyEntry mocks_ name with
      | Some file, None => Some file
      | _, _ => None
      end
  | None => None
  end.

(** [Promise.all(depNames.map(name => this.resolveDependency(mod, name)))]:
    the calls are all made, hence the memo is read by all of them,
    before any pipeline settles; [settleAll] then lets the pipelines
    left in flight settle. *)
Fixpoint settleAll (mod_ : Module) (started : list (string * lookup))
         (cache_ : gmap string Module)
  : option (res (list (option Module)) * gmap string Module) :=
  match started with
  | [] => Some (Ok [], cache_)
  | (name, state) :: rest =>
      let continue (v : option Module) (cache1 : gmap string Module) :=
        match settleAll mod_ rest cache1 with
        | Some (Ok vs, cache2) => Some (Ok (v :: vs), cache2)
        | other => other
        end in
      match state with
      | Settled v => continue (Some v) cache_
      | InFlight =>
          match resolveDependency_settle env fuel mod_ name cache_ with
          | Some (Ok v, _, cache1) => continue v cache1
          | Some (Err e, _, cache1) => Some (Err e, cache1)
          | None => None
          end
      end
  end.

Definition resolveAll (mod_ : Module) (depNames : list string)
           (cache_ : gmap string Module)
  : option (res (list (option Module)) * gmap string Module) :=
  settleAll mod_
    (List.map (fun name =>
                 (name, fst (resolveDependency_lookup env mod_ name cache_)))
              depNames)
    cache_.

(** [names.forEach(...)] of the mock merge: the names and modules pushed
    on [depNames] and [dependencies], and [mocks] afterwards. *)
Fixpoint mergeMocks (names : list string) (mocks_ : gmap string string)
  : res (list (string * option Module) * gmap string string) :=
  match names with
  | [] => Ok ([], mocks_)
  | name :: rest =>
      match unattachedMock mocks_ name with
      | Some file =>
          match moduleCache_getModule env file with
          | Ok mockModule =>
              match mergeMocks rest (<[name := file]> mocks_) with
              | Ok (pushed, mocks') =>
                  Ok ((name, Some mockModule) :: pushed, mocks')
              | Err e => Err e
              end
          | Err e => Err e
          end
      | None => mergeMocks rest mocks_
      end
  end.

(** [dependencies.forEach((modDep, i) => ...)]: [filteredPairs], and
    [mocks] afterwards. *)
Fixpoint filterPairs (pairs : list (string * option Module))
         (mocks_ : gmap string string)
  : res (list (string * Module) * gmap string string) :=
  match pairs with
  | [] => Ok ([], mocks_)
  | (name, Some modDep) :: rest =>
      match filterPairs rest mocks_ with
      | Ok (filteredPairs, mocks') => Ok ((name, modDep) :: filteredPairs, mocks')
      | Err e => Err e
      end
  | (name, None) :: rest =>
      match unattachedMock mocks_ name with
      | Some file =>
          match moduleCache_getModule env file with
          | Ok mockModule =>
              match filterPairs rest (<[name := file]> mocks_) with
              | Ok (filteredPairs, mocks') =>
                  Ok ((name, mockModule) :: filteredPairs, mocks')
              | Err e => Err e
              end
          | Err e => Err e
          end
      | None => filterPairs rest mocks_
      end
  end.

(** [[modDep, recursive ? collect(modDep) : []]] for each new dependency. *)
Fixpoint spawn (newDependencies : list (string * Module)) : forest :=
  match newDependencies with
  | [] => FNil
  | (_, modDep) :: rest =>
      if recursive then FPending modDep (spawn rest)
      else FSettled modDep FNil (spawn rest)
  end.

(** The body of [collect(mod)] from the answer of [getDependencies] to
    the marking of the new dependencies: the array the promise settles
    to, and the variables afterwards.  The limit of 32 concurrent calls
    of [getDependencies] delays calls and changes no answer; it is not
    modelled. *)
Definition collectBody (mod_ : Module) (st : collector)
  : option (res (forest * collector)) :=
  match module_getDependencies env mod_ with
  | Err e => Some (Err e)
  | Ok depNames =>
      match resolveAll mod_ depNames (cache st) with
      | None => None
      | Some (Err e, _) => Some (Err e)
      | Some (Ok dependencies_, cache') =>
          let names :=
            match allMocks with
            | Some _ =>
                module_getName env mod_ ::
                match module_getPackage env mod_ with
                | Some pkg => [package_getName env pkg]
                | None => []
                end
            | None => []
            end in
          match mergeMocks names (mocks st) with
          | Err e => Some (Err e)
          | Ok (pushed, mocks1) =>
              match filterPairs (combine depNames dependencies_ ++ pushed)
                                mocks1 with
              | Err e => Some (Err e)
              | Ok (filteredPairs, mocks2) =>
                  let newDependencies :=
                    List.filter
                      (fun pair => negb (isVisited (visited st) (hash (snd pair))))
                      filteredPairs in
                  let finished' :=
                    if onProgress then finishedModules st + 1
                    else finishedModules st in
                  let total' :=
                    if onProgress
                    then totalModules st + length newDependencies
                    else totalModules st in
                  Some (Ok (spawn newDependencies,
                    {| cache := cache';
                       mocks := mocks2;
                       visited :=
                         fold_left markVisited
                           (List.map (fun pair => hash (snd pair)) newDependencies)
                           (visited st);
                       response :=
                         setResolvedDependencyPairs (response st) mod_
                                                    filteredPairs;
                       finishedModules := finished';
                       totalModules := total';
                       progress :=
                         if onProgress
                         then progress st ++ [(finished', total')]
                         else progress st;
                       deps := deps st |}))
              end
          end
      end
  end.

Definition withDeps (st : collector) (f : forest) : collector :=
  {| cache := cache st; mocks := mocks st; visited := visited st;
     response := response st; finishedModules := finishedModules st;
     totalModules := totalModules st; progress := progress st;
     deps := f |}.

(** One turn of the build: the [i]-th pending collection settles.  A turn
    runs the whole body of that collection; the memo, [mocks] and
    [visited] are read and written by one collection at a time, in the
    order in which the collections settle. *)
Definition collectStep (i : nat) (st : collector)
  : option (res collector) :=
  match nthPending i (deps st) with
  | None => Some (Ok st)
  | Some mod_ =>
      match collectBody mod_ st with
      | None => None
      | Some (Err e) => Some (Err e)
      | Some (Ok (value, st')) =>
          Some (Ok (withDeps st' (settle i value (deps st))))
      end
  end.

(** The build, the pending collections settling in the order given by
    [schedule]: each number picks, modulo their count, the collection
    that settles next.  [None]: collections are still pending when the
    schedule ends, or one of them never settles. *)
Fixpoint runCollect (schedule : list nat) (st : collector)
  : option (res collector) :=
  match pendingCount (deps st) with
  | O => Some (Ok st)
  | S _ =>
      match schedule with
      | [] => None
      | i :: later =>
          match collectStep (i mod pendingCount (deps st)) st with
          | Some (Ok st') => runCollect later st'
          | other => other
          end
      end
  end.

End Collector.

Section GetOrderedDependencies.

Context (env : Env).

(** [_getAllMocks(pattern)] *)
Definition _getAllMocks (pattern : option string)
  : option (gmap string string) :=
  match pattern with
  | Some pat =>
      if JsString.truthy pat then
        Some (fold_left
                (fun (mocks_ : gmap string string) file =>
                   <[Path.basenameNoExt file := file]> mocks_)
                (fastfs_matchFilesByPattern env pat) ∅)
      else None
  | None => None
  end.

(** [collect(entry).then(deps => ...)] *)
Definition finish (st : collector) : option Response :=
  match deps st with
  | FSettled _ kids FNil =>
      match settledValue kids with
      | Some value =>
          Some (setMocks
                  (fold_left pushDependency (recursiveFlatten value)
                             (response st))
                  (mocks st))
      | None => None
      end
  | _ => None
  end.

(** [getOrderedDependencies({response, mocksPattern, onProgress,
    recursive})] on a request whose memo is [cache0]: the filled
    response and the variables of the build. *)
Definition getOrderedDependencies (fuel : nat) (schedule : list nat)
           (response0 : Response) (mocksPattern : option string)
           (onProgress recursive : bool) (cache0 : gmap string Module)
  : option (res (Response * collector)) :=
  let allMocks := _getAllMocks mocksPattern in
  match moduleCache_getModule env (entryPath env) with
  | Err e => Some (Err e)
  | Ok entry =>
      let st0 :=
        {| cache := cache0; mocks := ∅; visited := [hash entry];
           response := pushDependency response0 entry;
           finishedModules := 0; totalModules := 1; progress := [];
           deps := FPending entry FNil |} in
      match runCollect env fuel allMocks onProgress recursive schedule st0 with
      | Some (Ok st) =>
          match finish st with
          | Some r => Some (Ok (r, st))
          | None => None
          end
      | Some (Err e) => Some (Err e)
      | None => None
      end
  end.

End GetOrderedDependencies.

(** ** File trees used in the examples *)

Module Fixture.

Definition mkModule (p : string) : Module :=
  {| path := p; hash := "Module : " +:+ p |}.

Definition mem (p : string) (l : list string) : bool :=
  existsb (String.eqb p) l.

Fixpoint assoc {A} (k : string) (l : list (string * A)) : option A :=
  match l with
  | [] => None
  | (k', v) :: rest => if String.eqb k k' then Some v else assoc k rest
  end.

(** A resolver over the files [files] and directories [dirs], with no
    Haste map and no platform; [deps] gives the dependency names of each
    file, [assets] the asset paths, [pkgOf] the package of a module,
    [redirect] its redirections and [assetMap] the deprecated asset
    map. *)
Definition mkEnv (files dirs : list string)
           (deps : list (string * list string))
           (entry : string) (throwOnUnresolved : bool)
           (assets : list string)
           (pkgOf : Module -> option Package)
           (redirect : Package -> string -> res string)
           (assetMap : Module -> string -> option Module) : Env :=
  {| platform := None;
     preferNativePlatform := false;
     entryPath := entry;
     cwd := "/";
     hasteMap_getModule := fun _ _ => None;
     deprecatedAssetMap_resolve := assetMap;
     helpers_isNodeModulesDir := fun _ => false;
     helpers_isAssetFile := fun p => mem p assets;
     getAssetDataFromName := fun p => (Path.basenameNoExt p, "png");
     moduleCache_getModule := fun p => Ok (mkModule p);
     moduleCache_getAssetModule := fun p => Ok (mkModule p);
     moduleCache_getPackage :=
       fun p => {| manifest := p; root := Path.dirname p |};
     fastfs_dirExists := fun p => mem p dirs;
     fastfs_fileExists := fun p => mem p files;
     fastfs_matches := fun _ _ => [];
     fastfs_matchFilesByPattern := fun _ => [];
     shouldThrowOnUnresolvedErrors := fun _ _ => throwOnUnresolved;
     module_getPackage := pkgOf;
     module_getName := fun m => path m;
     module_getDependencies := fun m =>
       match assoc (path m) deps with
       | Some names => Ok names
       | None => Ok []
       end;
     package_getName := fun p => manifest p;
     package_getMain := fun p => Ok (Path.join [root p; "index.js"]);
     package_redirectRequire := redirect |}.

(** The same, with no packages, no assets and an empty asset map. *)
Definition fsEnv (files dirs : list string)
           (deps : list (string * list string))
           (entry : string) (throwOnUnresolved : bool) : Env :=
  mkEnv files dirs deps entry throwOnUnresolved []
        (fun _ => None) (fun _ name => Ok name) (fun _ _ => None).

Definition emptyResponse : Response :=
  {| dependencies := []; mappings := []; responseMocks := None |}.

(** Only [/root/x.json] beside the requester [/root/a.js]. *)
Definition onlyJson : Env :=
  fsEnv ["/root/a.js"; "/root/x.json"] ["/root"] [] "/root/a.js" true.

(** [/root/icon.png] is an asset path with no matching asset file;
    [/root/icon.png.js] is in the file index. *)
Definition strayAsset : Env :=
  mkEnv ["/root/a.js"; "/root/icon.png.js"] ["/root"] [] "/root/a.js" true
        ["/root/icon.png"]
        (fun _ => None) (fun _ name => Ok name) (fun _ _ => None).

Definition ioError : error :=
  {| err_type := "Error"; err_message := "EIO: i/o error, read" |}.

(** Every module belongs to the package [/root/package.json], whose
    redirection table cannot be read. *)
Definition brokenRedirect : Env :=
  mkEnv ["/root/a.js"; "/root/node_modules/lib.js"]
        ["/root"; "/root/node_modules"] [] "/root/a.js" true []
        (fun _ => Some {| manifest := "/root/package.json"; root := "/root" |})
        (fun _ _ => Err ioError) (fun _ _ => None).

(** [lib] is installed under [/root/app/node_modules] and under
    [/root/node_modules]. *)
Definition twoLibs : Env :=
  fsEnv ["/root/app/src/a.js"; "/root/app/node_modules/lib/index.js";
         "/root/node_modules/lib/index.js"]
        ["/root"; "/root/app"; "/root/app/src"; "/root/app/node_modules";
         "/root/app/node_modules/lib"; "/root/node_modules";
         "/root/node_modules/lib"]
        [] "/root/app/src/a.js" true.

(** No [node_modules] directory at all. *)
Definition noLib : Env :=
  fsEnv ["/root/app/src/a.js"] ["/root"; "/root/app"; "/root/app/src"]
        [] "/root/app/src/a.js" true.

(** The package [/root/node_modules/pkg] redirects [lib] to its own
    [./shim]. *)
Definition shimRedirect : Env :=
  mkEnv ["/root/node_modules/pkg/index.js"; "/root/node_modules/pkg/shim.js"]
        ["/root"; "/root/node_modules"; "/root/node_modules/pkg"]
        [] "/root/node_modules/pkg/index.js" true []
        (fun _ => Some {| manifest := "/root/node_modules/pkg/package.json";
                          root := "/root/node_modules/pkg" |})
        (fun _ name => Ok (if String.eqb name "lib" then "./shim" else name))
        (fun _ _ => None).

(** [/root/x.js] beside the requester [/root/a.js]. *)
Definition sibling : Env :=
  fsEnv ["/root/a.js"; "/root/x.js"] ["/root"] [] "/root/a.js" true.

(** [/root/a.js] requires [./missing] and [./b]; unresolved
    dependencies are tolerated. *)
Definition tolerant : Env :=
  fsEnv ["/root/a.js"; "/root/b.js"] ["/root"]
        [("/root/a.js", ["./missing"; "./b"])] "/root/a.js" false.

(** The same tree, unresolved dependencies not tolerated. *)
Definition strict : Env :=
  fsEnv ["/root/a.js"; "/root/b.js"] ["/root"]
        [("/root/a.js", ["./missing"; "./b"])] "/root/a.js" true.

(** The deprecated asset map knows [./icon.png]. *)
Definition legacyAsset : Env :=
  mkEnv ["/root/a.js"; "/root/icon.png"] ["/root"] [] "/root/a.js" true []
        (fun _ => None) (fun _ name => Ok name)
        (fun _ name => if String.eqb name "./icon.png"
                       then Some (mkModule "/legacy/icon.png") else None).

(** [a.js] requires [b.js] and [c.js]; [b.js] requires [d.js]. *)
Definition branching : Env :=
  fsEnv ["/r/a.js"; "/r/b.js"; "/r/c.js"; "/r/d.js"] ["/r"]
        [("/r/a.js", ["./b"; "./c"]); ("/r/b.js", ["./d"])]
        "/r/a.js" true.

(** [a.js] requires [b.js] under the two names [./b] and [./b.js]. *)
Definition twoNames : Env :=
  fsEnv ["/r/a.js"; "/r/b.js"] ["/r"]
        [("/r/a.js", ["./b"; "./b.js"])] "/r/a.js" true.

(** [a.js] and [b.js] require each other. *)
Definition circular : Env :=
  fsEnv ["/r/a.js"; "/r/b.js"] ["/r"]
        [("/r/a.js", ["./b"]); ("/r/b.js", ["./a"])] "/r/a.js" true.


End Fixture.

(** ** More file trees *)

Module Tree.

(** [env] with the Haste map [lookup]. *)
Definition withHasteMap (env : Env) (lookup : string -> option hasteEntry)
  : Env :=
  {| platform := platform env;
     preferNativePlatform := preferNativePlatform env;
     entryPath := entryPath env;
     cwd := cwd env;
     hasteMap_getModule := fun name _ => lookup name;
     deprecatedAssetMap_resolve := deprecatedAssetMap_resolve env;
     helpers_isNodeModulesDir := helpers_isNodeModulesDir env;
     helpers_isAssetFile := helpers_isAssetFile env;
     getAssetDataFromName := getAssetDataFromName env;
     moduleCache_getModule := moduleCache_getModule env;
     moduleCache_getAssetModule := moduleCache_getAssetModule env;
     moduleCache_getPackage := moduleCache_getPackage env;
     fastfs_dirExists := fastfs_dirExists env;
     fastfs_fileExists := fastfs_fileExists env;
     fastfs_matches := fastfs_matches env;
     fastfs_matchFilesByPattern := fastfs_matchFilesByPattern env;
     shouldThrowOnUnresolvedErrors := shouldThrowOnUnresolvedErrors env;
     module_getPackage := module_getPackage env;
     module_getName := module_getName env;
     module_getDependencies := module_getDependencies env;
     package_getName := package_getName env;
     package_getMain := package_getMain env;
     package_redirectRequire := package_redirectRequire env |}.

(** [env] with packages whose main is given by [main]. *)
Definition withMain (env : Env) (main : Package -> res string) : Env :=
  {| platform := platform env;
     preferNativePlatform := preferNativePlatform env;
     entryPath := entryPath env;
     cwd := cwd env;
     hasteMap_getModule := hasteMap_getModule env;
     deprecatedAssetMap_resolve := deprecatedAssetMap_resolve env;
     helpers_isNodeModulesDir := helpers_isNodeModulesDir env;
     helpers_isAssetFile := helpers_isAssetFile env;
     getAssetDataFromName := getAssetDataFromName env;
     moduleCache_getModule := moduleCache_getModule env;
     moduleCache_getAssetModule := moduleCache_getAssetModule env;
     moduleCache_getPackage := moduleCache_getPackage env;
     fastfs_dirExists := fastfs_dirExists env;
     fastfs_fileExists := fastfs_fileExists env;
     fastfs_matches := fastfs_matches env;
     fastfs_matchFilesByPattern := fastfs_matchFilesByPattern env;
     shouldThrowOnUnresolvedErrors := shouldThrowOnUnresolvedErrors env;
     module_getPackage := module_getPackage env;
     module_getName := module_getName env;
     module_getDependencies := module_getDependencies env;
     package_getName := package_getName env;
     package_getMain := main;
     package_redirectRequire := package_redirectRequire env |}.

(** [env] with the mock files [files], whatever the pattern, and modules
    named by [name]. *)
Definition withMocks (env : Env) (files : list string)
           (name : Module -> string) : Env :=
  {| platform := platform env;
     preferNativePlatform := preferNativePlatform env;
     entryPath := entryPath env;
     cwd := cwd env;
     hasteMap_getModule := hasteMap_getModule env;
     deprecatedAssetMap_resolve := deprecatedAssetMap_resolve env;
     helpers_isNodeModulesDir := helpers_isNodeModulesDir env;
     helpers_isAssetFile := helpers_isAssetFile env;
     getAssetDataFromName := getAssetDataFromName env;
     moduleCache_getModule := moduleCache_getModule env;
     moduleCache_getAssetModule := moduleCache_getAssetModule env;
     moduleCache_getPackage := moduleCache_getPackage env;
     fastfs_dirExists := fastfs_dirExists env;
     fastfs_fileExists := fastfs_fileExists env;
     fastfs_matches := fastfs_matches env;
     fastfs_matchFilesByPattern := fun _ => files;
     shouldThrowOnUnresolvedErrors := shouldThrowOnUnresolvedErrors env;
     module_getPackage := module_getPackage env;
     module_getName := name;
     module_getDependencies := module_getDependencies env;
     package_getName := package_getName env;
     package_getMain := package_getMain env;
     package_redirectRequire := package_redirectRequire env |}.

(** [env] with the files [matches] of a directory matching a pattern. *)
Definition withMatches (env : Env) (matches : string -> string -> list string)
  : Env :=
  {| platform := platform env;
     preferNativePlatform := preferNativePlatform env;
     entryPath := entryPath env;
     cwd := cwd env;
     hasteMap_getModule := hasteMap_getModule env;
     deprecatedAssetMap_resolve := deprecatedAssetMap_resolve env;
     helpers_isNodeModulesDir := helpers_isNodeModulesDir env;
     helpers_isAssetFile := helpers_isAssetFile env;
     getAssetDataFromName := getAssetDataFromName env;
     moduleCache_getModule := moduleCache_getModule env;
     moduleCache_getAssetModule := moduleCache_getAssetModule env;
     moduleCache_getPackage := moduleCache_getPackage env;
     fastfs_dirExists := fastfs_dirExists env;
     fastfs_fileExists := fastfs_fileExists env;
     fastfs_matches := matches;
     fastfs_matchFilesByPattern := fastfs_matchFilesByPattern env;
     shouldThrowOnUnresolvedErrors := shouldThrowOnUnresolvedErrors env;
     module_getPackage := module_getPackage env;
     module_getName := module_getName env;
     module_getDependencies := module_getDependencies env;
     package_getName := package_getName env;
     package_getMain := package_getMain env;
     package_redirectRequire := package_redirectRequire env |}.

(** The Haste map knows the module [React] and the package [ui], rooted
    at [/lib/ui]; [/root/a.js] is the requester. *)
Definition haste : Env :=
  withHasteMap
    (Fixture.fsEnv ["/root/a.js"; "/lib/React.js"; "/lib/ui/widgets/Button.js"]
                   ["/root"; "/lib"; "/lib/ui"; "/lib/ui/widgets"]
                   [] "/root/a.js" true)
    (fun name =>
       if String.eqb name "React"
       then Some (HasteModule (Fixture.mkModule "/lib/React.js"))
       else if String.eqb name "ui"
       then Some (HastePackage {| manifest := "/lib/ui/package.json";
                                  root := "/lib/ui" |})
       else None).

(** The package of [/root/a.js] redirects [lib] to the absolute path
    [/opt/lib]. *)
Definition absoluteRedirect : Env :=
  Fixture.mkEnv ["/root/a.js"] ["/root"] [] "/root/a.js" true []
    (fun _ => Some {| manifest := "/root/package.json"; root := "/root" |})
    (fun _ name => Ok (if String.eqb name "lib" then "/opt/lib" else name))
    (fun _ _ => None).

(** The manifest of [/root/pkg] names the directory itself as its main. *)
Definition selfMain : Env :=
  withMain
    (Fixture.fsEnv ["/root/a.js"; "/root/pkg/package.json"; "/root/pkg/index.js"]
                   ["/root"; "/root/pkg"] [] "/root/a.js" true)
    (fun p => Ok (root p)).

(** The manifest of [/root/pkg] names [lib/main], which is missing;
    [/root/pkg/index.js] exists. *)
Definition missingMain : Env :=
  withMain
    (Fixture.fsEnv ["/root/a.js"; "/root/pkg/package.json"; "/root/pkg/index.js"]
                   ["/root"; "/root/pkg"] [] "/root/a.js" true)
    (fun p => Ok (Path.join [root p; "lib/main"])).

(** [/root/icon.png] is an asset path; the directory holds the file at
    two scales. *)
Definition scaledAsset : Env :=
  withMatches Fixture.strayAsset
    (fun dir _ =>
       if String.eqb dir "/root"
       then ["/root/icon@2x.png"; "/root/icon@3x.png"] else []).

(** [a.js] requires [b.js]; two mock files have the base name [b], and a
    module is named by the base name of its path.  The entry is
    [entry]. *)
Definition mocked (entry : string) : Env :=
  withMocks
    (Fixture.fsEnv ["/r/a.js"; "/r/b.js"; "/r/__mocks__/b.js";
                    "/r/other/__mocks__/b.js"]
                   ["/r"] [("/r/a.js", ["./b"])] entry true)
    ["/r/__mocks__/b.js"; "/r/other/__mocks__/b.js"]
    (fun m => Path.basenameNoExt (path m)).

(** [lib] is installed twice, as in [Fixture.twoLibs]; every manifest
    names the file [/root/node_modules/lib/index.js] as its main. *)
Definition oneMain : Env :=
  withMain Fixture.twoLibs (fun _ => Ok "/root/node_modules/lib/index.js").

End Tree.

(** ** Reference definitions

    The behaviour the properties below compare the code with. *)

(** [orElse first second]: [second] runs after [first], and only when
    [first] fails with an error of kind [UnableToResolveError]. *)
Definition orElse {A} (first second : W A) : W A :=
  match first with
  | Some (Err e, t) => if isUnableToResolve e then after t second else first
  | _ => first
  end.

(** The paths [_loadAsFile] probes for a candidate path, in order. *)
Definition probeCandidates (env : Env) (p : string) : list string :=
  p ::
  match platform env with
  | Some pl => [p +:+ "." +:+ pl +:+ ".js"]
  | None => []
  end ++
  (if preferNativePlatform env then [p +:+ ".native.js"] else []) ++
  [p +:+ ".js"; p +:+ ".json"].

(** The candidates probed one after the other; the first that is in the
    file index is loaded through the module cache. *)
Fixpoint probeInOrder (env : Env) (candidates : list string) (notFound : error)
  : W Module :=
  match candidates with
  | [] => throw notFound
  | c :: rest =>
      if fastfs_fileExists env c
      then Some (moduleCache_getModule env c, [EvFileExists c; EvGetModule c])
      else after [EvFileExists c] (probeInOrder env rest notFound)
  end.

(** [chain] tries [first] and falls back on [second] exactly when [first]
    fails with an error of kind [UnableToResolveError]: in every other
    case the outcome and the calls of [chain] are those of [first]. *)
Definition fallsBackOnlyOnUnableToResolve {A} (first second chain : W A)
  : Prop :=
  (forall a t, first = Some (Ok a, t) -> chain = Some (Ok a, t))
  /\ (forall e t, first = Some (Err e, t) -> isUnableToResolve e = false ->
      chain = Some (Err e, t))
  /\ (forall e t, first = Some (Err e, t) -> isUnableToResolve e = true ->
      chain = after t second)
  /\ (first = None -> chain = None).

(** The candidates of [queue] tried in order, each as a file and then as a
    directory, until one succeeds.  A candidate that fails with an
    [UnableToResolveError] hands that error on; the failure of an
    exhausted queue is the error handed on last, [failure] at first. *)
Fixpoint searchInOrder (env : Env) (fuel : nat) (fromModule : Module)
         (toModuleName : string) (failure : error) (queue : list string)
  : W Module :=
  match queue with
  | [] => throw failure
  | candidate :: rest =>
      match orElse (_loadAsFile env candidate fromModule toModuleName)
                   (_loadAsDir env fuel candidate fromModule toModuleName) with
      | Some (Err e, t) =>
          if isUnableToResolve e
          then after t (searchInOrder env fuel fromModule toModuleName e rest)
          else Some (Err e, t)
      | other => other
      end
  end.

(** [ascending fsRoot dir dirs]: [dirs] lists [dir] and its ancestors,
    closest first, up to the file-system root, which is left out. *)
Fixpoint ascending (fsRoot dir : string) (dirs : list string) : Prop :=
  match dirs with
  | [] => dir = fsRoot
  | d :: rest =>
      dir <> fsRoot /\ d = dir /\ ascending fsRoot (Path.dirname dir) rest
  end.

(** A chain that fails with an error of kind [UnableToResolveError]. *)
Definition failsUnableToResolve {A} (w : W A) : Prop :=
  exists e t, w = Some (Err e, t) /\ isUnableToResolve e = true.

(** The Node resolver as the specification words it: a specifier that
    starts with [.] or [/] is a file-or-directory candidate; any other
    goes through redirect and then the ascending node_modules search. *)
Definition spec_resolveNodeDependency (env : Env) (fuel : nat)
           (fromModule : Module) (toModuleName : string) : W Module :=
  if JsString.charIs toModuleName 0 Path.dot
     || JsString.charIs toModuleName 0 Path.slash
  then _resolveFileOrDir env fuel fromModule toModuleName
  else
    let* realModuleName := _redirectRequire env fromModule toModuleName in
    match searchQueue fuel fromModule realModuleName with
    | Some queue => searchNodeModules env fuel fromModule toModuleName queue
    | None => None
    end.

(** The modules of a forest in depth-first pre-order: each module, then
    the modules its collection discovered, then its later siblings. *)
Fixpoint preorder (f : forest) : list Module :=
  match f with
  | FNil => []
  | FPending m rest => m :: preorder rest
  | FSettled m kids rest => m :: preorder kids ++ preorder rest
  end.

(** The modules at the top of a forest. *)
Fixpoint roots (f : forest) : list Module :=
  match f with
  | FNil => []
  | FPending m rest => m :: roots rest
  | FSettled m _ rest => m :: roots rest
  end.

(** [childOf f parent child]: the collection of [parent] settled to an
    array that lists [child]. *)
Fixpoint childOf (f : forest) (parent child : Module) : Prop :=
  match f with
  | FNil => False
  | FPending _ rest => childOf rest parent child
  | FSettled m kids rest =>
      (m = parent /\ In child (roots kids))
      \/ childOf kids parent child \/ childOf rest parent child
  end.

(** The modules whose collection has settled. *)
Fixpoint settledModules (f : forest) : list Module :=
  match f with
  | FNil => []
  | FPending _ rest => settledModules rest
  | FSettled m kids rest => m :: settledModules kids ++ settledModules rest
  end.

(** [keptPairs env allMocks pairs filteredPairs]: [filteredPairs] keeps,
    in order, the pairs of [pairs] that have a module; a pair without one
    is left out, or stands with the module of the mock registered under
    its name. *)
Inductive keptPairs (env : Env) (allMocks : option (gmap string string))
  : list (string * option Module) -> list (string * Module) -> Prop :=
| kept_nil : keptPairs env allMocks [] []
| kept_resolved name modDep pairs filteredPairs :
    keptPairs env allMocks pairs filteredPairs ->
    keptPairs env allMocks ((name, Some modDep) :: pairs)
              ((name, modDep) :: filteredPairs)
| kept_omitted name pairs filteredPairs :
    keptPairs env allMocks pairs filteredPairs ->
    keptPairs env allMocks ((name, None) :: pairs) filteredPairs
| kept_mocked name all file mockModule pairs filteredPairs :
    allMocks = Some all ->
    all !! name = Some file ->
    moduleCache_getModule env file = Ok mockModule ->
    keptPairs env allMocks pairs filteredPairs ->
    keptPairs env allMocks ((name, None) :: pairs)
              ((name, mockModule) :: filteredPairs).

(** The pairs that have a module, in order. *)
Fixpoint omitNull (pairs : list (string * option Module))
  : list (string * Module) :=
  match pairs with
  | [] => []
  | (name, Some modDep) :: rest => (name, modDep) :: omitNull rest
  | (_, None) :: rest => omitNull rest
  end.

(** [resolvesTo env fuel mod_ cache_ name v]: [v] is what
    [resolveDependency(mod_, name)] settles with when the memo is [cache_]
    at the call: a memo hit or a deprecated asset, else the module of the
    pipeline, else [null] for a tolerated [UnableToResolveError]. *)
Definition resolvesTo (env : Env) (fuel : nat) (mod_ : Module)
           (cache_ : gmap string Module) (name : string) (v : option Module)
  : Prop :=
  match fst (resolveDependency_lookup env mod_ name cache_) with
  | Settled m => v = Some m
  | InFlight =>
      match resolvePipeline env fuel mod_ name with
      | Some (Ok m, _) => v = Some m
      | Some (Err e, _) =>
          v = None /\ isUnableToResolve e = true
          /\ shouldThrowOnUnresolvedErrors env (entryPath env) (platform env)
             = false
      | None => False
      end
  end.

(** [collectedPairs env fuel allMocks mod_ pairs]: [pairs] are the pairs
    recorded by a collection of [mod_]: what is kept of its dependency
    names, each with what it resolves to, and of the mocks pushed after
    them. *)
Definition collectedPairs (env : Env) (fuel : nat)
           (allMocks : option (gmap string string)) (mod_ : Module)
           (pairs : list (string * Module)) : Prop :=
  exists depNames dependencies_ pushed (cache_ : gmap string Module),
    module_getDependencies env mod_ = Ok depNames
    /\ Forall2 (resolvesTo env fuel mod_ cache_) depNames dependencies_
    /\ (allMocks = None -> pushed = [])
    /\ keptPairs env allMocks (combine depNames dependencies_ ++ pushed) pairs.

(** What holds of the variables of a build between two turns.  [base] is
    the response after [pushDependency(entry)]. *)
Definition buildInvariant (env : Env) (fuel : nat)
           (allMocks : option (gmap string string))
           (recursive : bool) (base : Response)
           (entry : Module) (st : collector) : Prop :=
  dependencies (response st) = dependencies base
  /\ roots (deps st) = [entry]
  /\ (forall h, In h (visited st) <-> In h (List.map hash (preorder (deps st))))
  /\ exists recorded,
      mappings (response st) = mappings base ++ recorded
      /\ (forall m pairs, In (m, pairs) recorded ->
                           collectedPairs env fuel allMocks m pairs)
      /\ (forall m pairs n d,
             In (m, pairs) recorded -> In (n, d) pairs ->
             In (hash d) (visited st))
      /\ (recursive = true ->
          forall m, In m (settledModules (deps st)) ->
                    exists pairs, In (m, pairs) recorded)
      /\ (forall p c, childOf (deps st) p c ->
                      exists pairs,
                        In (p, pairs) recorded /\ In c (List.map snd pairs)).

(** The index of the first element of [l] that satisfies [test]. *)
Fixpoint firstIndex {A} (test : A -> bool) (l : list A) : option nat :=
  match l with
  | [] => None
  | x :: rest =>
      if test x then Some 0
      else match firstIndex test rest with
           | Some i => Some (S i)
           | None => None
           end
  end.

Definition appearsBefore {A} (isX isY : A -> bool) (l : list A) : bool :=
  match firstIndex isX l, firstIndex isY l with
  | Some i, Some j => i <? j
  | _, _ => false
  end.

(** [m1] was marked visited before [m2]. *)
Definition discoveredBefore (st : collector) (m1 m2 : Module) : bool :=
  appearsBefore (String.eqb (hash m1)) (String.eqb (hash m2)) (visited st).

(** [m1] comes before [m2] in the module sequence of the response. *)
Definition listedBefore (r : Response) (m1 m2 : Module) : bool :=
  appearsBefore (fun m => String.eqb (hash m1) (hash m))
                (fun m => String.eqb (hash m2) (hash m)) (dependencies r).










(** [agrees w w']: whenever the chain [w] settles, [w'] settles alike. *)
Definition agrees {A} (w w' : option A) : Prop :=
  forall r, w = Some r -> w' = Some r.

(** [distinctTargets r]: no module's recorded pairs list the same target
    twice. *)
Definition distinctTargets (r : Response) : Prop :=
  forall m pairs,
    In (m, pairs) (mappings r) ->
    NoDup (List.map (fun pair => hash (snd pair)) pairs).

(** ** Calls, outcomes and invariants

    What the properties of the calls made by a resolution, of its
    outcomes and of the variables of a build are stated with. *)

(** [calls P w]: every call made by the chain [w] satisfies [P]. *)
Definition calls {A} (P : event -> Prop) (w : W A) : Prop :=
  forall r t, w = Some (r, t) -> Forall P t.

(** A load through the module cache that follows a positive answer of the
    file index: a file that exists, the first match of an asset pattern
    in a directory that exists, or the manifest of a package that
    exists. *)
Definition probed (env : Env) (ev : event) : Prop :=
  match ev with
  | EvGetModule file => fastfs_fileExists env file = true
  | EvGetMain manifestPath => fastfs_fileExists env manifestPath = true
  | EvGetAssetModule assetFile =>
      exists p rest,
        helpers_isAssetFile env p = true
        /\ fastfs_dirExists env (Path.dirname p) = true
        /\ fastfs_matches env (Path.dirname p) (assetPattern env p)
           = assetFile :: rest
  | _ => True
  end.

(** A call of the Node resolver: to the file index, to the module cache
    or to the package of the requester. *)
Definition nodeCall (ev : event) : Prop :=
  match ev with
  | EvHaste _ | EvMemoRead _ | EvMemoWrite _ | EvAssetMap _ _ | EvPolicy =>
      False
  | _ => True
  end.

(** [yields good bad w]: when the chain [w] settles, its value satisfies
    [good], or its error [bad]. *)
Definition yields {A} (good : A -> Prop) (bad : error -> Prop) (w : W A)
  : Prop :=
  forall r t, w = Some (r, t) ->
              match r with
              | Ok a => good a
              | Err e => bad e
              end.

(** A module handed out by the module cache or stored in the Haste map. *)
Definition handedOut (env : Env) (m : Module) : Prop :=
  (exists file, moduleCache_getModule env file = Ok m)
  \/ (exists assetFile, moduleCache_getAssetModule env assetFile = Ok m)
  \/ (exists name,
         hasteMap_getModule env name (platform env) = Some (HasteModule m)).

(** An error a collaborator answered with. *)
Definition collaboratorError (env : Env) (e : error) : Prop :=
  (exists file, moduleCache_getModule env file = Err e)
  \/ (exists assetFile, moduleCache_getAssetModule env assetFile = Err e)
  \/ (exists pkg, package_getMain env pkg = Err e)
  \/ (exists pkg name, package_redirectRequire env pkg name = Err e).

(** An error built by [new UnableToResolveError(fromModule, ...)]. *)
Definition raisedFor (fromModule : Module) (e : error) : Prop :=
  exists toModule message, e = UnableToResolveError fromModule toModule message.

Definition resolverError (env : Env) (fromModule : Module) (e : error) : Prop :=
  collaboratorError env e \/ raisedFor fromModule e.

(** A string without [/]. *)
Fixpoint slashFree (s : string) : bool :=
  match s with
  | EmptyString => true
  | String c s' => negb (Ascii.eqb c Path.slash) && slashFree s'
  end.

(** A path component: not empty, and without [/]. *)
Definition segment (s : string) : bool := Path.nonempty s && slashFree s.




(** What holds of the progress counters of a recursive build with an
    [onProgress] callback between two turns: [finishedModules] counts the
    settled collections and [totalModules] the modules discovered; the
    reports number the settled collections, none reports more than was
    discovered, and the last one reports the two counters. *)
Definition progressCounts (st : collector) : Prop :=
  finishedModules st = length (settledModules (deps st))
  /\ totalModules st = length (preorder (deps st))
  /\ List.map fst (progress st) = seq 1 (finishedModules st)
  /\ Forall (fun report => fst report <= snd report <= totalModules st)
            (progress st)
  /\ ((progress st = [] /\ finishedModules st = 0)
      \/ List.last (progress st) (0, 0)
         = (finishedModules st, totalModules st)).

(** [attachedMocks env allMocks recorded table]: every entry of the mock
    table is a mock found by the pattern, and its module stands under its
    name in the pairs recorded for some module. *)
Definition attachedMocks (env : Env) (allMocks : option (gmap string string))
           (recorded : list (Module * list (string * Module)))
           (table : gmap string string) : Prop :=
  forall name file,
    table !! name = Some file ->
    (exists all, allMocks = Some all /\ all !! name = Some file)
    /\ exists m pairs mockModule,
        In (m, pairs) recorded
        /\ In (name, mockModule) pairs
        /\ moduleCache_getModule env file = Ok mockModule.

(** The last file of [files] whose base name without extension is
    [name]. *)
Fixpoint lastNamed (name : string) (files : list string) : option string :=
  match files with
  | [] => None
  | file :: rest =>
      match lastNamed name rest with
      | Some later => Some later
      | None =>
          if String.eqb (Path.basenameNoExt file) name then Some file else None
      end
  end.

(** [s] ends with [/]. *)
Fixpoint endsInSlash (s : string) : bool :=
  match s with
  | EmptyString => false
  | String c EmptyString => Ascii.eqb c Path.slash
  | String _ s' => endsInSlash s'
  end.

(** [settles w]: the chain [w] settles, fulfilled or rejected. *)
Definition settles {A} (w : option A) : Prop := exists outcome, w = Some outcome.

(** [flatMains env]: the main of a package is not itself a directory
    with a manifest. *)
Definition flatMains (env : Env) : Prop :=
  forall dir main,
    package_getMain env
      (moduleCache_getPackage env (Path.join [dir; "package.json"])) = Ok main ->
    fastfs_fileExists env (Path.join [main; "package.json"]) = false.

(** * Properties *)

(** ** Promise chains *)

Lemma after_nil {A} (w : W A) : after [] w = w.
Proof. destruct w as [[r t]|]; reflexivity. Qed.

Lemma after_after {A} (t1 t2 : list event) (w : W A) :
  after t1 (after t2 w) = after (t1 ++ t2) w.
Proof.
  destruct w as [[r t]|]; simpl; [|reflexivity].
  now rewrite app_assoc.
Qed.

Lemma after_settled {A} (t : list event) (r : res A) (t' : list event) :
  after t (Some (r, t')) = Some (r, t ++ t').
Proof. reflexivity. Qed.

Lemma tryResolve_orElse {A} (action secondaryAction : unit -> W A) :
  _tryResolve action secondaryAction = orElse (action tt) (secondaryAction tt).
Proof.
  unfold _tryResolve, orElse, catchW.
  destruct (action tt) as [[[a|e] t]|]; try reflexivity.
  destruct (isUnableToResolve e); simpl; [reflexivity|].
  now rewrite app_nil_r.
Qed.

Lemma bindW_settled {A B} (a : A) (t : list event) (f : A -> W B) :
  bindW (Some (Ok a, t)) f = after t (f a).
Proof. reflexivity. Qed.

(** ** The file loader *)

Lemma probeInOrder_first env pre c post notFound :
  Forall (fun x => fastfs_fileExists env x = false) pre ->
  fastfs_fileExists env c = true ->
  probeInOrder env (pre ++ c :: post) notFound
  = Some (moduleCache_getModule env c,
          List.map EvFileExists (pre ++ [c]) ++ [EvGetModule c]).
Proof.
  intros Hpre Hc. induction Hpre as [|x pre Hx _ IH]; simpl.
  - now rewrite Hc.
  - now rewrite Hx, IH.
Qed.

Lemma probeInOrder_none env candidates notFound :
  Forall (fun x => fastfs_fileExists env x = false) candidates ->
  probeInOrder env candidates notFound
  = Some (Err notFound, List.map EvFileExists candidates).
Proof.
  intros H. induction H as [|x l Hx _ IH]; simpl; [reflexivity|].
  now rewrite Hx, IH.
Qed.

Lemma loadAsFile_probes_in_order env p fromModule toModule :
  loadAsFile_probes env p fromModule toModule
  = probeInOrder env (probeCandidates env p)
      (UnableToResolveError fromModule toModule
         ("File " +:+ p +:+ " doesnt exist")).
Proof.
  unfold loadAsFile_probes, probeCandidates.
  destruct (platform env) as [pl|], (preferNativePlatform env); simpl;
    repeat (match goal with
            | |- context [fastfs_fileExists env ?x] =>
                destruct (fastfs_fileExists env x) eqn:?; simpl
            end);
    reflexivity.
Qed.

(** C4: for a candidate path that is not an asset, [_loadAsFile] probes the
    file index in the order: the exact path, the platform variant (when a
    platform is set), the native variant (in native-preferring mode),
    [.js], [.json]; the module of the first probe that exists is loaded
    through the module cache, and when none exists the failure is an
    [UnableToResolveError] naming the candidate path.  With only
    [/root/x.json] on disk, ['./x'] from [/root/a.js] resolves to
    [/root/x.json]. *)
Theorem loadAsFile_probe_order env p fromModule toModule :
  helpers_isAssetFile env p = false ->
  (forall pre c post,
      probeCandidates env p = pre ++ c :: post ->
      Forall (fun x => fastfs_fileExists env x = false) pre ->
      fastfs_fileExists env c = true ->
      _loadAsFile env p fromModule toModule
      = Some (moduleCache_getModule env c,
              List.map EvFileExists (pre ++ [c]) ++ [EvGetModule c]))
  /\ (Forall (fun x => fastfs_fileExists env x = false) (probeCandidates env p) ->
      _loadAsFile env p fromModule toModule
      = Some (Err (UnableToResolveError fromModule toModule
                     ("File " +:+ p +:+ " doesnt exist")),
              List.map EvFileExists (probeCandidates env p)))
  /\ (forall fuel,
      resolveDependency Fixture.onlyJson fuel
        (Fixture.mkModule "/root/a.js") "./x" ∅
      = Some (Ok (Some (Fixture.mkModule "/root/x.json")),
              [EvMemoRead "/root/a.js:./x"; EvAssetMap "/root/a.js" "./x";
               EvFileExists "/root/x"; EvFileExists "/root/x.js";
               EvFileExists "/root/x.json"; EvGetModule "/root/x.json";
               EvMemoWrite "/root/a.js:./x"],
              <["/root/a.js:./x" := Fixture.mkModule "/root/x.json"]> ∅)).
Proof.
  intros Hasset. unfold _loadAsFile. rewrite Hasset.
  rewrite loadAsFile_probes_in_order.
  split; [|split].
  - intros pre c post -> Hpre Hc. now apply probeInOrder_first.
  - intros Hnone. now apply probeInOrder_none.
  - intros fuel. vm_compute. reflexivity.
Qed.

Lemma loadAsFile_probe_order_witness :
  _loadAsFile Fixture.onlyJson "/root/x" (Fixture.mkModule "/root/a.js") "./x"
  = Some (Ok (Fixture.mkModule "/root/x.json"),
          [EvFileExists "/root/x"; EvFileExists "/root/x.js";
           EvFileExists "/root/x.json"; EvGetModule "/root/x.json"]).
Proof.
  refine (proj1 (loadAsFile_probe_order Fixture.onlyJson "/root/x"
                   (Fixture.mkModule "/root/a.js") "./x" _)
                ["/root/x"; "/root/x.js"] "/root/x.json" [] _ _ _).
  - reflexivity.
  - reflexivity.
  - repeat constructor.
  - reflexivity.
Defined.

(** C10: on an asset path whose directory exists but where no file matches
    the asset pattern, [_loadAsFile] does not fail after the pattern
    match: it goes on with the ordinary probes (exact path, platform
    variant, native variant, [.js], [.json]), loads the first that exists,
    and fails with [UnableToResolveError] only when all of them miss. *)
Theorem loadAsFile_asset_falls_through env p fromModule toModule :
  helpers_isAssetFile env p = true ->
  fastfs_dirExists env (Path.dirname p) = true ->
  fastfs_matches env (Path.dirname p) (assetPattern env p) = [] ->
  (forall pre c post,
      probeCandidates env p = pre ++ c :: post ->
      Forall (fun x => fastfs_fileExists env x = false) pre ->
      fastfs_fileExists env c = true ->
      _loadAsFile env p fromModule toModule
      = Some (moduleCache_getModule env c,
              [EvDirExists (Path.dirname p);
               EvMatches (Path.dirname p) (assetPattern env p)]
              ++ List.map EvFileExists (pre ++ [c]) ++ [EvGetModule c]))
  /\ (Forall (fun x => fastfs_fileExists env x = false) (probeCandidates env p) ->
      _loadAsFile env p fromModule toModule
      = Some (Err (UnableToResolveError fromModule toModule
                     ("File " +:+ p +:+ " doesnt exist")),
              [EvDirExists (Path.dirname p);
               EvMatches (Path.dirname p) (assetPattern env p)]
              ++ List.map EvFileExists (probeCandidates env p))).
Proof.
  intros Hasset Hdir Hmatch. unfold _loadAsFile. rewrite Hasset.
  unfold call. rewrite bindW_settled, Hdir. simpl negb. cbv iota.
  rewrite bindW_settled, Hmatch, after_after.
  rewrite loadAsFile_probes_in_order.
  split.
  - intros pre c post -> Hpre Hc.
    now rewrite (probeInOrder_first _ _ _ _ _ Hpre Hc).
  - intros Hnone. now rewrite (probeInOrder_none _ _ _ Hnone).
Qed.

Lemma loadAsFile_asset_falls_through_witness :
  _loadAsFile Fixture.strayAsset "/root/icon.png"
              (Fixture.mkModule "/root/a.js") "./icon.png"
  = Some (Ok (Fixture.mkModule "/root/icon.png.js"),
          [EvDirExists "/root"; EvMatches "/root" "^icon(@[\d\.]+x)?\.png";
           EvFileExists "/root/icon.png"; EvFileExists "/root/icon.png.js";
           EvGetModule "/root/icon.png.js"]).
Proof.
  refine (proj1 (loadAsFile_asset_falls_through Fixture.strayAsset
                   "/root/icon.png" (Fixture.mkModule "/root/a.js")
                   "./icon.png" _ _ _)
                ["/root/icon.png"] "/root/icon.png.js" ["/root/icon.png.json"]
                _ _ _).
  - reflexivity.
  - reflexivity.
  - reflexivity.
  - reflexivity.
  - repeat constructor.
  - reflexivity.
Defined.

(** ** Fallback chains *)

Lemma loadAsDir_step env fuel potentialDirPath fromModule toModule :
  _loadAsDir env (S fuel) potentialDirPath fromModule toModule
  = (let* exists_ := call (EvDirExists potentialDirPath)
                          (fastfs_dirExists env potentialDirPath) in
     if negb exists_ then
       throw (UnableToResolveError fromModule toModule
                (loadAsDir_message potentialDirPath))
     else
       let packageJsonPath := Path.join [potentialDirPath; "package.json"] in
       let* hasManifest := call (EvFileExists packageJsonPath)
                                (fastfs_fileExists env packageJsonPath) in
       if hasManifest then
         let* main := await (EvGetMain packageJsonPath)
                        (package_getMain env
                           (moduleCache_getPackage env packageJsonPath)) in
         _tryResolve
           (fun _ => _loadAsFile env main fromModule toModule)
           (fun _ => _loadAsDir env fuel main fromModule toModule)
       else
         _loadAsFile env (Path.join [potentialDirPath; "index"])
                     fromModule toModule).
Proof. reflexivity. Qed.

Lemma orElse_fallsBack {A} (first second : W A) :
  fallsBackOnlyOnUnableToResolve first second (orElse first second).
Proof.
  unfold fallsBackOnlyOnUnableToResolve, orElse.
  repeat split.
  - now intros a t ->.
  - now intros e t -> ->.
  - now intros e t -> ->.
  - now intros ->.
Qed.

(** C5: in the fallback chains Haste-then-Node, file-then-directory and
    node_modules ancestor search, the next alternative runs if and only if
    the previous attempt failed with an error of kind
    [UnableToResolveError]; a success, or an error of another kind, is the
    outcome of the chain at once, with no call made by the alternative. *)
Theorem fallback_only_on_UnableToResolve env fuel fromModule toModuleName :
  (helpers_isNodeModulesDir env (path fromModule) = false ->
   JsString.charIs toModuleName 0 Path.dot = false ->
   JsString.charIs toModuleName 0 Path.slash = false ->
   fallsBackOnlyOnUnableToResolve
     (_resolveHasteDependency env fuel fromModule toModuleName)
     (_resolveNodeDependency env fuel fromModule toModuleName)
     (resolvePipeline env fuel fromModule toModuleName))
  /\ (forall realModuleName t,
      _redirectRequire env fromModule
        (if Path.isAbsolutePath toModuleName then toModuleName
         else Path.join [Path.dirname (path fromModule); toModuleName])
      = Some (Ok realModuleName, t) ->
      exists chain,
        _resolveFileOrDir env fuel fromModule toModuleName = after t chain
        /\ fallsBackOnlyOnUnableToResolve
             (_loadAsFile env realModuleName fromModule toModuleName)
             (_loadAsDir env fuel realModuleName fromModule toModuleName)
             chain)
  /\ (forall dir main,
      fastfs_dirExists env dir = true ->
      fastfs_fileExists env (Path.join [dir; "package.json"]) = true ->
      package_getMain env
        (moduleCache_getPackage env (Path.join [dir; "package.json"]))
      = Ok main ->
      exists chain,
        _loadAsDir env (S fuel) dir fromModule toModuleName
        = after [EvDirExists dir;
                 EvFileExists (Path.join [dir; "package.json"]);
                 EvGetMain (Path.join [dir; "package.json"])] chain
        /\ fallsBackOnlyOnUnableToResolve
             (_loadAsFile env main fromModule toModuleName)
             (_loadAsDir env fuel main fromModule toModuleName)
             chain)
  /\ (forall p potentialModulePath,
      exists inner,
        fallsBackOnlyOnUnableToResolve p
          (_loadAsFile env potentialModulePath fromModule toModuleName) inner
        /\ fallsBackOnlyOnUnableToResolve inner
             (_loadAsDir env fuel potentialModulePath fromModule toModuleName)
             (searchStep env fuel fromModule toModuleName p
                         potentialModulePath)).
Proof.
  split; [|split; [|split]].
  - intros Hdir Hdot Hslash. unfold resolvePipeline.
    rewrite Hdir, Hdot, Hslash. simpl. rewrite tryResolve_orElse.
    apply orElse_fallsBack.
  - intros r t Hredirect.
    exists (orElse (_loadAsFile env r fromModule toModuleName)
                   (_loadAsDir env fuel r fromModule toModuleName)).
    split; [|apply orElse_fallsBack].
    unfold _resolveFileOrDir. cbv zeta. rewrite Hredirect, bindW_settled.
    now rewrite tryResolve_orElse.
  - intros dir main Hdir Hmanifest Hmain.
    exists (orElse (_loadAsFile env main fromModule toModuleName)
                   (_loadAsDir env fuel main fromModule toModuleName)).
    split; [|apply orElse_fallsBack].
    rewrite loadAsDir_step. unfold call, await.
    rewrite bindW_settled, Hdir. simpl negb. cbv iota zeta.
    rewrite bindW_settled, Hmanifest, Hmain, bindW_settled.
    rewrite tryResolve_orElse, !after_after. reflexivity.
  - intros p c.
    exists (orElse p (_loadAsFile env c fromModule toModuleName)).
    split; [apply orElse_fallsBack|].
    unfold searchStep. rewrite !tryResolve_orElse. apply orElse_fallsBack.
Qed.

Lemma fallback_only_on_UnableToResolve_witness :
  resolvePipeline Fixture.brokenRedirect 3 (Fixture.mkModule "/root/a.js") "lib"
  = Some (Err Fixture.ioError, [EvRedirect "/root/package.json" "lib"]).
Proof.
  refine (proj1 (proj2 (proj1 (fallback_only_on_UnableToResolve
                                 Fixture.brokenRedirect 3
                                 (Fixture.mkModule "/root/a.js") "lib")
                              _ _ _))
                Fixture.ioError [EvRedirect "/root/package.json" "lib"] _ _);
    reflexivity.
Defined.

(** ** The ascending node_modules search *)

Lemma searchQueue_from_ascending fuel fsRoot realModuleName :
  forall currDir queue,
    searchQueue_from fuel fsRoot currDir realModuleName = Some queue ->
    exists dirs,
      ascending fsRoot currDir dirs
      /\ queue = List.map (fun d => Path.join [d; "node_modules"; realModuleName])
                          dirs.
Proof.
  induction fuel as [|fuel IH]; intros currDir queue; simpl.
  - destruct (String.eqb_spec currDir fsRoot) as [->|Hne]; [|discriminate].
    intros [= <-]. now exists [].
  - destruct (String.eqb_spec currDir fsRoot) as [->|Hne].
    + intros [= <-]. now exists [].
    + destruct (searchQueue_from fuel fsRoot (Path.dirname currDir)
                                 realModuleName) as [rest|] eqn:Hrest;
        [|discriminate].
      intros [= <-]. destruct (IH _ _ Hrest) as (dirs & Hasc & ->).
      exists (currDir :: dirs). simpl. auto.
Qed.

Lemma fold_searchStep env fuel fromModule toModuleName :
  forall queue p,
    fold_left (searchStep env fuel fromModule toModuleName) queue p
    = match p with
      | Some (Err e, t) =>
          if isUnableToResolve e
          then after t (searchInOrder env fuel fromModule toModuleName e queue)
          else p
      | _ => p
      end.
Proof.
  induction queue as [|c rest IH]; intros p; simpl fold_left.
  - destruct p as [[[m|e] t]|]; try reflexivity.
    destruct (isUnableToResolve e); simpl; [|reflexivity].
    now rewrite app_nil_r.
  - rewrite IH. unfold searchStep. rewrite !tryResolve_orElse.
    simpl searchInOrder.
    destruct p as [[[m|e] t]|]; try reflexivity.
    unfold orElse. destruct (isUnableToResolve e) eqn:He;
      [|now repeat (rewrite He; simpl)].
    destruct (_loadAsFile env c fromModule toModuleName)
      as [[[mf|ef] tf]|]; simpl; [reflexivity| |reflexivity].
    destruct (isUnableToResolve ef) eqn:Hef; simpl; [|now rewrite Hef].
    destruct (_loadAsDir env fuel c fromModule toModuleName)
      as [[[md|ed] td]|]; simpl; [now rewrite app_assoc| |reflexivity].
    destruct (isUnableToResolve ed) eqn:Hed; simpl.
    + now rewrite after_after, app_assoc.
    + now rewrite app_assoc.
Qed.

Lemma searchNodeModules_in_order env fuel fromModule toModuleName queue :
  searchNodeModules env fuel fromModule toModuleName queue
  = searchInOrder env fuel fromModule toModuleName
      (UnableToResolveError fromModule toModuleName "Node module not found")
      queue.
Proof.
  unfold searchNodeModules. rewrite fold_searchStep. unfold throw.
  change (isUnableToResolve (UnableToResolveError fromModule toModuleName
                                                  "Node module not found"))
    with true.
  cbv iota. apply after_nil.
Qed.

Lemma searchInOrder_first_success env fuel fromModule toModuleName c after_ m tc :
  orElse (_loadAsFile env c fromModule toModuleName)
         (_loadAsDir env fuel c fromModule toModuleName) = Some (Ok m, tc) ->
  forall before failure,
    Forall (fun x =>
              failsUnableToResolve
                (orElse (_loadAsFile env x fromModule toModuleName)
                        (_loadAsDir env fuel x fromModule toModuleName)))
           before ->
    exists log,
      searchInOrder env fuel fromModule toModuleName failure
                    (before ++ c :: after_)
      = Some (Ok m, log ++ tc).
Proof.
  intros Hc before. induction before as [|x before IH]; intros failure Hfail.
  - exists []. simpl. now rewrite Hc.
  - inversion Hfail as [|? ? (e & t & Hx & He) Hrest]; subst.
    destruct (IH e Hrest) as (log & Hlog).
    exists (t ++ log). simpl. rewrite Hx, He, Hlog. simpl.
    now rewrite app_assoc.
Qed.

Lemma searchInOrder_all_fail env fuel fromModule toModuleName c e tc :
  orElse (_loadAsFile env c fromModule toModuleName)
         (_loadAsDir env fuel c fromModule toModuleName) = Some (Err e, tc) ->
  forall before failure,
    Forall (fun x =>
              failsUnableToResolve
                (orElse (_loadAsFile env x fromModule toModuleName)
                        (_loadAsDir env fuel x fromModule toModuleName)))
           before ->
    exists log,
      searchInOrder env fuel fromModule toModuleName failure (before ++ [c])
      = Some (Err e, log ++ tc).
Proof.
  intros Hc before. induction before as [|x before IH]; intros failure Hfail.
  - exists []. simpl. rewrite Hc.
    destruct (isUnableToResolve e); simpl; [|reflexivity].
    now rewrite app_nil_r.
  - inversion Hfail as [|? ? (e' & t & Hx & He) Hrest]; subst.
    destruct (IH e' Hrest) as (log & Hlog).
    exists (t ++ log). simpl. rewrite Hx, He, Hlog. simpl.
    now rewrite app_assoc.
Qed.

(** C1 (amended): for a bare specifier that is still bare after redirect,
    the candidates [<ancestor>/node_modules/<name>] are tried in ascending
    order from the requester's directory towards the file-system root
    (root left out), each as a file and then as a directory before the
    next ancestor; the first success in this order is the result, so the
    closer of two matching ancestors wins.  When every candidate fails
    with [UnableToResolveError], the failure is the error of the last
    candidate; it is the 'Node module not found' error only when there is
    no candidate at all. *)
Theorem node_modules_search_ascending
        env fuel fromModule toModuleName realModuleName t queue :
  looksRelative toModuleName = false ->
  _redirectRequire env fromModule toModuleName = Some (Ok realModuleName, t) ->
  looksRelative realModuleName = false ->
  searchQueue fuel fromModule realModuleName = Some queue ->
  let attempt c :=
    orElse (_loadAsFile env c fromModule toModuleName)
           (_loadAsDir env fuel c fromModule toModuleName) in
  (exists dirs,
      ascending (Path.root (path fromModule)) (Path.dirname (path fromModule))
                dirs
      /\ queue = List.map
                   (fun d => Path.join [d; "node_modules"; realModuleName]) dirs)
  /\ _resolveNodeDependency env fuel fromModule toModuleName
     = after t (searchInOrder env fuel fromModule toModuleName
                  (UnableToResolveError fromModule toModuleName
                                        "Node module not found")
                  queue)
  /\ (forall before c after_ m tc,
         queue = before ++ c :: after_ ->
         Forall (fun x => failsUnableToResolve (attempt x)) before ->
         attempt c = Some (Ok m, tc) ->
         exists log,
           _resolveNodeDependency env fuel fromModule toModuleName
           = Some (Ok m, t ++ log ++ tc))
  /\ (forall before c e tc,
         queue = before ++ [c] ->
         Forall (fun x => failsUnableToResolve (attempt x)) before ->
         attempt c = Some (Err e, tc) ->
         exists log,
           _resolveNodeDependency env fuel fromModule toModuleName
           = Some (Err e, t ++ log ++ tc))
  /\ (queue = [] ->
      _resolveNodeDependency env fuel fromModule toModuleName
      = Some (Err (UnableToResolveError fromModule toModuleName
                                        "Node module not found"), t)).
Proof.
  intros Hbare Hredirect Hbare' Hqueue attempt.
  assert (Hnode :
    _resolveNodeDependency env fuel fromModule toModuleName
    = after t (searchInOrder env fuel fromModule toModuleName
                 (UnableToResolveError fromModule toModuleName
                                       "Node module not found")
                 queue)).
  { unfold _resolveNodeDependency.
    rewrite Hbare, Hredirect, bindW_settled, Hbare', Hqueue.
    now rewrite searchNodeModules_in_order. }
  split; [|split; [|split; [|split]]].
  - now apply searchQueue_from_ascending with (fuel := fuel).
  - exact Hnode.
  - intros before c after_ m tc -> Hfail Hc.
    destruct (searchInOrder_first_success env fuel fromModule toModuleName
                c after_ m tc Hc before
                (UnableToResolveError fromModule toModuleName
                                      "Node module not found") Hfail)
      as (log & Hlog).
    exists log. now rewrite Hnode, Hlog.
  - intros before c e tc -> Hfail Hc.
    destruct (searchInOrder_all_fail env fuel fromModule toModuleName
                c e tc Hc before
                (UnableToResolveError fromModule toModuleName
                                      "Node module not found") Hfail)
      as (log & Hlog).
    exists log. now rewrite Hnode, Hlog.
  - intros ->. rewrite Hnode. simpl. now rewrite app_nil_r.
Qed.

Lemma node_modules_search_ascending_witness :
  exists log,
    _resolveNodeDependency Fixture.twoLibs 3
      (Fixture.mkModule "/root/app/src/a.js") "lib"
    = Some (Ok (Fixture.mkModule "/root/app/node_modules/lib/index.js"),
            [] ++ log ++
            [EvFileExists "/root/app/node_modules/lib";
             EvFileExists "/root/app/node_modules/lib.js";
             EvFileExists "/root/app/node_modules/lib.json";
             EvDirExists "/root/app/node_modules/lib";
             EvFileExists "/root/app/node_modules/lib/package.json";
             EvFileExists "/root/app/node_modules/lib/index";
             EvFileExists "/root/app/node_modules/lib/index.js";
             EvGetModule "/root/app/node_modules/lib/index.js"]).
Proof.
  refine (proj1 (proj2 (proj2
            (node_modules_search_ascending Fixture.twoLibs 3
               (Fixture.mkModule "/root/app/src/a.js") "lib" "lib" []
               ["/root/app/src/node_modules/lib"; "/root/app/node_modules/lib";
                "/root/node_modules/lib"] _ _ _ _)))
            ["/root/app/src/node_modules/lib"] "/root/app/node_modules/lib"
            ["/root/node_modules/lib"] _ _ _ _ _).
  - reflexivity.
  - reflexivity.
  - reflexivity.
  - reflexivity.
  - reflexivity.
  - constructor; [|constructor]. eexists _, _. split; reflexivity.
  - reflexivity.
Defined.

(** C1, as stated, fails: with no [node_modules] directory anywhere above
    [/root/app/src/a.js], each of the three candidates fails, and the
    failure is not the 'Node module not found' error but the error of the
    last candidate [/root/node_modules/lib]. *)
Lemma search_failure_is_not_the_original_error :
  let fromModule := Fixture.mkModule "/root/app/src/a.js" in
  searchQueue 3 fromModule "lib"
  = Some ["/root/app/src/node_modules/lib"; "/root/app/node_modules/lib";
          "/root/node_modules/lib"]
  /\ Forall (fun c =>
               failsUnableToResolve
                 (orElse (_loadAsFile Fixture.noLib c fromModule "lib")
                         (_loadAsDir Fixture.noLib 3 c fromModule "lib")))
            ["/root/app/src/node_modules/lib"; "/root/app/node_modules/lib";
             "/root/node_modules/lib"]
  /\ (exists log,
         _resolveNodeDependency Fixture.noLib 3 fromModule "lib"
         = Some (Err (UnableToResolveError fromModule "lib"
                        (loadAsDir_message "/root/node_modules/lib")), log))
  /\ ~ (exists log,
           _resolveNodeDependency Fixture.noLib 3 fromModule "lib"
           = Some (Err (UnableToResolveError fromModule "lib"
                          "Node module not found"), log)).
Proof.
  intros fromModule. split; [reflexivity|]. split; [|split].
  - repeat constructor; eexists _, _; split; reflexivity.
  - eexists. vm_compute. reflexivity.
  - intros [log H]. vm_compute in H. discriminate H.
Qed.

(** ** The Node resolver *)

(** C3 (amended): in the Node resolver, a specifier that starts with [.]
    is resolved as a file-or-directory candidate relative to the
    requester's directory (in [_resolveFileOrDir] an absolute path skips
    the join and is the candidate itself), redirect applied to the
    candidate; a specifier whose first character is neither [.] nor [/]
    and whose second character is not [/] goes through redirect, and then
    through the ascending node_modules search when the redirected name is
    of that form as well, or, when the redirected name starts with [.],
    through file-or-directory resolution under the requester's own
    [node_modules/<package>] directory. *)
Theorem node_resolver_dispatch env fuel fromModule toModuleName :
  (JsString.charIs toModuleName 0 Path.dot = true ->
   _resolveNodeDependency env fuel fromModule toModuleName
   = _resolveFileOrDir env fuel fromModule toModuleName)
  /\ _resolveFileOrDir env fuel fromModule toModuleName
     = (let* realModuleName :=
          _redirectRequire env fromModule
            (if Path.isAbsolutePath toModuleName then toModuleName
             else Path.join [Path.dirname (path fromModule); toModuleName]) in
        orElse (_loadAsFile env realModuleName fromModule toModuleName)
               (_loadAsDir env fuel realModuleName fromModule toModuleName))
  /\ (JsString.charIs toModuleName 0 Path.dot = false ->
      JsString.charIs toModuleName 0 Path.slash = false ->
      JsString.charIs toModuleName 1 Path.slash = false ->
      forall realModuleName t,
        _redirectRequire env fromModule toModuleName
        = Some (Ok realModuleName, t) ->
        (JsString.charIs realModuleName 0 Path.dot = false ->
         JsString.charIs realModuleName 0 Path.slash = false ->
         JsString.charIs realModuleName 1 Path.slash = false ->
         _resolveNodeDependency env fuel fromModule toModuleName
         = after t
             match searchQueue fuel fromModule realModuleName with
             | Some queue =>
                 searchInOrder env fuel fromModule toModuleName
                   (UnableToResolveError fromModule toModuleName
                                         "Node module not found")
                   queue
             | None => None
             end)
        /\ (JsString.charIs realModuleName 0 Path.dot = true ->
            _resolveNodeDependency env fuel fromModule toModuleName
            = after t
                (_resolveFileOrDir env fuel fromModule
                   (Path.join [fromModuleDir (path fromModule);
                               realModuleName])))).
Proof.
  split; [|split].
  - intros Hdot. unfold _resolveNodeDependency, looksRelative.
    now rewrite Hdot.
  - unfold _resolveFileOrDir. cbv zeta.
    destruct (_redirectRequire env fromModule _) as [[[r|e] t]|];
      [|reflexivity|reflexivity].
    rewrite !bindW_settled. now rewrite tryResolve_orElse.
  - intros Hdot _ Hslash r t Hredirect.
    assert (Hbare : looksRelative toModuleName = false)
      by (unfold looksRelative; now rewrite Hdot, Hslash).
    unfold _resolveNodeDependency.
    rewrite Hbare, Hredirect, bindW_settled.
    split.
    + intros Hdot' _ Hslash'.
      assert (Hbare' : looksRelative r = false)
        by (unfold looksRelative; now rewrite Hdot', Hslash').
      rewrite Hbare'.
      destruct (searchQueue fuel fromModule r); [|reflexivity].
      now rewrite searchNodeModules_in_order.
    + intros Hdot'.
      assert (Hrel : looksRelative r = true)
        by (unfold looksRelative; now rewrite Hdot').
      now rewrite Hrel.
Qed.

Lemma node_resolver_dispatch_witness :
  _resolveNodeDependency Fixture.onlyJson 1 (Fixture.mkModule "/root/a.js") "./x"
  = _resolveFileOrDir Fixture.onlyJson 1 (Fixture.mkModule "/root/a.js") "./x".
Proof.
  refine (proj1 (node_resolver_dispatch Fixture.onlyJson 1
                   (Fixture.mkModule "/root/a.js") "./x") _).
  reflexivity.
Defined.

(** C3, as stated, fails: [lib] starts with neither [.] nor [/], yet from a
    module of a package that redirects [lib] to [./shim] it is resolved
    as a file under that package, with no node_modules search. *)
Lemma redirected_bare_specifier_skips_the_search :
  let fromModule := Fixture.mkModule "/root/node_modules/pkg/index.js" in
  _resolveNodeDependency Fixture.shimRedirect 3 fromModule "lib"
  = Some (Ok (Fixture.mkModule "/root/node_modules/pkg/shim.js"),
          [EvRedirect "/root/node_modules/pkg/package.json" "lib";
           EvRedirect "/root/node_modules/pkg/package.json"
                      "/root/node_modules/pkg/shim";
           EvFileExists "/root/node_modules/pkg/shim";
           EvFileExists "/root/node_modules/pkg/shim.js";
           EvGetModule "/root/node_modules/pkg/shim.js"])
  /\ _resolveNodeDependency Fixture.shimRedirect 3 fromModule "lib"
     <> spec_resolveNodeDependency Fixture.shimRedirect 3 fromModule "lib".
Proof.
  intros fromModule. split.
  - vm_compute. reflexivity.
  - intros H. vm_compute in H. discriminate H.
Qed.

(** The test [toModuleName[1] === '/'] of [_resolveNodeDependency] looks at
    the second character: the absolute specifier [/root/x.js] is taken for
    a bare one and searched for under [node_modules], although
    [_resolveFileOrDir] finds the file. *)
Lemma absolute_specifier_is_searched_in_node_modules :
  let fromModule := Fixture.mkModule "/root/a.js" in
  _resolveFileOrDir Fixture.sibling 3 fromModule "/root/x.js"
  = Some (Ok (Fixture.mkModule "/root/x.js"),
          [EvFileExists "/root/x.js"; EvGetModule "/root/x.js"])
  /\ _resolveNodeDependency Fixture.sibling 3 fromModule "/root/x.js"
     = Some (Err (UnableToResolveError fromModule "/root/x.js"
                    (loadAsDir_message "/root/node_modules/root/x.js")),
             [EvFileExists "/root/node_modules/root/x.js";
              EvFileExists "/root/node_modules/root/x.js.js";
              EvFileExists "/root/node_modules/root/x.js.json";
              EvDirExists "/root/node_modules/root/x.js"]).
Proof. intros fromModule. split; vm_compute; reflexivity. Qed.

(** ** The resolution memo *)

Lemma resolveDependency_hit env fuel fromModule toModuleName
      (cache : gmap string Module) m :
  cache !! resolutionHash env (path fromModule) toModuleName = Some m ->
  resolveDependency env fuel fromModule toModuleName cache
  = Some (Ok (Some m),
          [EvMemoRead (resolutionHash env (path fromModule) toModuleName)],
          cache).
Proof.
  intros Hhit. unfold resolveDependency, resolveDependency_lookup.
  now rewrite Hhit.
Qed.

Lemma resolveDependency_miss env fuel fromModule toModuleName
      (cache : gmap string Module) :
  cache !! resolutionHash env (path fromModule) toModuleName = None ->
  deprecatedAssetMap_resolve env fromModule toModuleName = None ->
  resolveDependency env fuel fromModule toModuleName cache
  = match resolveDependency_settle env fuel fromModule toModuleName cache with
    | Some (r, t, cache') =>
        Some (r,
              [EvMemoRead (resolutionHash env (path fromModule) toModuleName);
               EvAssetMap (path fromModule) toModuleName] ++ t,
              cache')
    | None => None
    end.
Proof.
  intros Hmiss Hasset. unfold resolveDependency, resolveDependency_lookup.
  now rewrite Hmiss, Hasset.
Qed.

Lemma resolveDependency_settle_cache env fuel fromModule toModuleName
      (cache : gmap string Module) r t cache' :
  resolveDependency_settle env fuel fromModule toModuleName cache
  = Some (r, t, cache') ->
  (exists m, r = Ok (Some m)
             /\ cache' = <[resolutionHash env (path fromModule) toModuleName := m]>
                           cache)
  \/ ((r = Ok None \/ exists e, r = Err e) /\ cache' = cache).
Proof.
  unfold resolveDependency_settle.
  destruct (resolvePipeline env fuel fromModule toModuleName)
    as [[[m|e] tp]|]; [| |discriminate].
  - intros [= <- <- <-]. left. now exists m.
  - destruct (negb (isUnableToResolve e)).
    + intros [= <- <- <-]. right. split; [right; now exists e|reflexivity].
    + destruct (shouldThrowOnUnresolvedErrors env (entryPath env) (platform env));
        intros [= <- <- <-]; right; split; try reflexivity;
        [right; now exists e|now left].
Qed.

Lemma resolveDependency_keeps_entries env fuel fromModule toModuleName
      (cache : gmap string Module) r t cache' :
  resolveDependency env fuel fromModule toModuleName cache
  = Some (r, t, cache') ->
  forall k v, cache !! k = Some v -> cache' !! k = Some v.
Proof.
  unfold resolveDependency, resolveDependency_lookup.
  destruct (cache !! resolutionHash env (path fromModule) toModuleName)
    as [hit|] eqn:Hkey.
  { now intros [= <- <- <-]. }
  destruct (deprecatedAssetMap_resolve env fromModule toModuleName).
  { now intros [= <- <- <-]. }
  destruct (resolveDependency_settle env fuel fromModule toModuleName cache)
    as [[[r1 t1] cache1]|] eqn:Hsettle; [|discriminate].
  intros [= <- <- <-] k v Hk.
  destruct (resolveDependency_settle_cache _ _ _ _ _ _ _ _ Hsettle)
    as [(m & _ & ->)|[_ ->]]; [|exact Hk].
  rewrite lookup_insert_ne; [exact Hk|].
  intros <-. congruence.
Qed.

(** C2 (amended): the first call of [resolveDependency] for a pair that
    settles through the pipeline with a module stores that module in the
    memo under [resolve(fromModule.path) + ':' + toModuleName] before it
    returns, and a later call for the pair returns that same module at
    once, reading the memo only; entries of the memo are never removed or
    replaced.  A tolerated [null] outcome is not stored. *)
Theorem resolveDependency_memoizes env fuel fromModule toModuleName
        (cache : gmap string Module) :
  let key := resolutionHash env (path fromModule) toModuleName in
  cache !! key = None ->
  deprecatedAssetMap_resolve env fromModule toModuleName = None ->
  (forall m t cache',
      resolveDependency env fuel fromModule toModuleName cache
      = Some (Ok (Some m), t, cache') ->
      cache' = <[key := m]> cache
      /\ (forall fuel',
             resolveDependency env fuel' fromModule toModuleName cache'
             = Some (Ok (Some m), [EvMemoRead key], cache'))
      /\ (forall fuel1 fuel2 from1 to1 r1 t1 cache1,
             resolveDependency env fuel1 from1 to1 cache'
             = Some (r1, t1, cache1) ->
             resolveDependency env fuel2 fromModule toModuleName cache1
             = Some (Ok (Some m), [EvMemoRead key], cache1)))
  /\ (forall t cache',
         resolveDependency env fuel fromModule toModuleName cache
         = Some (Ok None, t, cache') ->
         cache' = cache).
Proof.
  intros key Hmiss Hasset.
  rewrite (resolveDependency_miss _ _ _ _ _ Hmiss Hasset).
  destruct (resolveDependency_settle env fuel fromModule toModuleName cache)
    as [[[r1 t1] cache1]|] eqn:Hsettle; [|split; intros; discriminate].
  destruct (resolveDependency_settle_cache _ _ _ _ _ _ _ _ Hsettle)
    as [(m1 & -> & ->)|[Hr ->]].
  - split; [|intros t cache' [=]].
    intros m t cache' [= <- <- <-].
    assert (Hstored : <[key := m1]> cache !! key = Some m1)
      by apply lookup_insert_eq.
    split; [reflexivity|]. split.
    + intros fuel'. now apply resolveDependency_hit.
    + intros fuel1 fuel2 from1 to1 r1 t1' cache1 Hcall.
      apply resolveDependency_hit.
      exact (resolveDependency_keeps_entries _ _ _ _ _ _ _ _ Hcall _ _ Hstored).
  - split.
    + intros m t cache' [= -> <- <-].
      destruct Hr as [Hr|[e Hr]]; discriminate Hr.
    + now intros t cache' [= _ _ <-].
Qed.

Lemma resolveDependency_memoizes_witness :
  resolveDependency Fixture.onlyJson 0 (Fixture.mkModule "/root/a.js") "./x"
    (<["/root/a.js:./x" := Fixture.mkModule "/root/x.json"]> ∅)
  = Some (Ok (Some (Fixture.mkModule "/root/x.json")),
          [EvMemoRead "/root/a.js:./x"],
          <["/root/a.js:./x" := Fixture.mkModule "/root/x.json"]> ∅).
Proof.
  refine (proj1 (proj2 (proj1
            (resolveDependency_memoizes Fixture.onlyJson 1
               (Fixture.mkModule "/root/a.js") "./x" ∅ _ _)
            (Fixture.mkModule "/root/x.json") _ _ _)) 0).
  - reflexivity.
  - reflexivity.
  - vm_compute. reflexivity.
Defined.

(** C2, as stated, fails: with unresolved dependencies tolerated,
    [./missing] from [/root/a.js] settles with [null], the memo has no
    entry for the pair afterwards, and the next call for the pair probes
    the file index again. *)
Lemma tolerated_null_is_not_memoized :
  let fromModule := Fixture.mkModule "/root/a.js" in
  let probes :=
    [EvMemoRead "/root/a.js:./missing"; EvAssetMap "/root/a.js" "./missing";
     EvFileExists "/root/missing"; EvFileExists "/root/missing.js";
     EvFileExists "/root/missing.json"; EvDirExists "/root/missing";
     EvPolicy] in
  exists cache' : gmap string Module,
    resolveDependency Fixture.tolerant 3 fromModule "./missing" ∅
    = Some (Ok None, probes, cache')
    /\ cache' !! resolutionHash Fixture.tolerant (path fromModule) "./missing"
       = None
    /\ resolveDependency Fixture.tolerant 3 fromModule "./missing" cache'
       = Some (Ok None, probes, cache').
Proof.
  intros fromModule probes. exists ∅.
  split; [|split]; vm_compute; reflexivity.
Qed.

(** C9 (amended): [resolveDependency] reads the resolution memo first; on
    a hit the stored module is returned and the deprecated asset map is
    not asked.  On a miss the deprecated asset map is asked before the
    pipeline, and its match is returned without writing the memo and
    without running the pipeline. *)
Theorem deprecated_asset_after_memo env fuel fromModule toModuleName
        (cache : gmap string Module) asset :
  deprecatedAssetMap_resolve env fromModule toModuleName = Some asset ->
  let key := resolutionHash env (path fromModule) toModuleName in
  (cache !! key = None ->
   resolveDependency env fuel fromModule toModuleName cache
   = Some (Ok (Some asset),
           [EvMemoRead key; EvAssetMap (path fromModule) toModuleName], cache))
  /\ (forall m, cache !! key = Some m ->
      resolveDependency env fuel fromModule toModuleName cache
      = Some (Ok (Some m), [EvMemoRead key], cache)).
Proof.
  intros Hasset key. split.
  - intros Hmiss. unfold resolveDependency, resolveDependency_lookup.
    fold key. now rewrite Hmiss, Hasset.
  - intros m Hhit. now apply resolveDependency_hit.
Qed.

Lemma deprecated_asset_after_memo_witness :
  resolveDependency Fixture.legacyAsset 3 (Fixture.mkModule "/root/a.js")
                    "./icon.png" ∅
  = Some (Ok (Some (Fixture.mkModule "/legacy/icon.png")),
          [EvMemoRead "/root/a.js:./icon.png";
           EvAssetMap "/root/a.js" "./icon.png"], ∅).
Proof.
  refine (proj1 (deprecated_asset_after_memo Fixture.legacyAsset 3
                   (Fixture.mkModule "/root/a.js") "./icon.png" ∅
                   (Fixture.mkModule "/legacy/icon.png") _) _);
    reflexivity.
Defined.

(** C9, as stated, fails: the memo is read before the deprecated asset map
    is asked, and a pair the asset map matches is answered from the memo
    when the memo holds an entry under its key. *)
Lemma memo_is_read_before_the_asset_map :
  let fromModule := Fixture.mkModule "/root/a.js" in
  let stored := Fixture.mkModule "/root/icon.png" in
  deprecatedAssetMap_resolve Fixture.legacyAsset fromModule "./icon.png"
  = Some (Fixture.mkModule "/legacy/icon.png")
  /\ resolveDependency Fixture.legacyAsset 3 fromModule "./icon.png"
       (<["/root/a.js:./icon.png" := stored]> ∅)
     = Some (Ok (Some stored), [EvMemoRead "/root/a.js:./icon.png"],
             <["/root/a.js:./icon.png" := stored]> ∅)
  /\ (exists v (later : list event) (cache' : gmap string Module),
         resolveDependency Fixture.legacyAsset 3 fromModule "./icon.png" ∅
         = Some (v, EvMemoRead "/root/a.js:./icon.png" :: later, cache')
         /\ In (EvAssetMap "/root/a.js" "./icon.png") later).
Proof.
  intros fromModule stored. split; [reflexivity|]. split.
  - vm_compute. reflexivity.
  - eexists _, _, _. split; [vm_compute; reflexivity|]. now left.
Qed.

(** ** More fuel changes no settled outcome *)

Lemma agrees_refl {A} (w : option A) : agrees w w.
Proof. now intros r. Qed.

Lemma agrees_after {A} t (w w' : W A) :
  agrees w w' -> agrees (after t w) (after t w').
Proof.
  intros H r. destruct w as [x|]; [|discriminate].
  now rewrite (H x eq_refl).
Qed.

Lemma agrees_bindW {A B} (m : W A) (f g : A -> W B) :
  (forall a, agrees (f a) (g a)) -> agrees (bindW m f) (bindW m g).
Proof.
  intros H. destruct m as [[[a|e] t]|]; simpl; try apply agrees_refl.
  apply agrees_after, H.
Qed.

Lemma agrees_orElse {A} (a a' b b' : W A) :
  agrees a a' -> agrees b b' -> agrees (orElse a b) (orElse a' b').
Proof.
  intros Ha Hb r. destruct a as [x|]; [|discriminate].
  rewrite (Ha x eq_refl). destruct x as [[m|e] t]; simpl; [easy|].
  destruct (isUnableToResolve e); [|easy]. now apply agrees_after.
Qed.

Lemma loadAsDir_more_fuel env fromModule toModule :
  forall fuel fuel' p,
    fuel <= fuel' ->
    agrees (_loadAsDir env fuel p fromModule toModule)
           (_loadAsDir env fuel' p fromModule toModule).
Proof.
  induction fuel as [|fuel IH]; intros fuel' p Hle; [easy|].
  destruct fuel' as [|fuel']; [lia|]. rewrite !loadAsDir_step.
  apply agrees_bindW. intros exists_. destruct (negb exists_);
    [apply agrees_refl|].
  cbv zeta. apply agrees_bindW. intros hasManifest.
  destruct hasManifest; [|apply agrees_refl].
  apply agrees_bindW. intros main. rewrite !tryResolve_orElse.
  apply agrees_orElse; [apply agrees_refl|]. apply IH. lia.
Qed.

Lemma searchQueue_from_more_fuel fsRoot realModuleName :
  forall fuel fuel' currDir,
    fuel <= fuel' ->
    agrees (searchQueue_from fuel fsRoot currDir realModuleName)
           (searchQueue_from fuel' fsRoot currDir realModuleName).
Proof.
  induction fuel as [|fuel IH]; intros fuel' currDir Hle queue; simpl.
  - destruct (String.eqb currDir fsRoot) eqn:Heq; [|discriminate].
    intros <-. destruct fuel'; simpl; now rewrite Heq.
  - destruct fuel' as [|fuel']; [lia|]. simpl.
    destruct (String.eqb currDir fsRoot); [easy|].
    destruct (searchQueue_from fuel fsRoot (Path.dirname currDir)
                               realModuleName) as [rest|] eqn:Hrest;
      [|discriminate].
    rewrite (IH fuel' _ ltac:(lia) _ Hrest). easy.
Qed.

Lemma searchNodeModules_more_fuel env fromModule toModuleName fuel fuel' :
  fuel <= fuel' ->
  forall queue p p',
    agrees p p' ->
    agrees (fold_left (searchStep env fuel fromModule toModuleName) queue p)
           (fold_left (searchStep env fuel' fromModule toModuleName) queue p').
Proof.
  intros Hle. induction queue as [|c rest IH]; intros p p' Hp; simpl;
    [exact Hp|].
  apply IH. unfold searchStep. rewrite !tryResolve_orElse.
  apply agrees_orElse.
  - apply agrees_orElse; [exact Hp|apply agrees_refl].
  - now apply loadAsDir_more_fuel.
Qed.

Lemma resolveFileOrDir_more_fuel env fromModule toModuleName fuel fuel' :
  fuel <= fuel' ->
  agrees (_resolveFileOrDir env fuel fromModule toModuleName)
         (_resolveFileOrDir env fuel' fromModule toModuleName).
Proof.
  intros Hle. unfold _resolveFileOrDir. cbv zeta.
  apply agrees_bindW. intros r. rewrite !tryResolve_orElse.
  apply agrees_orElse; [apply agrees_refl|]. now apply loadAsDir_more_fuel.
Qed.

Lemma resolveNodeDependency_more_fuel env fromModule toModuleName fuel fuel' :
  fuel <= fuel' ->
  agrees (_resolveNodeDependency env fuel fromModule toModuleName)
         (_resolveNodeDependency env fuel' fromModule toModuleName).
Proof.
  intros Hle. unfold _resolveNodeDependency.
  destruct (looksRelative toModuleName);
    [now apply resolveFileOrDir_more_fuel|].
  apply agrees_bindW. intros r.
  destruct (looksRelative r); [now apply resolveFileOrDir_more_fuel|].
  unfold searchQueue.
  destruct (searchQueue_from fuel _ _ r) as [queue|] eqn:Hqueue; [|easy].
  rewrite (searchQueue_from_more_fuel _ _ _ _ _ Hle _ Hqueue).
  unfold searchNodeModules.
  apply searchNodeModules_more_fuel; [exact Hle|apply agrees_refl].
Qed.

Lemma hastePackageLoop_more_fuel env :
  forall fuel fuel' dep packageName,
    fuel <= fuel' ->
    agrees (hastePackageLoop env fuel dep packageName)
           (hastePackageLoop env fuel' dep packageName).
Proof.
  induction fuel as [|fuel IH]; intros fuel' dep packageName Hle; simpl.
  - destruct (JsString.truthy packageName && negb (String.eqb packageName "."))
      eqn:Hgo; [easy|].
    destruct fuel'; simpl; rewrite Hgo; apply agrees_refl.
  - destruct fuel' as [|fuel']; [lia|]. simpl.
    destruct (JsString.truthy packageName && negb (String.eqb packageName "."));
      [|apply agrees_refl].
    apply agrees_after.
    destruct (isHastePackage _); [apply agrees_refl|]. apply IH. lia.
Qed.

Lemma resolveHasteDependency_more_fuel env fromModule toModuleName fuel fuel' :
  fuel <= fuel' ->
  agrees (_resolveHasteDependency env fuel fromModule toModuleName)
         (_resolveHasteDependency env fuel' fromModule toModuleName).
Proof.
  intros Hle. unfold _resolveHasteDependency. cbv zeta.
  apply agrees_bindW. intros r. apply agrees_bindW. intros dep.
  assert (Hrest :
    agrees
      (let* found := hastePackageLoop env fuel dep r in
       match found with
       | (Some (HastePackage pkg), packageName) =>
           _tryResolve
             (fun _ => _loadAsFile env
                         (Path.join [root pkg;
                                     Path.relative (cwd env) packageName r])
                         fromModule (normalizePath toModuleName))
             (fun _ => _loadAsDir env fuel
                         (Path.join [root pkg;
                                     Path.relative (cwd env) packageName r])
                         fromModule (normalizePath toModuleName))
       | _ =>
           throw (UnableToResolveError fromModule (normalizePath toModuleName)
                    "Unable to resolve dependency")
       end)
      (let* found := hastePackageLoop env fuel' dep r in
       match found with
       | (Some (HastePackage pkg), packageName) =>
           _tryResolve
             (fun _ => _loadAsFile env
                         (Path.join [root pkg;
                                     Path.relative (cwd env) packageName r])
                         fromModule (normalizePath toModuleName))
             (fun _ => _loadAsDir env fuel'
                         (Path.join [root pkg;
                                     Path.relative (cwd env) packageName r])
                         fromModule (normalizePath toModuleName))
       | _ =>
           throw (UnableToResolveError fromModule (normalizePath toModuleName)
                    "Unable to resolve dependency")
       end)).
  { intros out Hout.
    destruct (hastePackageLoop env fuel dep r) as [x|] eqn:Hloop;
      [|discriminate].
    rewrite (hastePackageLoop_more_fuel _ _ _ _ _ Hle _ Hloop).
    revert out Hout. apply agrees_bindW. intros [[[m|pkg]|] packageName];
      try apply agrees_refl.
    rewrite !tryResolve_orElse.
    apply agrees_orElse; [apply agrees_refl|]. now apply loadAsDir_more_fuel. }
  destruct dep as [[m|pkg]|]; [apply agrees_refl|exact Hrest|exact Hrest].
Qed.

Lemma resolvePipeline_more_fuel env fromModule toModuleName fuel fuel' :
  fuel <= fuel' ->
  agrees (resolvePipeline env fuel fromModule toModuleName)
         (resolvePipeline env fuel' fromModule toModuleName).
Proof.
  intros Hle. unfold resolvePipeline.
  destruct (negb (helpers_isNodeModulesDir env (path fromModule))
            && negb (JsString.charIs toModuleName 0 Path.dot)
            && negb (JsString.charIs toModuleName 0 Path.slash));
    [|now apply resolveNodeDependency_more_fuel].
  rewrite !tryResolve_orElse. apply agrees_orElse.
  - now apply resolveHasteDependency_more_fuel.
  - now apply resolveNodeDependency_more_fuel.
Qed.

(** Once [resolveDependency] settles with some fuel, it settles with the
    same value, calls and memo with any larger fuel. *)
Lemma resolveDependency_more_fuel env fromModule toModuleName
      (cache_ : gmap string Module) fuel fuel' :
  fuel <= fuel' ->
  agrees (resolveDependency env fuel fromModule toModuleName cache_)
         (resolveDependency env fuel' fromModule toModuleName cache_).
Proof.
  intros Hle out. unfold resolveDependency.
  destruct (resolveDependency_lookup env fromModule toModuleName cache_)
    as [[v|] t]; [easy|].
  unfold resolveDependency_settle.
  destruct (resolvePipeline env fuel fromModule toModuleName) as [x|] eqn:Hx;
    [|discriminate].
  now rewrite (resolvePipeline_more_fuel _ _ _ _ _ Hle _ Hx).
Qed.

(** ** The promises of a build *)

Lemma recursiveFlatten_settledValue f :
  forall value, settledValue f = Some value ->
                recursiveFlatten value = preorder f.
Proof.
  induction f as [|m rest IH|m kids IHk rest IHr]; simpl; intros value.
  - now intros [= <-].
  - discriminate.
  - destruct (settledValue kids) as [k|]; [|discriminate].
    destruct (settledValue rest) as [r|]; [|discriminate].
    intros [= <-]. unfold recursiveFlatten in *. simpl.
    rewrite app_nil_r. now rewrite (IHk k eq_refl), (IHr r eq_refl).
Qed.


Lemma settledModules_all f :
  pendingCount f = 0 -> settledModules f = preorder f.
Proof.
  induction f as [|m rest IH|m kids IHk rest IHr]; simpl; intros Hzero.
  - reflexivity.
  - discriminate.
  - now rewrite IHk, IHr by lia.
Qed.

Lemma nthPending_lt f :
  forall i m, nthPending i f = Some m -> i < pendingCount f.
Proof.
  induction f as [|m' rest IH|m' kids IHk rest IHr]; simpl; intros i m.
  - discriminate.
  - destruct i as [|i]; [lia|]. intros H. apply IH in H. lia.
  - destruct (Nat.ltb_spec i (pendingCount kids)) as [Hlt|Hge]; [lia|].
    intros H. apply IHr in H. lia.
Qed.



Lemma preorder_settle value f :
  forall i m, nthPending i f = Some m ->
    forall x, In x (preorder (settle i value f))
              <-> In x (preorder f) \/ In x (preorder value).
Proof.
  induction f as [|m' rest IH|m' kids IHk rest IHr]; simpl; intros i m.
  - discriminate.
  - destruct i as [|i]; simpl.
    + intros _ x. rewrite in_app_iff. tauto.
    + intros H x. rewrite (IH _ _ H). tauto.
  - destruct (Nat.ltb_spec i (pendingCount kids)) as [Hlt|Hge]; simpl;
      intros H x; rewrite !in_app_iff.
    + rewrite (IHk _ _ H). tauto.
    + rewrite (IHr _ _ H). tauto.
Qed.

Lemma roots_settle value f : forall i, roots (settle i value f) = roots f.
Proof.
  induction f as [|m' rest IH|m' kids IHk rest IHr]; simpl; intros i.
  - reflexivity.
  - destruct i as [|i]; simpl; [reflexivity|]. now rewrite IH.
  - destruct (i <? pendingCount kids); simpl; [reflexivity|]. now rewrite IHr.
Qed.

Lemma childOf_settle value f :
  forall i m, nthPending i f = Some m ->
    forall p c, childOf (settle i value f) p c ->
                childOf f p c \/ (m = p /\ In c (roots value))
                \/ childOf value p c.
Proof.
  induction f as [|m' rest IH|m' kids IHk rest IHr]; simpl; intros i m.
  - discriminate.
  - destruct i as [|i]; simpl.
    + intros [= <-] p c. tauto.
    + intros H p c Hc. destruct (IH _ _ H _ _ Hc); tauto.
  - destruct (Nat.ltb_spec i (pendingCount kids)) as [Hlt|Hge]; simpl;
      intros H p c.
    + rewrite roots_settle. intros [Hc|[Hc|Hc]]; [tauto| |tauto].
      destruct (IHk _ _ H _ _ Hc); tauto.
    + intros [Hc|[Hc|Hc]]; [tauto|tauto|].
      destruct (IHr _ _ H _ _ Hc); tauto.
Qed.

Lemma settledModules_settle value f :
  forall i m, nthPending i f = Some m ->
    forall x, In x (settledModules (settle i value f)) ->
              In x (settledModules f) \/ x = m
              \/ In x (settledModules value).
Proof.
  induction f as [|m' rest IH|m' kids IHk rest IHr]; simpl; intros i m.
  - discriminate.
  - destruct i as [|i]; simpl.
    + intros [= <-] x. rewrite in_app_iff. intuition.
    + intros H x Hx. exact (IH _ _ H _ Hx).
  - destruct (Nat.ltb_spec i (pendingCount kids)) as [Hlt|Hge]; simpl;
      intros H x; rewrite !in_app_iff.
    + intros [Hx|[Hx|Hx]]; [tauto| |tauto].
      destruct (IHk _ _ H _ Hx); tauto.
    + intros [Hx|[Hx|Hx]]; [tauto|tauto|].
      destruct (IHr _ _ H _ Hx); tauto.
Qed.

Lemma preorder_parent_first f :
  forall p c, childOf f p c ->
    exists l1 l2 l3, preorder f = l1 ++ p :: l2 ++ c :: l3.
Proof.
  assert (Hroots : forall g c, In c (roots g) ->
                     exists l2 l3, preorder g = l2 ++ c :: l3).
  { induction g as [|m rest IH|m kids _ rest IH]; simpl; intros c.
    - tauto.
    - intros [<-|Hc]; [now exists [], (preorder rest)|].
      destruct (IH _ Hc) as (l2 & l3 & ->). now exists (m :: l2), l3.
    - intros [<-|Hc]; [now exists [], (preorder kids ++ preorder rest)|].
      destruct (IH _ Hc) as (l2 & l3 & ->).
      exists (m :: preorder kids ++ l2), l3. simpl.
      now rewrite <- app_assoc. }
  induction f as [|m rest IH|m kids IHk rest IHr]; simpl; intros p c.
  - tauto.
  - intros Hc. destruct (IH _ _ Hc) as (l1 & l2 & l3 & ->).
    now exists (m :: l1), l2, l3.
  - intros [[<- Hc]|[Hc|Hc]].
    + destruct (Hroots _ _ Hc) as (l2 & l3 & ->).
      exists [], l2, (l3 ++ preorder rest). simpl.
      now rewrite <- !app_assoc.
    + destruct (IHk _ _ Hc) as (l1 & l2 & l3 & ->).
      exists (m :: l1), l2, (l3 ++ preorder rest). simpl.
      now rewrite <- !app_assoc; simpl; rewrite <- !app_assoc.
    + destruct (IHr _ _ Hc) as (l1 & l2 & l3 & ->).
      exists (m :: preorder kids ++ l1), l2, l3. simpl.
      now rewrite <- !app_assoc.
Qed.

(** ** The turns of a build *)

Lemma isVisited_In v h : isVisited v h = true <-> In h v.
Proof.
  unfold isVisited. rewrite existsb_exists. split.
  - intros (x & Hx & Heq). apply String.eqb_eq in Heq. now subst.
  - intros Hh. exists h. split; [exact Hh|apply String.eqb_refl].
Qed.

Lemma isVisited_false v h : isVisited v h = false <-> ~ In h v.
Proof.
  rewrite <- isVisited_In. destruct (isVisited v h); split; congruence.
Qed.

Lemma markVisited_In v h x : In x (markVisited v h) <-> In x v \/ x = h.
Proof.
  unfold markVisited. destruct (isVisited v h) eqn:Hv.
  - apply isVisited_In in Hv. split; [tauto|]. intros [Hx| ->]; assumption.
  - rewrite in_app_iff. simpl. intuition.
Qed.

Lemma fold_markVisited_In hs :
  forall v x, In x (fold_left markVisited hs v) <-> In x v \/ In x hs.
Proof.
  induction hs as [|h hs IH]; simpl; intros v x; [tauto|].
  rewrite IH, markVisited_In. intuition.
Qed.

Lemma preorder_spawn recursive newDependencies :
  preorder (spawn recursive newDependencies) = List.map snd newDependencies.
Proof.
  induction newDependencies as [|[n d] nd IH]; simpl; [reflexivity|].
  destruct recursive; simpl; now rewrite IH.
Qed.

Lemma roots_spawn recursive newDependencies :
  roots (spawn recursive newDependencies) = List.map snd newDependencies.
Proof.
  induction newDependencies as [|[n d] nd IH]; simpl; [reflexivity|].
  destruct recursive; simpl; now rewrite IH.
Qed.

Lemma childOf_spawn recursive newDependencies p c :
  ~ childOf (spawn recursive newDependencies) p c.
Proof.
  induction newDependencies as [|[n d] nd IH]; simpl; [tauto|].
  destruct recursive; simpl; tauto.
Qed.

Lemma settledModules_spawn newDependencies :
  settledModules (spawn true newDependencies) = [].
Proof.
  induction newDependencies as [|[n d] nd IH]; simpl; [reflexivity|exact IH].
Qed.

Lemma filterPairs_kept env allMocks :
  forall pairs mocks_ filteredPairs mocks',
    filterPairs env allMocks pairs mocks_ = Ok (filteredPairs, mocks') ->
    keptPairs env allMocks pairs filteredPairs.
Proof.
  induction pairs as [|[name [modDep|]] pairs IH]; simpl;
    intros mocks_ filteredPairs mocks'.
  - intros [= <- <-]. constructor.
  - destruct (filterPairs env allMocks pairs mocks_) as [[fp m']|] eqn:Hrest;
      [|discriminate].
    intros [= <- <-]. constructor. exact (IH _ _ _ Hrest).
  - destruct (unattachedMock allMocks mocks_ name) as [file|] eqn:Hmock.
    + destruct (moduleCache_getModule env file) as [mockModule|] eqn:Hget;
        [|discriminate].
      destruct (filterPairs env allMocks pairs (<[name:=file]> mocks_))
        as [[fp m']|] eqn:Hrest; [|discriminate].
      intros [= <- <-].
      unfold unattachedMock, truthyEntry in Hmock.
      destruct allMocks as [all|]; [|discriminate].
      destruct (all !! name) as [file'|] eqn:Hall; [|discriminate].
      destruct (JsString.truthy file'); [|discriminate].
      destruct (mocks_ !! name) as [attached|];
        [destruct (JsString.truthy attached); [discriminate|]|];
        injection Hmock as ->;
        exact (kept_mocked _ _ _ _ _ _ _ _ eq_refl Hall Hget (IH _ _ _ Hrest)).
    + intros Hrest. constructor. exact (IH _ _ _ Hrest).
Qed.

Lemma filterPairs_no_mocks env :
  forall pairs mocks_,
    filterPairs env None pairs mocks_ = Ok (omitNull pairs, mocks_).
Proof.
  induction pairs as [|[name [modDep|]] pairs IH]; simpl; intros mocks_.
  - reflexivity.
  - now rewrite IH.
  - apply IH.
Qed.

Lemma resolveDependency_settle_resolvesTo env fuel mod_ name
      (cache0 cache1 : gmap string Module) v t cache' :
  fst (resolveDependency_lookup env mod_ name cache0) = InFlight ->
  resolveDependency_settle env fuel mod_ name cache1 = Some (Ok v, t, cache') ->
  resolvesTo env fuel mod_ cache0 name v.
Proof.
  intros Hlookup. unfold resolvesTo, resolveDependency_settle.
  rewrite Hlookup.
  destruct (resolvePipeline env fuel mod_ name) as [[[m|e] tp]|];
    [| |discriminate].
  - now intros [= <- _ _].
  - destruct (isUnableToResolve e); simpl; [|discriminate].
    destruct (shouldThrowOnUnresolvedErrors env (entryPath env) (platform env));
      [discriminate|].
    now intros [= <- _ _].
Qed.

Lemma settleAll_resolvesTo env fuel mod_ (cache0 : gmap string Module) :
  forall depNames (cache1 : gmap string Module) dependencies_ cache',
    settleAll env fuel mod_
      (List.map (fun name =>
                   (name, fst (resolveDependency_lookup env mod_ name cache0)))
                depNames) cache1
    = Some (Ok dependencies_, cache') ->
    Forall2 (resolvesTo env fuel mod_ cache0) depNames dependencies_.
Proof.
  induction depNames as [|name depNames IH]; simpl;
    intros cache1 dependencies_ cache'.
  - intros [= <- <-]. constructor.
  - destruct (fst (resolveDependency_lookup env mod_ name cache0))
      as [hit|] eqn:Hlookup.
    + destruct (settleAll env fuel mod_ _ cache1) as [[[vs|] c2]|] eqn:Hrest;
        [|discriminate|discriminate].
      intros [= <- <-]. constructor; [|exact (IH _ _ _ Hrest)].
      unfold resolvesTo. now rewrite Hlookup.
    + destruct (resolveDependency_settle env fuel mod_ name cache1)
        as [[[[v|] t] c1]|] eqn:Hsettle; [|discriminate|discriminate].
      destruct (settleAll env fuel mod_ _ c1) as [[[vs|] c2]|] eqn:Hrest;
        [|discriminate|discriminate].
      intros [= <- <-]. constructor; [|exact (IH _ _ _ Hrest)].
      exact (resolveDependency_settle_resolvesTo _ _ _ _ _ _ _ _ _
               Hlookup Hsettle).
Qed.

Lemma collectBody_pairs env fuel allMocks onProgress recursive mod_ st value st1 :
  collectBody env fuel allMocks onProgress recursive mod_ st
  = Some (Ok (value, st1)) ->
  exists filteredPairs,
    response st1 = setResolvedDependencyPairs (response st) mod_ filteredPairs
    /\ collectedPairs env fuel allMocks mod_ filteredPairs.
Proof.
  unfold collectBody.
  destruct (module_getDependencies env mod_) as [depNames|] eqn:Hnames;
    [|discriminate].
  destruct (resolveAll env fuel mod_ depNames (cache st))
    as [[[dependencies_|] cache']|] eqn:Hall; [|discriminate|discriminate].
  destruct (mergeMocks env allMocks _ (mocks st)) as [[pushed mocks1]|]
    eqn:Hmerge; [|discriminate].
  destruct (filterPairs env allMocks _ mocks1) as [[filteredPairs mocks2]|]
    eqn:Hfilter; [|discriminate].
  intros [= <- <-]. exists filteredPairs. split; [reflexivity|].
  exists depNames, dependencies_, pushed, (cache st).
  split; [exact Hnames|]. split; [|split].
  - exact (settleAll_resolvesTo _ _ _ _ _ _ _ _ Hall).
  - intros ->. simpl in Hmerge. now injection Hmerge as <- _.
  - exact (filterPairs_kept _ _ _ _ _ _ Hfilter).
Qed.

Lemma collectBody_ok env fuel allMocks onProgress recursive mod_ st value st1 :
  collectBody env fuel allMocks onProgress recursive mod_ st
  = Some (Ok (value, st1)) ->
  exists filteredPairs,
    let newDependencies :=
      List.filter (fun pair => negb (isVisited (visited st) (hash (snd pair))))
                  filteredPairs in
    value = spawn recursive newDependencies
    /\ visited st1
       = fold_left markVisited
           (List.map (fun pair => hash (snd pair)) newDependencies) (visited st)
    /\ response st1
       = setResolvedDependencyPairs (response st) mod_ filteredPairs
    /\ deps st1 = deps st.
Proof.
  unfold collectBody.
  destruct (module_getDependencies env mod_) as [depNames|]; [|discriminate].
  destruct (resolveAll env fuel mod_ depNames (cache st))
    as [[[dependencies_|] cache']|]; [|discriminate|discriminate].
  destruct (mergeMocks env allMocks _ (mocks st)) as [[pushed mocks1]|];
    [|discriminate].
  destruct (filterPairs env allMocks _ mocks1) as [[filteredPairs mocks2]|];
    [|discriminate].
  intros [= <- <-]. exists filteredPairs. simpl. auto.
Qed.

Lemma collectStep_invariant env fuel allMocks onProgress recursive
      base entry i st st' :
  buildInvariant env fuel allMocks recursive base entry st ->
  collectStep env fuel allMocks onProgress recursive i st = Some (Ok st') ->
  buildInvariant env fuel allMocks recursive base entry st'.
Proof.
  intros Hinv. unfold collectStep.
  destruct (nthPending i (deps st)) as [mod_|] eqn:Hnth;
    [|now intros [= <-]].
  destruct (collectBody env fuel allMocks onProgress recursive mod_ st)
    as [[[value st1]|]|] eqn:Hbody; [|discriminate|discriminate].
  intros [= <-].
  destruct (collectBody_ok _ _ _ _ _ _ _ _ _ Hbody)
    as (filteredPairs & Hvalue & Hvisited & Hresponse & _).
  destruct (collectBody_pairs _ _ _ _ _ _ _ _ _ Hbody)
    as (filteredPairs' & Hresponse' & Hcollected).
  assert (filteredPairs' = filteredPairs) as ->.
  { rewrite Hresponse in Hresponse'. unfold setResolvedDependencyPairs in *.
    injection Hresponse' as Heq. apply app_inv_head in Heq. congruence. }
  cbv zeta in Hvalue, Hvisited.
  set (newDependencies :=
         List.filter (fun pair => negb (isVisited (visited st) (hash (snd pair))))
                     filteredPairs) in *.
  destruct Hinv as (Hdeps & Hroots & Hvis & recorded & Hmap & Hprov & Hclosed
                    & Hsettled & Hchild).
  assert (Hnew : forall x, In x (visited st1)
                           <-> In x (visited st)
                               \/ In x (List.map hash (List.map snd newDependencies))).
  { intros x. rewrite Hvisited, fold_markVisited_In, map_map. tauto. }
  unfold buildInvariant, withDeps. simpl.
  split; [now rewrite Hresponse|].
  split; [now rewrite roots_settle|].
  split.
  { intros h. rewrite Hnew, Hvis, !in_map_iff. split.
    - intros [(m & Hm & Hin)|(m & Hm & Hin)]; exists m; (split; [exact Hm|]);
        apply (preorder_settle _ _ _ _ Hnth); [now left|right].
      now rewrite Hvalue, preorder_spawn.
    - intros (m & Hm & Hin). apply (preorder_settle _ _ _ _ Hnth) in Hin.
      destruct Hin as [Hin|Hin]; [left|right]; exists m; (split; [exact Hm|]);
        [exact Hin|].
      now rewrite Hvalue, preorder_spawn in Hin. }
  exists (recorded ++ [(mod_, filteredPairs)]).
  split; [rewrite Hresponse; simpl; now rewrite Hmap, app_assoc|].
  split; [|split; [|split]].
  - intros m pairs Hin. apply in_app_iff in Hin.
    destruct Hin as [Hin|[[= <- <-]|[]]]; [now apply Hprov|exact Hcollected].
  - intros m pairs n d Hin Hd. apply Hnew.
    apply in_app_iff in Hin. destruct Hin as [Hin|[[= <- <-]|[]]].
    + left. exact (Hclosed _ _ _ _ Hin Hd).
    + destruct (isVisited (visited st) (hash d)) eqn:Hv.
      * left. now apply isVisited_In.
      * right. apply in_map, in_map_iff. exists (n, d). split; [reflexivity|].
        apply filter_In. split; [exact Hd|]. simpl. now rewrite Hv.
  - intros Hrec m Hm. subst recursive.
    apply (settledModules_settle _ _ _ _ Hnth) in Hm.
    destruct Hm as [Hm|[->|Hm]].
    + destruct (Hsettled eq_refl _ Hm) as [pairs Hpairs].
      exists pairs. apply in_app_iff. now left.
    + exists filteredPairs. apply in_app_iff. right. now left.
    + now rewrite Hvalue, settledModules_spawn in Hm.
  - intros p c Hc. apply (childOf_settle _ _ _ _ Hnth) in Hc.
    destruct Hc as [Hc|[[<- Hc]|Hc]].
    + destruct (Hchild _ _ Hc) as (pairs & Hpairs & Hin).
      exists pairs. split; [|exact Hin]. apply in_app_iff. now left.
    + exists filteredPairs. split; [apply in_app_iff; right; now left|].
      rewrite Hvalue, roots_spawn in Hc. apply in_map_iff in Hc.
      destruct Hc as (pair & <- & Hpair). apply in_map.
      now apply filter_In in Hpair.
    + rewrite Hvalue in Hc. now apply childOf_spawn in Hc.
Qed.

Lemma runCollect_invariant env fuel allMocks onProgress recursive base entry :
  forall schedule st st',
    buildInvariant env fuel allMocks recursive base entry st ->
    runCollect env fuel allMocks onProgress recursive schedule st
    = Some (Ok st') ->
    buildInvariant env fuel allMocks recursive base entry st'
    /\ pendingCount (deps st') = 0.
Proof.
  induction schedule as [|i later IH]; intros st st' Hinv; simpl;
    destruct (pendingCount (deps st)) as [|n] eqn:Hcount.
  - now intros [= <-].
  - discriminate.
  - now intros [= <-].
  - destruct (collectStep env fuel allMocks onProgress recursive
                          (i mod S n) st) as [[st1|]|] eqn:Hstep;
      [|discriminate|discriminate].
    apply IH.
    exact (collectStep_invariant _ _ _ _ _ _ _ _ _ _ Hinv Hstep).
Qed.

(** ** The response of a build *)

Lemma fold_pushDependency l :
  forall r, dependencies (fold_left pushDependency l r) = dependencies r ++ l
            /\ mappings (fold_left pushDependency l r) = mappings r.
Proof.
  induction l as [|m l IH]; intros r; simpl.
  - now rewrite app_nil_r.
  - destruct (IH (pushDependency r m)) as [-> ->]. simpl.
    now rewrite <- app_assoc.
Qed.

Lemma buildInvariant_initial env fuel allMocks recursive response0 entry
      (cache0 : gmap string Module) :
  buildInvariant env fuel allMocks recursive
    (pushDependency response0 entry) entry
    {| cache := cache0; mocks := ∅; visited := [hash entry];
       response := pushDependency response0 entry;
       finishedModules := 0; totalModules := 1; progress := [];
       deps := FPending entry FNil |}.
Proof.
  unfold buildInvariant. simpl.
  split; [reflexivity|]. split; [reflexivity|]. split; [tauto|].
  exists []. rewrite app_nil_r.
  split; [reflexivity|]. split; [intros m pairs []|].
  split; [intros m pairs n d []|]. split; [intros _ m []|].
  intros p c [].
Qed.

Lemma getOrderedDependencies_ok env fuel schedule response0 mocksPattern
      onProgress recursive (cache0 : gmap string Module) r st :
  getOrderedDependencies env fuel schedule response0 mocksPattern
                         onProgress recursive cache0
  = Some (Ok (r, st)) ->
  exists entry tree,
    moduleCache_getModule env (entryPath env) = Ok entry
    /\ deps st = FSettled entry tree FNil
    /\ pendingCount tree = 0
    /\ dependencies r = dependencies response0 ++ entry :: preorder tree
    /\ mappings r = mappings (response st)
    /\ buildInvariant env fuel (_getAllMocks env mocksPattern) recursive
                      (pushDependency response0 entry) entry st.
Proof.
  unfold getOrderedDependencies.
  destruct (moduleCache_getModule env (entryPath env)) as [entry|];
    [|discriminate].
  match goal with
  | |- context [runCollect _ _ _ _ _ _ ?s] => set (st0 := s)
  end.
  destruct (runCollect env fuel (_getAllMocks env mocksPattern) onProgress
                       recursive schedule st0) as [[st1|]|] eqn:Hrun;
    [|discriminate|discriminate].
  destruct (finish st1) as [r1|] eqn:Hfinish; [|discriminate].
  intros [= <- <-].
  pose proof (buildInvariant_initial env fuel (_getAllMocks env mocksPattern)
                                     recursive response0 entry cache0)
    as Hinit.
  destruct (runCollect_invariant _ _ _ _ _ _ _ _ _ _ Hinit Hrun)
    as [Hinv Hzero].
  unfold finish in Hfinish.
  destruct (deps st1) as [|m rest|m kids rest] eqn:Hdeps; try discriminate.
  destruct rest; try discriminate.
  destruct (settledValue kids) as [value|] eqn:Hvalue; [|discriminate].
  injection Hfinish as <-.
  pose proof Hinv as (Hd & Hroots & _).
  rewrite Hdeps in Hroots. simpl in Hroots. injection Hroots as ->.
  simpl in Hzero.
  exists entry, kids. split; [reflexivity|]. split; [reflexivity|].
  split; [lia|].
  destruct (fold_pushDependency (recursiveFlatten value) (response st1))
    as [Hdependencies Hmappings].
  simpl. rewrite Hdependencies, Hmappings, Hd.
  rewrite (recursiveFlatten_settledValue _ _ Hvalue). simpl.
  rewrite <- app_assoc.
  split; [reflexivity|]. split; [reflexivity|]. exact Hinv.
Qed.

(** C7 (amended): the module sequence of the response is the entry module
    followed by the discovery tree in depth-first pre-order: a module that
    a collection newly discovers is followed by everything its own
    collection discovers, and only then by the next module discovered by
    the same collection.  Every module comes after the module whose
    collection discovered it and whose recorded pairs list it, and the
    modules of the sequence are those marked visited. *)
Theorem response_is_preorder_of_discovery
        env fuel schedule response0 mocksPattern onProgress recursive
        (cache0 : gmap string Module) r st :
  getOrderedDependencies env fuel schedule response0 mocksPattern
                         onProgress recursive cache0
  = Some (Ok (r, st)) ->
  exists entry tree,
    moduleCache_getModule env (entryPath env) = Ok entry
    /\ deps st = FSettled entry tree FNil
    /\ pendingCount tree = 0
    /\ dependencies r = dependencies response0 ++ entry :: preorder tree
    /\ (forall p c,
           childOf (deps st) p c ->
           (exists pairs, In (p, pairs) (mappings r) /\ In c (List.map snd pairs))
           /\ exists l1 l2 l3,
               entry :: preorder tree = l1 ++ p :: l2 ++ c :: l3)
    /\ (forall h, In h (visited st)
                  <-> In h (List.map hash (entry :: preorder tree))).
Proof.
  intros Hrun.
  destruct (getOrderedDependencies_ok _ _ _ _ _ _ _ _ _ _ Hrun)
    as (entry & tree & Hentry & Hdeps & Hzero & Hseq & Hmappings & Hinv).
  exists entry, tree. repeat (split; [assumption|]).
  destruct Hinv as (_ & _ & Hvisited & recorded & Hrecorded & _ & _ & _
                    & Hchild).
  split.
  - intros p c Hc. split.
    + destruct (Hchild _ _ Hc) as (pairs & Hin & Hpair).
      exists pairs. split; [|exact Hpair].
      rewrite Hmappings, Hrecorded. apply in_app_iff. now right.
    + destruct (preorder_parent_first _ _ _ Hc) as (l1 & l2 & l3 & Heq).
      exists l1, l2, l3. rewrite <- Heq, Hdeps. simpl.
      now rewrite app_nil_r.
  - intros h. rewrite Hvisited, Hdeps. simpl. now rewrite app_nil_r.
Qed.

Lemma response_is_preorder_of_discovery_witness :
  exists r st entry tree,
    getOrderedDependencies Fixture.branching 3 [0; 0; 0; 0]
      Fixture.emptyResponse None true true ∅ = Some (Ok (r, st))
    /\ moduleCache_getModule Fixture.branching (entryPath Fixture.branching)
       = Ok entry
    /\ deps st = FSettled entry tree FNil
    /\ dependencies r
       = dependencies Fixture.emptyResponse ++ entry :: preorder tree.
Proof.
  eexists _, _.
  assert (Hrun : getOrderedDependencies Fixture.branching 3 [0; 0; 0; 0]
                   Fixture.emptyResponse None true true ∅ = Some (Ok (_, _)))
    by (vm_compute; reflexivity).
  destruct (response_is_preorder_of_discovery _ _ _ _ _ _ _ _ _ _ Hrun)
    as (entry & tree & Hentry & Hdeps & _ & Hseq & _).
  exists entry, tree.
  split; [exact Hrun|]. split; [exact Hentry|]. split; [exact Hdeps|].
  exact Hseq.
Defined.

(** C7, as stated, fails: in the build of [a.js], which requires [b.js]
    and [c.js], with [b.js] requiring [d.js], [c.js] is marked visited
    before [d.js] and yet comes after it in the module sequence; this is
    so whichever of the pending collections settles first. *)
Lemma later_discovery_is_listed_earlier :
  Forall (fun schedule =>
            exists r st,
              getOrderedDependencies Fixture.branching 3 schedule
                Fixture.emptyResponse None true true ∅ = Some (Ok (r, st))
              /\ List.map path (dependencies r)
                 = ["/r/a.js"; "/r/b.js"; "/r/d.js"; "/r/c.js"]
              /\ visited st
                 = ["Module : /r/a.js"; "Module : /r/b.js";
                    "Module : /r/c.js"; "Module : /r/d.js"]
              /\ discoveredBefore st (Fixture.mkModule "/r/c.js")
                                  (Fixture.mkModule "/r/d.js") = true
              /\ listedBefore r (Fixture.mkModule "/r/c.js")
                              (Fixture.mkModule "/r/d.js") = false)
         [[0; 0; 0; 0]; [0; 0; 1; 0]; [0; 1; 0; 0]].
Proof.
  repeat constructor; eexists _, _;
    (split; [vm_compute; reflexivity|]); repeat split; reflexivity.
Qed.

(** ** Unresolved dependencies *)












Lemma runCollect_cons env fuel allMocks onProgress recursive i later st :
  runCollect env fuel allMocks onProgress recursive (i :: later) st
  = match pendingCount (deps st) with
    | O => Some (Ok st)
    | S _ =>
        match collectStep env fuel allMocks onProgress recursive
                          (i mod pendingCount (deps st)) st with
        | Some (Ok st') =>
            runCollect env fuel allMocks onProgress recursive later st'
        | other => other
        end
    end.
Proof. reflexivity. Qed.




(** ** Modules listed more than once *)

(** C8 on a failing input: [a.js] requires [b.js] under the two names
    [./b] and [./b.js].  Both pairs pass the visited filter, which is
    evaluated before either target is marked, so [b.js] is collected
    twice and listed twice, whichever of its collections settles first. *)
Theorem duplicate_target_is_listed_twice :
  Forall (fun schedule =>
            exists r st,
              getOrderedDependencies Fixture.twoNames 3 schedule
                Fixture.emptyResponse None true true ∅ = Some (Ok (r, st))
              /\ dependencies r
                 = [Fixture.mkModule "/r/a.js"; Fixture.mkModule "/r/b.js";
                    Fixture.mkModule "/r/b.js"]
              /\ visited st = ["Module : /r/a.js"; "Module : /r/b.js"]
              /\ mappings r
                 = [(Fixture.mkModule "/r/a.js",
                     [("./b", Fixture.mkModule "/r/b.js");
                      ("./b.js", Fixture.mkModule "/r/b.js")]);
                    (Fixture.mkModule "/r/b.js", []);
                    (Fixture.mkModule "/r/b.js", [])])
         [[0; 0; 0]; [0; 1; 0]].
Proof.
  repeat constructor; eexists _, _;
    (split; [vm_compute; reflexivity|]); repeat split; reflexivity.
Qed.

(** The circular graph of the specification: [a.js] and [b.js] require
    each other, and each is listed once. *)
Lemma circular_build_lists_each_once :
  exists r st,
    getOrderedDependencies Fixture.circular 3 [0; 0]
      Fixture.emptyResponse None true true ∅ = Some (Ok (r, st))
    /\ dependencies r
       = [Fixture.mkModule "/r/a.js"; Fixture.mkModule "/r/b.js"]
    /\ mappings r
       = [(Fixture.mkModule "/r/a.js", [("./b", Fixture.mkModule "/r/b.js")]);
          (Fixture.mkModule "/r/b.js", [("./a", Fixture.mkModule "/r/a.js")])].
Proof.
  eexists _, _. split; [vm_compute; reflexivity|]. split; reflexivity.
Qed.

(** ** Modules listed once *)

Lemma preorder_settle_permutation value f :
  forall i m, nthPending i f = Some m ->
              Permutation (preorder (settle i value f))
                          (preorder f ++ preorder value).
Proof.
  induction f as [|m' rest IH|m' kids IHk rest IHr]; simpl; intros i m.
  - discriminate.
  - destruct i as [|i]; simpl.
    + intros _. apply perm_skip, Permutation_app_comm.
    + intros H. apply perm_skip. exact (IH _ _ H).
  - destruct (i <? pendingCount kids); simpl; intros H; apply perm_skip.
    + rewrite (IHk _ _ H), <- !app_assoc.
      apply Permutation_app_head, Permutation_app_comm.
    + rewrite (IHr _ _ H). now rewrite app_assoc.
Qed.

Lemma NoDup_map_filter {A B} (g : A -> B) (q : A -> bool) l :
  NoDup (List.map g l) -> NoDup (List.map g (List.filter q l)).
Proof.
  induction l as [|x l IH]; simpl; intros Hnodup; [exact Hnodup|].
  apply NoDup_cons in Hnodup. destruct Hnodup as [Hnotin Hnodup].
  destruct (q x); simpl; [|now apply IH].
  apply NoDup_cons. split; [|now apply IH].
  intros Hin. apply Hnotin. apply list_elem_of_In.
  apply list_elem_of_In, in_map_iff in Hin.
  destruct Hin as (y & Hy & Hfiltered). apply in_map_iff.
  exists y. split; [exact Hy|]. now apply filter_In in Hfiltered.
Qed.

Lemma collectStep_distinct env fuel allMocks onProgress recursive
      base entry i st st' :
  buildInvariant env fuel allMocks recursive base entry st ->
  (distinctTargets (response st) ->
   NoDup (List.map hash (preorder (deps st)))) ->
  collectStep env fuel allMocks onProgress recursive i st = Some (Ok st') ->
  distinctTargets (response st') ->
  NoDup (List.map hash (preorder (deps st'))).
Proof.
  intros (_ & _ & Hvis & _) Hdistinct. unfold collectStep.
  destruct (nthPending i (deps st)) as [mod_|] eqn:Hnth;
    [|now intros [= <-]].
  destruct (collectBody env fuel allMocks onProgress recursive mod_ st)
    as [[[value st1]|]|] eqn:Hbody; [|discriminate|discriminate].
  intros [= <-] Htargets.
  destruct (collectBody_ok _ _ _ _ _ _ _ _ _ Hbody)
    as (filteredPairs & Hvalue & _ & Hresponse & _).
  cbv zeta in Hvalue. unfold withDeps in *. simpl in *.
  rewrite Hresponse in Htargets. unfold distinctTargets in Htargets.
  simpl in Htargets.
  assert (Hold : NoDup (List.map hash (preorder (deps st)))).
  { apply Hdistinct. intros m pairs Hin. apply (Htargets m).
    apply in_app_iff. now left. }
  assert (Hpairs : NoDup (List.map (fun pair => hash (snd pair)) filteredPairs)).
  { apply (Htargets mod_). apply in_app_iff. right. now left. }
  rewrite (Permutation_map hash (preorder_settle_permutation value _ _ _ Hnth)).
  rewrite map_app. apply NoDup_app. split; [exact Hold|]. split.
  - intros h Hh Hh'. apply list_elem_of_In in Hh, Hh'.
    apply Hvis in Hh. rewrite Hvalue, preorder_spawn, map_map in Hh'.
    apply in_map_iff in Hh'. destruct Hh' as (pair & <- & Hpair).
    apply filter_In in Hpair. destruct Hpair as [_ Hnot].
    apply negb_true_iff, isVisited_false in Hnot. contradiction.
  - rewrite Hvalue, preorder_spawn, map_map.
    now apply NoDup_map_filter.
Qed.

Lemma runCollect_distinct env fuel allMocks onProgress recursive base entry :
  forall schedule st st',
    buildInvariant env fuel allMocks recursive base entry st ->
    (distinctTargets (response st) ->
     NoDup (List.map hash (preorder (deps st)))) ->
    runCollect env fuel allMocks onProgress recursive schedule st
    = Some (Ok st') ->
    distinctTargets (response st') ->
    NoDup (List.map hash (preorder (deps st'))).
Proof.
  induction schedule as [|i later IH]; intros st st' Hinv Hdistinct; simpl;
    destruct (pendingCount (deps st)) as [|n] eqn:Hcount.
  - now intros [= <-].
  - discriminate.
  - now intros [= <-].
  - destruct (collectStep env fuel allMocks onProgress recursive
                          (i mod S n) st) as [[st1|]|] eqn:Hstep;
      [|discriminate|discriminate].
    apply IH.
    + exact (collectStep_invariant _ _ _ _ _ _ _ _ _ _ Hinv Hstep).
    + exact (collectStep_distinct _ _ _ _ _ _ _ _ _ _ Hinv Hdistinct Hstep).
Qed.

(** X16: when no module's recorded pairs list the same target twice,
    every module is listed once in the module sequence of the response. *)
Lemma distinct_targets_listed_once
      env fuel schedule response0 mocksPattern onProgress recursive
      (cache0 : gmap string Module) r st :
  getOrderedDependencies env fuel schedule response0 mocksPattern
                         onProgress recursive cache0
  = Some (Ok (r, st)) ->
  distinctTargets r ->
  exists listed,
    dependencies r = dependencies response0 ++ listed
    /\ NoDup (List.map hash listed).
Proof.
  intros Hrun Htargets.
  destruct (getOrderedDependencies_ok _ _ _ _ _ _ _ _ _ _ Hrun)
    as (entry & tree & Hentry & Hdeps & Hzero & Hseq & Hmappings & Hinv).
  exists (entry :: preorder tree). split; [exact Hseq|].
  revert Hrun. unfold getOrderedDependencies. rewrite Hentry.
  match goal with
  | |- context [runCollect _ _ _ _ _ _ ?s] => set (st0 := s)
  end.
  destruct (runCollect env fuel (_getAllMocks env mocksPattern) onProgress
                       recursive schedule st0) as [[st1|]|] eqn:Hrun;
    [|discriminate|discriminate].
  destruct (finish st1) as [r1|]; [|discriminate].
  intros [= _ <-].
  assert (Hpre : preorder (deps st1) = entry :: preorder tree)
    by (rewrite Hdeps; simpl; now rewrite app_nil_r).
  rewrite <- Hpre.
  apply (runCollect_distinct _ _ _ _ _ _ _ _ _ _
           (buildInvariant_initial env fuel (_getAllMocks env mocksPattern)
                                   recursive response0 entry cache0)
           ltac:(intros _; apply NoDup_singleton)
           Hrun).
  unfold distinctTargets. now rewrite <- Hmappings.
Qed.

Lemma distinct_targets_listed_once_witness :
  exists r st listed,
    getOrderedDependencies Fixture.circular 3 [0; 0]
      Fixture.emptyResponse None true true ∅ = Some (Ok (r, st))
    /\ dependencies r = dependencies Fixture.emptyResponse ++ listed
    /\ NoDup (List.map hash listed).
Proof.
  eexists _, _.
  assert (Hrun : getOrderedDependencies Fixture.circular 3 [0; 0]
                   Fixture.emptyResponse None true true ∅ = Some (Ok (_, _)))
    by (vm_compute; reflexivity).
  destruct (distinct_targets_listed_once _ _ _ _ _ _ _ _ _ _ Hrun)
    as (listed & Hlisted & Hnodup).
  - intros m pairs Hin. simpl in Hin.
    destruct Hin as [[= <- <-]|[[= <- <-]|[]]]; apply NoDup_singleton.
  - exists listed. split; [exact Hrun|]. split; [exact Hlisted|exact Hnodup].
Defined.

(** ** Every order of settling *)

Lemma runCollect_done env fuel allMocks onProgress recursive schedule st :
  pendingCount (deps st) = 0 ->
  runCollect env fuel allMocks onProgress recursive schedule st = Some (Ok st).
Proof. intros Hzero. destruct schedule; simpl; now rewrite Hzero. Qed.

Lemma runCollect_nil env fuel allMocks onProgress recursive st n :
  pendingCount (deps st) = S n ->
  runCollect env fuel allMocks onProgress recursive [] st = None.
Proof. intros Hcount. simpl. now rewrite Hcount. Qed.

Lemma runCollect_turn env fuel allMocks onProgress recursive i later st n :
  pendingCount (deps st) = S n ->
  runCollect env fuel allMocks onProgress recursive (i :: later) st
  = match collectStep env fuel allMocks onProgress recursive (i mod S n) st with
    | Some (Ok st') =>
        runCollect env fuel allMocks onProgress recursive later st'
    | other => other
    end.
Proof. intros Hcount. rewrite runCollect_cons. now rewrite Hcount. Qed.

Lemma runCollect_turn_choice env fuel allMocks onProgress recursive
      i later st n :
  pendingCount (deps st) = S n ->
  exists j,
    j < S n
    /\ runCollect env fuel allMocks onProgress recursive (i :: later) st
       = match collectStep env fuel allMocks onProgress recursive j st with
         | Some (Ok st') =>
             runCollect env fuel allMocks onProgress recursive later st'
         | other => other
         end.
Proof.
  intros Hcount. exists (i mod S n). split.
  - apply Nat.mod_upper_bound. discriminate.
  - now apply runCollect_turn.
Qed.

(** One turn of a build whose variables are known: the hypothesis [H]
    about the rest of the build is split along the pending collection
    that settles next. *)
Ltac evaluate_turn H :=
  match type of H with
  | context [runCollect ?e ?f ?a ?o ?r ?schedule ?s] =>
      let count := eval vm_compute in (pendingCount (deps s)) in
      lazymatch count with
      | O =>
          rewrite (runCollect_done e f a o r schedule s) in H
            by (vm_compute; reflexivity)
      | S ?n =>
          let i := fresh "i" in
          let later := fresh "later" in
          destruct schedule as [|i later];
          [ rewrite (runCollect_nil e f a o r s n) in H
              by (vm_compute; reflexivity);
            discriminate H
          | let j := fresh "j" in
            let Hj := fresh "Hj" in
            let E := fresh "E" in
            let Hc := fresh "Hc" in
            assert (Hc : pendingCount (deps s) = S n)
              by (vm_compute; reflexivity);
            destruct (runCollect_turn_choice e f a o r i later s n Hc)
              as (j & Hj & E);
            rewrite E in H; clear E Hc;
            repeat (destruct j as [|j];
                    [|apply (proj2 (Nat.succ_lt_mono _ _)) in Hj]);
            try (exfalso; exact (Nat.nlt_0_r _ Hj));
            clear Hj;
            match type of H with
            | context [collectStep e f a o r ?k s] =>
                let v := eval vm_compute in (collectStep e f a o r k s) in
                lazymatch v with
                | Some (Ok ?st') =>
                    let s' := fresh "s" in
                    pose (s' := st');
                    replace (collectStep e f a o r k s) with (Some (Ok s')) in H
                      by (vm_compute; reflexivity)
                | _ =>
                    replace (collectStep e f a o r k s) with v in H
                      by (vm_compute; reflexivity)
                end;
                cbv iota beta in H
            end ]
      end
  end.

(** Whatever the order in which its collections settle, the build of
    [a.js], which requires [b.js] under two names, lists [b.js] twice. *)
Lemma duplicate_target_every_schedule schedule r st :
  getOrderedDependencies Fixture.twoNames 3 schedule
    Fixture.emptyResponse None true true ∅ = Some (Ok (r, st)) ->
  dependencies r
  = [Fixture.mkModule "/r/a.js"; Fixture.mkModule "/r/b.js";
     Fixture.mkModule "/r/b.js"].
Proof.
  unfold getOrderedDependencies.
  change (moduleCache_getModule Fixture.twoNames (entryPath Fixture.twoNames))
    with (Ok (Fixture.mkModule "/r/a.js")).
  cbv iota beta zeta.
  change (_getAllMocks Fixture.twoNames None) with (@None (gmap string string)).
  intros H.
  do 2 evaluate_turn H.
  all: do 2 evaluate_turn H.
  all: vm_compute in H; injection H as <- _; reflexivity.
Qed.

(** Whatever the order in which its collections settle, the build of
    [a.js], which requires [b.js] and [c.js], with [b.js] requiring
    [d.js], lists [d.js] before [c.js] although [c.js] is marked visited
    first. *)
Lemma later_discovery_every_schedule schedule r st :
  getOrderedDependencies Fixture.branching 3 schedule
    Fixture.emptyResponse None true true ∅ = Some (Ok (r, st)) ->
  List.map path (dependencies r) = ["/r/a.js"; "/r/b.js"; "/r/d.js"; "/r/c.js"]
  /\ visited st = ["Module : /r/a.js"; "Module : /r/b.js";
                   "Module : /r/c.js"; "Module : /r/d.js"].
Proof.
  unfold getOrderedDependencies.
  change (moduleCache_getModule Fixture.branching (entryPath Fixture.branching))
    with (Ok (Fixture.mkModule "/r/a.js")).
  cbv iota beta zeta.
  change (_getAllMocks Fixture.branching None) with (@None (gmap string string)).
  intros H.
  do 2 evaluate_turn H.
  all: do 3 evaluate_turn H.
  all: vm_compute in H; injection H as <- <-; split; reflexivity.
Qed.

(** ** Builds over a finite graph settle *)







Lemma unattachedMock_registered allMocks mocks_ name file :
  unattachedMock allMocks mocks_ name = Some file ->
  exists all, allMocks = Some all /\ all !! name = Some file.
Proof.
  unfold unattachedMock, truthyEntry.
  destruct allMocks as [all|]; [|discriminate].
  destruct (all !! name) as [file'|] eqn:Hall; [|discriminate].
  destruct (JsString.truthy file'); [|discriminate].
  destruct (mocks_ !! name) as [attached|];
    [destruct (JsString.truthy attached); [discriminate|]|];
    intros [= <-]; now exists all.
Qed.

















(** ** Tolerated failures *)



(** ** The calls of a resolution *)

Lemma calls_none {A} P : calls P (@None (res A * list event)).
Proof. intros r t H. discriminate H. Qed.

Lemma calls_settled {A} P (r : res A) t : Forall P t -> calls P (Some (r, t)).
Proof. intros H r' t' [= <- <-]. exact H. Qed.

Lemma calls_after {A} P t (w : W A) :
  Forall P t -> calls P w -> calls P (after t w).
Proof.
  intros Ht Hw r t'. destruct w as [[r0 t0]|]; [|discriminate].
  intros [= <- <-]. apply Forall_app. split; [exact Ht|].
  exact (Hw _ _ eq_refl).
Qed.

Lemma calls_bindW {A B} P (m : W A) (f : A -> W B) :
  calls P m ->
  (forall a t, m = Some (Ok a, t) -> calls P (f a)) ->
  calls P (bindW m f).
Proof.
  intros Hm Hf. destruct m as [[[a|e] t]|]; simpl.
  - apply calls_after; [exact (Hm _ _ eq_refl)|]. exact (Hf _ _ eq_refl).
  - apply calls_settled. exact (Hm _ _ eq_refl).
  - apply calls_none.
Qed.

Lemma calls_bind_call {A B} P ev (a : A) (f : A -> W B) :
  P ev -> calls P (f a) -> calls P (bindW (call ev a) f).
Proof.
  intros Hev Hf. apply calls_bindW.
  - apply calls_settled. now constructor.
  - now intros a' t [= <- _].
Qed.

Lemma calls_bind_await {A B} P ev (r : res A) (f : A -> W B) :
  P ev -> (forall a, r = Ok a -> calls P (f a)) ->
  calls P (bindW (await ev r) f).
Proof.
  intros Hev Hf. apply calls_bindW.
  - apply calls_settled. now constructor.
  - intros a t [= -> _]. now apply Hf.
Qed.

Lemma calls_orElse {A} P (first second : W A) :
  calls P first -> calls P second -> calls P (orElse first second).
Proof.
  intros H1 H2. unfold orElse. destruct first as [[[a|e] t]|]; try exact H1.
  destruct (isUnableToResolve e); [|exact H1].
  apply calls_after; [exact (H1 _ _ eq_refl)|exact H2].
Qed.

Section Calls.

Context (env : Env) (P : event -> Prop).

Hypothesis P_dirExists : forall p, P (EvDirExists p).
Hypothesis P_fileExists : forall p, P (EvFileExists p).
Hypothesis P_matches : forall dir pattern, P (EvMatches dir pattern).
Hypothesis P_redirect : forall manifestPath name, P (EvRedirect manifestPath name).
Hypothesis P_getModule :
  forall file, fastfs_fileExists env file = true -> P (EvGetModule file).
Hypothesis P_getMain :
  forall manifestPath,
    fastfs_fileExists env manifestPath = true -> P (EvGetMain manifestPath).
Hypothesis P_getAssetModule :
  forall p assetFile rest,
    helpers_isAssetFile env p = true ->
    fastfs_dirExists env (Path.dirname p) = true ->
    fastfs_matches env (Path.dirname p) (assetPattern env p) = assetFile :: rest ->
    P (EvGetAssetModule assetFile).

Lemma loadAsFile_probes_calls p fromModule toModule :
  calls P (loadAsFile_probes env p fromModule toModule).
Proof.
  rewrite loadAsFile_probes_in_order.
  generalize (UnableToResolveError fromModule toModule
                ("File " +:+ p +:+ " doesnt exist")).
  induction (probeCandidates env p) as [|c rest IH]; intros notFound; simpl.
  - apply calls_settled. constructor.
  - destruct (fastfs_fileExists env c) eqn:Hc.
    + apply calls_settled. constructor; [apply P_fileExists|].
      constructor; [now apply P_getModule|constructor].
    + apply calls_after; [|apply IH]. constructor; [apply P_fileExists|constructor].
Qed.

Lemma loadAsFile_calls p fromModule toModule :
  calls P (_loadAsFile env p fromModule toModule).
Proof.
  unfold _loadAsFile.
  destruct (helpers_isAssetFile env p) eqn:Hasset;
    [|apply loadAsFile_probes_calls].
  apply calls_bind_call; [apply P_dirExists|].
  destruct (fastfs_dirExists env (Path.dirname p)) eqn:Hdir; cbn [negb].
  - apply calls_bind_call; [apply P_matches|].
    destruct (fastfs_matches env (Path.dirname p) (assetPattern env p))
      as [|assetFile rest] eqn:Hmatch; [apply loadAsFile_probes_calls|].
    destruct (JsString.truthy assetFile); [|apply loadAsFile_probes_calls].
    apply calls_settled. constructor; [|constructor].
    exact (P_getAssetModule _ _ _ Hasset Hdir Hmatch).
  - apply calls_settled. constructor.
Qed.

Lemma loadAsDir_calls fromModule toModule :
  forall fuel p, calls P (_loadAsDir env fuel p fromModule toModule).
Proof.
  induction fuel as [|fuel IH]; intros p; [apply calls_none|].
  rewrite loadAsDir_step.
  apply calls_bind_call; [apply P_dirExists|].
  destruct (fastfs_dirExists env p); cbn [negb];
    [|apply calls_settled; constructor].
  apply calls_bind_call; [apply P_fileExists|].
  destruct (fastfs_fileExists env (Path.join [p; "package.json"])) eqn:Hmanifest;
    [|apply loadAsFile_calls].
  apply calls_bind_await; [now apply P_getMain|].
  intros main _. rewrite tryResolve_orElse.
  apply calls_orElse; [apply loadAsFile_calls|apply IH].
Qed.

Lemma redirectRequire_calls fromModule modulePath :
  calls P (_redirectRequire env fromModule modulePath).
Proof.
  unfold _redirectRequire.
  destruct (module_getPackage env fromModule).
  - apply calls_settled. constructor; [apply P_redirect|constructor].
  - apply calls_settled. constructor.
Qed.

Lemma resolveFileOrDir_calls fuel fromModule toModuleName :
  calls P (_resolveFileOrDir env fuel fromModule toModuleName).
Proof.
  unfold _resolveFileOrDir. cbv zeta.
  apply calls_bindW; [apply redirectRequire_calls|].
  intros realModuleName t _. rewrite tryResolve_orElse.
  apply calls_orElse; [apply loadAsFile_calls|apply loadAsDir_calls].
Qed.

Lemma searchNodeModules_calls fuel fromModule toModuleName queue :
  calls P (searchNodeModules env fuel fromModule toModuleName queue).
Proof.
  unfold searchNodeModules.
  assert (Hfold : forall p,
    calls P p ->
    calls P (fold_left (searchStep env fuel fromModule toModuleName) queue p)).
  { induction queue as [|c rest IH]; intros p Hp; simpl; [exact Hp|].
    apply IH. unfold searchStep. rewrite !tryResolve_orElse.
    apply calls_orElse; [|apply loadAsDir_calls].
    apply calls_orElse; [exact Hp|apply loadAsFile_calls]. }
  apply Hfold, calls_settled. constructor.
Qed.

Lemma resolveNodeDependency_calls fuel fromModule toModuleName :
  calls P (_resolveNodeDependency env fuel fromModule toModuleName).
Proof.
  unfold _resolveNodeDependency.
  destruct (looksRelative toModuleName); [apply resolveFileOrDir_calls|].
  apply calls_bindW; [apply redirectRequire_calls|].
  intros realModuleName t _.
  destruct (looksRelative realModuleName); [apply resolveFileOrDir_calls|].
  destruct (searchQueue fuel fromModule realModuleName);
    [apply searchNodeModules_calls|apply calls_none].
Qed.

Hypothesis P_haste : forall name, P (EvHaste name).

Lemma hastePackageLoop_calls :
  forall fuel dep packageName,
    calls P (hastePackageLoop env fuel dep packageName).
Proof.
  induction fuel as [|fuel IH]; intros dep packageName; simpl;
    destruct (JsString.truthy packageName
              && negb (String.eqb packageName "."))%bool;
    try (apply calls_settled; constructor); try apply calls_none.
  apply calls_after; [constructor; [apply P_haste|constructor]|].
  destruct (isHastePackage _); [apply calls_settled; constructor|apply IH].
Qed.

Lemma resolveHasteDependency_calls fuel fromModule toModuleName :
  calls P (_resolveHasteDependency env fuel fromModule toModuleName).
Proof.
  unfold _resolveHasteDependency. cbv zeta.
  apply calls_bindW; [apply redirectRequire_calls|].
  intros realModuleName t _.
  apply calls_bind_call; [apply P_haste|].
  assert (Hwalk :
    calls P
      (let* found := hastePackageLoop env fuel
                       (hasteMap_getModule env realModuleName (platform env))
                       realModuleName in
       match found with
       | (Some (HastePackage pkg), packageName) =>
           _tryResolve
             (fun _ => _loadAsFile env
                         (Path.join [root pkg;
                                     Path.relative (cwd env) packageName
                                                   realModuleName])
                         fromModule (normalizePath toModuleName))
             (fun _ => _loadAsDir env fuel
                         (Path.join [root pkg;
                                     Path.relative (cwd env) packageName
                                                   realModuleName])
                         fromModule (normalizePath toModuleName))
       | _ => throw (UnableToResolveError fromModule (normalizePath toModuleName)
                       "Unable to resolve dependency")
       end)).
  { apply calls_bindW; [apply hastePackageLoop_calls|].
    intros [[[m|pkg]|] packageName] t' _; try (apply calls_settled; constructor).
    rewrite tryResolve_orElse.
    apply calls_orElse; [apply loadAsFile_calls|apply loadAsDir_calls]. }
  destruct (hasteMap_getModule env realModuleName (platform env)) as [[m|pkg]|];
    [apply calls_settled; constructor|exact Hwalk|exact Hwalk].
Qed.

Lemma resolvePipeline_calls fuel fromModule toModuleName :
  calls P (resolvePipeline env fuel fromModule toModuleName).
Proof.
  unfold resolvePipeline.
  destruct (_ && _ && _)%bool; [|apply resolveNodeDependency_calls].
  rewrite tryResolve_orElse.
  apply calls_orElse;
    [apply resolveHasteDependency_calls|apply resolveNodeDependency_calls].
Qed.

End Calls.

Lemma resolveDependency_calls env fuel fromModule toModuleName
      (cache_ : gmap string Module) (P : event -> Prop) r t cache' :
  (forall key, P (EvMemoRead key)) ->
  (forall key, P (EvMemoWrite key)) ->
  (forall fromPath name, P (EvAssetMap fromPath name)) ->
  P EvPolicy ->
  calls P (resolvePipeline env fuel fromModule toModuleName) ->
  resolveDependency env fuel fromModule toModuleName cache_
  = Some (r, t, cache') ->
  Forall P t.
Proof.
  intros Hread Hwrite Hasset Hpolicy Hpipeline.
  unfold resolveDependency, resolveDependency_lookup.
  destruct (cache_ !! resolutionHash env (path fromModule) toModuleName).
  { intros [= _ <- _]. repeat constructor. apply Hread. }
  destruct (deprecatedAssetMap_resolve env fromModule toModuleName).
  { intros [= _ <- _]. repeat constructor; [apply Hread|apply Hasset]. }
  unfold resolveDependency_settle.
  destruct (resolvePipeline env fuel fromModule toModuleName)
    as [[[m|e] tp]|] eqn:Hp; [| |discriminate];
    pose proof (Hpipeline _ _ eq_refl) as Htp.
  - intros [= _ <- _]. repeat constructor; [apply Hread|apply Hasset|].
    apply Forall_app. split; [exact Htp|]. repeat constructor. apply Hwrite.
  - destruct (negb (isUnableToResolve e)).
    + intros [= _ <- _]. repeat constructor; [apply Hread|apply Hasset|exact Htp].
    + destruct (shouldThrowOnUnresolvedErrors env (entryPath env) (platform env));
        intros [= _ <- _];
        (repeat constructor; [apply Hread|apply Hasset|]);
        (apply Forall_app; split; [exact Htp|]); now repeat constructor.
Qed.

(** X3: the Node resolver asks the file index, the module cache and the
    package of the requester, and nothing else; [resolveDependency] does
    not ask the Haste map when the requester is inside [node_modules] or
    when the specifier starts with [.] or [/]. *)
Theorem node_resolution_never_asks_the_haste_map
        env fuel fromModule toModuleName :
  (forall r t,
      _resolveNodeDependency env fuel fromModule toModuleName = Some (r, t) ->
      Forall nodeCall t)
  /\ (helpers_isNodeModulesDir env (path fromModule) = true
      \/ JsString.charIs toModuleName 0 Path.dot = true
      \/ JsString.charIs toModuleName 0 Path.slash = true ->
      forall (cache_ : gmap string Module) r t cache',
        resolveDependency env fuel fromModule toModuleName cache_
        = Some (r, t, cache') ->
        forall name, ~ In (EvHaste name) t).
Proof.
  split.
  - apply resolveNodeDependency_calls; intros; exact I.
  - intros Hnode cache_ r t cache' Hrun name Hin.
    assert (Hpipeline :
      resolvePipeline env fuel fromModule toModuleName
      = _resolveNodeDependency env fuel fromModule toModuleName).
    { unfold resolvePipeline.
      destruct Hnode as [->|[->| ->]]; simpl;
        rewrite ?andb_false_r; reflexivity. }
    pose proof (resolveDependency_calls env fuel fromModule toModuleName cache_
                  (fun ev => match ev with EvHaste _ => False | _ => True end)
                  r t cache') as Hcalls.
    rewrite List.Forall_forall in Hcalls.
    refine (Hcalls _ _ _ _ _ Hrun _ Hin); try (intros; exact I).
    rewrite Hpipeline. apply resolveNodeDependency_calls; intros; exact I.
Qed.

Lemma node_resolution_never_asks_the_haste_map_witness :
  Forall nodeCall
    [EvFileExists "/root/x"; EvFileExists "/root/x.js";
     EvFileExists "/root/x.json"; EvGetModule "/root/x.json"].
Proof.
  refine (proj1 (node_resolution_never_asks_the_haste_map
                   Fixture.onlyJson 1 (Fixture.mkModule "/root/a.js") "./x")
                (Ok (Fixture.mkModule "/root/x.json")) _ _).
  reflexivity.
Defined.

(** X4: the resolver loads through the module cache only what the file
    index answered for: [getModule] is called for a file the index holds,
    [getMain] for the package of a manifest the index holds, and
    [getAssetModule] for the first match of the asset pattern in a
    directory that exists. *)
Theorem loads_follow_positive_probes env fuel fromModule toModuleName
        (cache_ : gmap string Module) r t cache' :
  resolveDependency env fuel fromModule toModuleName cache_
  = Some (r, t, cache') ->
  Forall (probed env) t.
Proof.
  apply resolveDependency_calls; try (intros; exact I).
  apply resolvePipeline_calls; try (intros; exact I).
  - intros file Hfile. exact Hfile.
  - intros manifestPath Hfile. exact Hfile.
  - intros p assetFile rest Hasset Hdir Hmatch. now exists p, rest.
Qed.

Lemma loads_follow_positive_probes_witness :
  Forall (probed Fixture.onlyJson)
    [EvMemoRead "/root/a.js:./x"; EvAssetMap "/root/a.js" "./x";
     EvFileExists "/root/x"; EvFileExists "/root/x.js";
     EvFileExists "/root/x.json"; EvGetModule "/root/x.json";
     EvMemoWrite "/root/a.js:./x"].
Proof.
  refine (loads_follow_positive_probes Fixture.onlyJson 1
            (Fixture.mkModule "/root/a.js") "./x" ∅
            (Ok (Some (Fixture.mkModule "/root/x.json"))) _
            (<["/root/a.js:./x" := Fixture.mkModule "/root/x.json"]> ∅) _).
  reflexivity.
Defined.

(** ** Where modules and errors come from *)

Lemma yields_none {A} good bad : yields good bad (@None (res A * list event)).
Proof. intros r t H. discriminate H. Qed.

Lemma yields_after {A} good bad t (w : W A) :
  yields good bad w -> yields good bad (after t w).
Proof.
  intros Hw r t'. destruct w as [[r0 t0]|]; [|discriminate].
  intros [= <- <-]. exact (Hw _ _ eq_refl).
Qed.

Lemma yields_bindW {A B} (goodA : A -> Prop) (good : B -> Prop) bad
      (m : W A) (f : A -> W B) :
  yields goodA bad m ->
  (forall a, goodA a -> yields good bad (f a)) ->
  yields good bad (bindW m f).
Proof.
  intros Hm Hf. destruct m as [[[a|e] t]|]; simpl.
  - apply yields_after, Hf. exact (Hm _ _ eq_refl).
  - intros r t' [= <- <-]. exact (Hm _ _ eq_refl).
  - apply yields_none.
Qed.

Lemma yields_bind_call {A B} (good : B -> Prop) bad ev (a : A) (f : A -> W B) :
  yields good bad (f a) -> yields good bad (bindW (call ev a) f).
Proof. intros Hf. simpl. now apply yields_after. Qed.

Lemma yields_orElse {A} (good : A -> Prop) bad (first second : W A) :
  yields good bad first -> yields good bad second ->
  yields good bad (orElse first second).
Proof.
  intros H1 H2. unfold orElse. destruct first as [[[a|e] t]|]; try exact H1.
  destruct (isUnableToResolve e); [|exact H1]. now apply yields_after.
Qed.

Lemma yields_raised env fromModule toModule message (good : Module -> Prop) :
  yields good (resolverError env fromModule)
         (throw (UnableToResolveError fromModule toModule message)).
Proof. intros r t [= <- <-]. right. now exists toModule, message. Qed.

Lemma loadAsFile_yields env p fromModule toModule :
  yields (handedOut env) (resolverError env fromModule)
         (_loadAsFile env p fromModule toModule).
Proof.
  assert (Hprobes :
    yields (handedOut env) (resolverError env fromModule)
           (loadAsFile_probes env p fromModule toModule)).
  { rewrite loadAsFile_probes_in_order.
    assert (Hraised : resolverError env fromModule
              (UnableToResolveError fromModule toModule
                 ("File " +:+ p +:+ " doesnt exist")))
      by (right; now eexists _, _).
    revert Hraised.
    generalize (UnableToResolveError fromModule toModule
                  ("File " +:+ p +:+ " doesnt exist")).
    induction (probeCandidates env p) as [|c rest IH]; intros notFound Hraised;
      simpl.
    - now intros r t [= <- <-].
    - destruct (fastfs_fileExists env c); [|now apply yields_after, IH].
      intros r t [= <- <-].
      destruct (moduleCache_getModule env c) as [m|e] eqn:Hc.
      + left. now exists c.
      + left. left. now exists c. }
  unfold _loadAsFile.
  destruct (helpers_isAssetFile env p); [|exact Hprobes].
  apply yields_bind_call.
  destruct (fastfs_dirExists env (Path.dirname p)); cbn [negb];
    [|apply yields_raised].
  apply yields_bind_call.
  destruct (fastfs_matches env (Path.dirname p) (assetPattern env p))
    as [|assetFile rest]; [exact Hprobes|].
  destruct (JsString.truthy assetFile); [|exact Hprobes].
  intros r t [= <- <-].
  destruct (moduleCache_getAssetModule env assetFile) as [m|e] eqn:Hasset.
  - right. left. now exists assetFile.
  - left. right. left. now exists assetFile.
Qed.

Lemma loadAsDir_yields env fromModule toModule :
  forall fuel p,
    yields (handedOut env) (resolverError env fromModule)
           (_loadAsDir env fuel p fromModule toModule).
Proof.
  induction fuel as [|fuel IH]; intros p; [apply yields_none|].
  rewrite loadAsDir_step. apply yields_bind_call.
  destruct (fastfs_dirExists env p); cbn [negb]; [|apply yields_raised].
  apply yields_bind_call.
  destruct (fastfs_fileExists env (Path.join [p; "package.json"]));
    [|apply loadAsFile_yields].
  apply yields_bindW with (goodA := fun _ => True).
  - intros r t [= <- <-].
    destruct (package_getMain env _) as [main|e] eqn:Hmain; [exact I|].
    left. right. right. left. eexists. exact Hmain.
  - intros main _. rewrite tryResolve_orElse.
    apply yields_orElse; [apply loadAsFile_yields|apply IH].
Qed.

Lemma redirectRequire_yields env fromModule modulePath :
  yields (fun _ => True) (resolverError env fromModule)
         (_redirectRequire env fromModule modulePath).
Proof.
  unfold _redirectRequire.
  destruct (module_getPackage env fromModule) as [pkg|].
  - intros r t [= <- <-].
    destruct (package_redirectRequire env pkg modulePath) as [name|e] eqn:Hr;
      [exact I|].
    left. right. right. right. now exists pkg, modulePath.
  - now intros r t [= <- <-].
Qed.

Lemma resolveFileOrDir_yields env fuel fromModule toModuleName :
  yields (handedOut env) (resolverError env fromModule)
         (_resolveFileOrDir env fuel fromModule toModuleName).
Proof.
  unfold _resolveFileOrDir. cbv zeta.
  apply yields_bindW with (goodA := fun _ => True);
    [apply redirectRequire_yields|].
  intros realModuleName _. rewrite tryResolve_orElse.
  apply yields_orElse; [apply loadAsFile_yields|apply loadAsDir_yields].
Qed.

Lemma resolveNodeDependency_yields env fuel fromModule toModuleName :
  yields (handedOut env) (resolverError env fromModule)
         (_resolveNodeDependency env fuel fromModule toModuleName).
Proof.
  unfold _resolveNodeDependency.
  destruct (looksRelative toModuleName); [apply resolveFileOrDir_yields|].
  apply yields_bindW with (goodA := fun _ => True);
    [apply redirectRequire_yields|].
  intros realModuleName _.
  destruct (looksRelative realModuleName); [apply resolveFileOrDir_yields|].
  destruct (searchQueue fuel fromModule realModuleName) as [queue|];
    [|apply yields_none].
  unfold searchNodeModules.
  assert (Hfold : forall p,
    yields (handedOut env) (resolverError env fromModule) p ->
    yields (handedOut env) (resolverError env fromModule)
           (fold_left (searchStep env fuel fromModule toModuleName) queue p)).
  { induction queue as [|c rest IH]; intros p Hp; simpl; [exact Hp|].
    apply IH. unfold searchStep. rewrite !tryResolve_orElse.
    apply yields_orElse; [|apply loadAsDir_yields].
    apply yields_orElse; [exact Hp|apply loadAsFile_yields]. }
  apply Hfold, yields_raised.
Qed.

Lemma hastePackageLoop_yields env bad :
  forall fuel dep packageName,
    yields (fun _ => True) bad (hastePackageLoop env fuel dep packageName).
Proof.
  induction fuel as [|fuel IH]; intros dep packageName; simpl;
    destruct (JsString.truthy packageName
              && negb (String.eqb packageName "."))%bool;
    try (now intros r t [= <- <-]); try apply yields_none.
  apply yields_after.
  destruct (isHastePackage _); [now intros r t [= <- <-]|apply IH].
Qed.

Lemma resolveHasteDependency_yields env fuel fromModule toModuleName :
  yields (handedOut env) (resolverError env fromModule)
         (_resolveHasteDependency env fuel fromModule toModuleName).
Proof.
  unfold _resolveHasteDependency. cbv zeta.
  apply yields_bindW with (goodA := fun _ => True);
    [apply (redirectRequire_yields env fromModule)|].
  intros realModuleName _. apply yields_bind_call.
  assert (Hwalk : forall dep,
    yields (handedOut env) (resolverError env fromModule)
      (let* found := hastePackageLoop env fuel dep realModuleName in
       match found with
       | (Some (HastePackage pkg), packageName) =>
           _tryResolve
             (fun _ => _loadAsFile env
                         (Path.join [root pkg;
                                     Path.relative (cwd env) packageName
                                                   realModuleName])
                         fromModule (normalizePath toModuleName))
             (fun _ => _loadAsDir env fuel
                         (Path.join [root pkg;
                                     Path.relative (cwd env) packageName
                                                   realModuleName])
                         fromModule (normalizePath toModuleName))
       | _ => throw (UnableToResolveError fromModule (normalizePath toModuleName)
                       "Unable to resolve dependency")
       end)).
  { intros dep. apply yields_bindW with (goodA := fun _ => True).
    - apply hastePackageLoop_yields.
    - intros [[[m|pkg]|] packageName] _; try apply yields_raised.
      rewrite tryResolve_orElse.
      apply yields_orElse; [apply loadAsFile_yields|apply loadAsDir_yields]. }
  destruct (hasteMap_getModule env realModuleName (platform env))
    as [[m|pkg]|] eqn:Hdep; try apply Hwalk.
  intros r t [= <- <-]. right. right. now exists realModuleName.
Qed.

Lemma resolvePipeline_yields env fuel fromModule toModuleName :
  yields (handedOut env) (resolverError env fromModule)
         (resolvePipeline env fuel fromModule toModuleName).
Proof.
  unfold resolvePipeline.
  destruct (_ && _ && _)%bool; [|apply resolveNodeDependency_yields].
  rewrite tryResolve_orElse.
  apply yields_orElse;
    [apply resolveHasteDependency_yields|apply resolveNodeDependency_yields].
Qed.

(** X5: a module [resolveDependency] settles with was handed out by the
    module cache, stored in the Haste map, read from the memo or matched
    by the deprecated asset map; an error it rejects with was answered by
    a collaborator or is an [UnableToResolveError] raised for the
    requester. *)
Theorem resolved_modules_and_errors_have_a_source
        env fuel fromModule toModuleName (cache_ : gmap string Module)
        r t cache' :
  resolveDependency env fuel fromModule toModuleName cache_
  = Some (r, t, cache') ->
  match r with
  | Ok (Some m) =>
      handedOut env m
      \/ cache_ !! resolutionHash env (path fromModule) toModuleName = Some m
      \/ deprecatedAssetMap_resolve env fromModule toModuleName = Some m
  | Ok None =>
      shouldThrowOnUnresolvedErrors env (entryPath env) (platform env) = false
  | Err e => resolverError env fromModule e
  end.
Proof.
  unfold resolveDependency, resolveDependency_lookup.
  destruct (cache_ !! resolutionHash env (path fromModule) toModuleName)
    as [hit|].
  { intros [= <- _ _]. right. now left. }
  destruct (deprecatedAssetMap_resolve env fromModule toModuleName) as [asset|].
  { intros [= <- _ _]. right. now right. }
  unfold resolveDependency_settle.
  pose proof (resolvePipeline_yields env fuel fromModule toModuleName) as Hp.
  destruct (resolvePipeline env fuel fromModule toModuleName)
    as [[[m|e] tp]|]; [| |discriminate];
    specialize (Hp _ _ eq_refl); simpl in Hp.
  - intros [= <- _ _]. now left.
  - destruct (negb (isUnableToResolve e)); [now intros [= <- _ _]|].
    destruct (shouldThrowOnUnresolvedErrors env (entryPath env) (platform env));
      now intros [= <- _ _].
Qed.

Lemma resolved_modules_and_errors_have_a_source_witness :
  resolverError Fixture.strict (Fixture.mkModule "/root/a.js")
    (UnableToResolveError (Fixture.mkModule "/root/a.js") "./missing"
                          (loadAsDir_message "/root/missing")).
Proof.
  refine (resolved_modules_and_errors_have_a_source Fixture.strict 3
            (Fixture.mkModule "/root/a.js") "./missing" ∅
            (Err _) _ ∅ _).
  vm_compute. reflexivity.
Defined.

(** ** Paths and their components *)

Lemma split_slashFree_app a b :
  slashFree a = true ->
  Path.split (a +:+ String Path.slash b) = a :: Path.split b.
Proof.
  induction a as [|c a IH]; simpl; intros Hfree.
  - reflexivity.
  - apply andb_true_iff in Hfree. destruct Hfree as [Hc Ha].
    apply negb_true_iff in Hc. rewrite Hc, (IH Ha). reflexivity.
Qed.

Lemma split_slashFree a : slashFree a = true -> Path.split a = [a].
Proof.
  induction a as [|c a IH]; simpl; intros Hfree; [reflexivity|].
  apply andb_true_iff in Hfree. destruct Hfree as [Hc Ha].
  apply negb_true_iff in Hc. now rewrite Hc, (IH Ha).
Qed.

Lemma split_pieces s : Forall (fun x => slashFree x = true) (Path.split s).
Proof.
  induction s as [|c s IH]; simpl.
  - now repeat constructor.
  - destruct (Ascii.eqb c Path.slash) eqn:Hc; [now constructor|].
    destruct (Path.split s) as [|h rest].
    + constructor; [|constructor]. simpl. now rewrite Hc.
    + inversion IH as [|? ? Hh Hrest]; subst.
      constructor; [|exact Hrest]. simpl. now rewrite Hc, Hh.
Qed.

Lemma components_segments p :
  Forall (fun x => segment x = true) (Path.components p).
Proof.
  unfold Path.components.
  induction (split_pieces p) as [|x l Hx _ IH]; simpl; [constructor|].
  destruct (Path.nonempty x) eqn:Hne; [|exact IH].
  constructor; [|exact IH]. unfold segment. now rewrite Hne, Hx.
Qed.

Lemma unsplit_cons x rest :
  rest <> [] -> Path.unsplit (x :: rest) = x +:+ String Path.slash (Path.unsplit rest).
Proof. destruct rest; [congruence|reflexivity]. Qed.

Lemma components_unsplit segs :
  Forall (fun x => segment x = true) segs ->
  Path.components (Path.unsplit segs) = segs.
Proof.
  induction 1 as [|x rest Hx Hrest IH]; [reflexivity|].
  unfold segment in Hx. apply andb_true_iff in Hx. destruct Hx as [Hne Hfree].
  destruct rest as [|y rest].
  - unfold Path.unsplit. simpl String.concat. unfold Path.components.
    rewrite (split_slashFree _ Hfree). simpl. now rewrite Hne.
  - rewrite unsplit_cons by discriminate. unfold Path.components.
    rewrite (split_slashFree_app _ _ Hfree). simpl List.filter. rewrite Hne.
    f_equal. exact IH.
Qed.

Lemma components_absolute s :
  Path.components (String Path.slash s) = Path.components s.
Proof. reflexivity. Qed.

Lemma Forall_removelast {A} (Q : A -> Prop) l :
  Forall Q l -> Forall Q (List.removelast l).
Proof.
  induction 1 as [|x l Hx Hl IH]; simpl; [constructor|].
  destruct l; [constructor|]. now constructor.
Qed.

Lemma unsplit_nonempty x rest :
  segment x = true -> Path.unsplit (x :: rest) <> "".
Proof.
  unfold segment. intros Hx. apply andb_true_iff in Hx. destruct Hx as [Hne _].
  destruct x as [|c x]; [discriminate|].
  destruct rest; discriminate.
Qed.

Lemma unsplit_relative x rest :
  segment x = true -> Path.isAbsolutePath (Path.unsplit (x :: rest)) = false.
Proof.
  unfold segment. intros Hx. apply andb_true_iff in Hx.
  destruct Hx as [Hne Hfree].
  destruct x as [|c x]; [discriminate|]. simpl in Hfree.
  apply andb_true_iff in Hfree. destruct Hfree as [Hc _].
  apply negb_true_iff in Hc.
  destruct rest; unfold Path.isAbsolutePath, JsString.startsWithChar; simpl;
    exact Hc.
Qed.

Lemma dirname_absolute p :
  Path.isAbsolutePath p = true ->
  Path.dirname p
  = String Path.slash (Path.unsplit (List.removelast (Path.components p))).
Proof. intros Habs. unfold Path.dirname. now rewrite Habs. Qed.

Lemma dirname_relative p :
  Path.isAbsolutePath p = false ->
  Path.dirname p = "."
  \/ (Path.dirname p = Path.unsplit (List.removelast (Path.components p))
      /\ List.removelast (Path.components p) <> []).
Proof.
  intros Hrel. unfold Path.dirname. rewrite Hrel.
  destruct (List.removelast (Path.components p)) as [|x rest] eqn:Hsegs.
  - now left.
  - pose proof (Forall_removelast _ _ (components_segments p)) as Hall.
    rewrite Hsegs in Hall. inversion Hall as [|? ? Hx _]; subst.
    pose proof (unsplit_nonempty x rest Hx) as Hne.
    destruct (Path.unsplit (x :: rest)) eqn:Hdir; [congruence|].
    right. split; [reflexivity|discriminate].
Qed.

Lemma dirname_nonempty p : Path.dirname p <> "".
Proof.
  unfold Path.dirname. destruct (Path.isAbsolutePath p); [discriminate|].
  destruct (Path.unsplit _); discriminate.
Qed.

Lemma length_removelast {A} (l : list A) :
  length (List.removelast l) = length l - 1.
Proof.
  rewrite removelast_firstn_len, length_firstn. lia.
Qed.

(** ** The Haste resolver *)

Lemma hastePackageLoop_step env fuel dep packageName :
  JsString.truthy packageName = true ->
  packageName <> "." ->
  hastePackageLoop env (S fuel) dep packageName
  = after [EvHaste packageName]
      (if isHastePackage (hasteMap_getModule env packageName (platform env))
       then ret (hasteMap_getModule env packageName (platform env), packageName)
       else hastePackageLoop env fuel
              (hasteMap_getModule env packageName (platform env))
              (Path.dirname packageName)).
Proof.
  intros Htruthy Hdot. simpl. rewrite Htruthy.
  destruct (String.eqb_spec packageName ".") as [->|_]; [congruence|].
  reflexivity.
Qed.

Lemma hastePackageLoop_stop env fuel dep packageName :
  packageName = "" \/ packageName = "." ->
  hastePackageLoop env fuel dep packageName = ret (dep, packageName).
Proof. intros [->| ->]; destruct fuel; reflexivity. Qed.



Lemma hastePackageLoop_absolute env :
  (forall name, Path.isAbsolutePath name = true ->
                isHastePackage (hasteMap_getModule env name (platform env))
                = false) ->
  forall fuel dep name,
    Path.isAbsolutePath name = true ->
    hastePackageLoop env fuel dep name = None.
Proof.
  intros Hnone. induction fuel as [|fuel IH]; intros dep name Habs.
  - destruct name as [|c name]; [discriminate|].
    unfold Path.isAbsolutePath, JsString.startsWithChar in Habs. simpl in Habs.
    apply Ascii.eqb_eq in Habs. subst c. reflexivity.
  - assert (Htruthy : JsString.truthy name = true)
      by (destruct name; [discriminate|reflexivity]).
    assert (Hdot : name <> ".") by (intros ->; discriminate).
    rewrite (hastePackageLoop_step _ _ _ _ Htruthy Hdot), (Hnone _ Habs).
    rewrite IH; [reflexivity|].
    now rewrite (dirname_absolute _ Habs).
Qed.

Lemma resolveHasteDependency_walk env fuel fromModule toModuleName
      realModuleName tr :
  _redirectRequire env fromModule (normalizePath toModuleName)
  = Some (Ok realModuleName, tr) ->
  (forall m, hasteMap_getModule env realModuleName (platform env)
             <> Some (HasteModule m)) ->
  _resolveHasteDependency env fuel fromModule toModuleName
  = after (tr ++ [EvHaste realModuleName])
      (let* found := hastePackageLoop env fuel
                       (hasteMap_getModule env realModuleName (platform env))
                       realModuleName in
       match found with
       | (Some (HastePackage pkg), packageName) =>
           orElse
             (_loadAsFile env
                (Path.join [root pkg;
                            Path.relative (cwd env) packageName realModuleName])
                fromModule (normalizePath toModuleName))
             (_loadAsDir env fuel
                (Path.join [root pkg;
                            Path.relative (cwd env) packageName realModuleName])
                fromModule (normalizePath toModuleName))
       | _ => throw (UnableToResolveError fromModule (normalizePath toModuleName)
                       "Unable to resolve dependency")
       end).
Proof.
  intros Hredirect Hmodule. unfold _resolveHasteDependency. cbv zeta.
  change (match module_getPackage env fromModule with
          | Some p =>
              await (EvRedirect (manifest p) (normalizePath toModuleName))
                    (package_redirectRequire env p (normalizePath toModuleName))
          | None => ret (normalizePath toModuleName)
          end)
    with (_redirectRequire env fromModule (normalizePath toModuleName)).
  rewrite Hredirect, bindW_settled. unfold call at 1.
  rewrite bindW_settled, after_after.
  destruct (hasteMap_getModule env realModuleName (platform env))
    as [[m|pkg]|] eqn:Hdep; [now destruct (Hmodule m)| |];
    (f_equal;
     destruct (hastePackageLoop env fuel _ realModuleName)
       as [[[[[[m'|pkg']|] packageName]|e] t]|]; try reflexivity;
     rewrite !bindW_settled; now rewrite tryResolve_orElse).
Qed.

(** X6: a specifier the Haste map holds a module for resolves to that
    module, whatever the file index holds: when the requester is outside
    [node_modules] and the specifier starts with neither [.] nor [/],
    [resolveDependency] asks the package of the requester for a
    redirection and the Haste map for the name, stores the module in the
    memo and makes no call to the file index or the module cache. *)
Theorem haste_module_shadows_the_file_index
        env fuel fromModule toModuleName (cache_ : gmap string Module)
        realModuleName tr m :
  helpers_isNodeModulesDir env (path fromModule) = false ->
  JsString.charIs toModuleName 0 Path.dot = false ->
  JsString.charIs toModuleName 0 Path.slash = false ->
  cache_ !! resolutionHash env (path fromModule) toModuleName = None ->
  deprecatedAssetMap_resolve env fromModule toModuleName = None ->
  _redirectRequire env fromModule (normalizePath toModuleName)
  = Some (Ok realModuleName, tr) ->
  hasteMap_getModule env realModuleName (platform env) = Some (HasteModule m) ->
  resolveDependency env fuel fromModule toModuleName cache_
  = Some (Ok (Some m),
          [EvMemoRead (resolutionHash env (path fromModule) toModuleName);
           EvAssetMap (path fromModule) toModuleName]
          ++ tr
          ++ [EvHaste realModuleName;
              EvMemoWrite (resolutionHash env (path fromModule) toModuleName)],
          <[resolutionHash env (path fromModule) toModuleName := m]> cache_).
Proof.
  intros Hdir Hdot Hslash Hmiss Hasset Hredirect Hhaste.
  rewrite (resolveDependency_miss _ _ _ _ _ Hmiss Hasset).
  unfold resolveDependency_settle, resolvePipeline.
  rewrite Hdir, Hdot, Hslash. simpl andb. cbv iota.
  rewrite tryResolve_orElse.
  assert (Hh : _resolveHasteDependency env fuel fromModule toModuleName
               = Some (Ok m, tr ++ [EvHaste realModuleName])).
  { unfold _resolveHasteDependency. cbv zeta.
    change (match module_getPackage env fromModule with
            | Some p =>
                await (EvRedirect (manifest p) (normalizePath toModuleName))
                      (package_redirectRequire env p (normalizePath toModuleName))
            | None => ret (normalizePath toModuleName)
            end)
      with (_redirectRequire env fromModule (normalizePath toModuleName)).
    rewrite Hredirect, bindW_settled. unfold call.
    rewrite bindW_settled, Hhaste. reflexivity. }
  rewrite Hh. simpl. now rewrite <- app_assoc.
Qed.

Lemma haste_module_shadows_the_file_index_witness :
  resolveDependency Tree.haste 0 (Fixture.mkModule "/root/a.js") "React" ∅
  = Some (Ok (Some (Fixture.mkModule "/lib/React.js")),
          [EvMemoRead "/root/a.js:React"; EvAssetMap "/root/a.js" "React"]
          ++ []
          ++ [EvHaste "React"; EvMemoWrite "/root/a.js:React"],
          <["/root/a.js:React" := Fixture.mkModule "/lib/React.js"]> ∅).
Proof.
  refine (haste_module_shadows_the_file_index Tree.haste 0
            (Fixture.mkModule "/root/a.js") "React" ∅ "React" []
            (Fixture.mkModule "/lib/React.js") _ _ _ _ _ _ _);
    reflexivity.
Defined.






(** X9: on an absolute name the [while] loop of [_resolveHasteDependency]
    does not end unless it meets a package: the parent directory of [/] is
    [/], which is neither empty nor [.].  When the package of the
    requester redirects a specifier to an absolute path that the Haste
    map does not know, the Haste resolver never settles, and neither
    does [resolveDependency] for a specifier it hands to the Haste
    resolver. *)
Theorem haste_walk_never_ends_on_an_absolute_name
        env fromModule toModuleName realModuleName tr :
  _redirectRequire env fromModule (normalizePath toModuleName)
  = Some (Ok realModuleName, tr) ->
  Path.isAbsolutePath realModuleName = true ->
  (forall name, Path.isAbsolutePath name = true ->
                hasteMap_getModule env name (platform env) = None) ->
  (forall fuel, _resolveHasteDependency env fuel fromModule toModuleName = None)
  /\ (helpers_isNodeModulesDir env (path fromModule) = false ->
      JsString.charIs toModuleName 0 Path.dot = false ->
      JsString.charIs toModuleName 0 Path.slash = false ->
      forall fuel (cache_ : gmap string Module),
        cache_ !! resolutionHash env (path fromModule) toModuleName = None ->
        deprecatedAssetMap_resolve env fromModule toModuleName = None ->
        resolveDependency env fuel fromModule toModuleName cache_ = None).
Proof.
  intros Hredirect Habs Hnone.
  assert (Hhaste : forall fuel,
             _resolveHasteDependency env fuel fromModule toModuleName = None).
  { intros fuel.
    rewrite (resolveHasteDependency_walk _ _ _ _ _ _ Hredirect).
    - rewrite hastePackageLoop_absolute; [reflexivity| |exact Habs].
      intros name Hname. now rewrite (Hnone _ Hname).
    - intros m. now rewrite (Hnone _ Habs). }
  split; [exact Hhaste|].
  intros Hdir Hdot Hslash fuel cache_ Hmiss Hasset.
  rewrite (resolveDependency_miss _ _ _ _ _ Hmiss Hasset).
  unfold resolveDependency_settle, resolvePipeline.
  rewrite Hdir, Hdot, Hslash. simpl andb. cbv iota.
  now rewrite tryResolve_orElse, Hhaste.
Qed.

Lemma haste_walk_never_ends_on_an_absolute_name_witness :
  _resolveHasteDependency Tree.absoluteRedirect 100
                          (Fixture.mkModule "/root/a.js") "lib" = None
  /\ resolveDependency Tree.absoluteRedirect 100
                       (Fixture.mkModule "/root/a.js") "lib" ∅ = None.
Proof.
  destruct (haste_walk_never_ends_on_an_absolute_name Tree.absoluteRedirect
              (Fixture.mkModule "/root/a.js") "lib" "/opt/lib"
              [EvRedirect "/root/package.json" "lib"]
              eq_refl eq_refl (fun _ _ => eq_refl)) as [Hhaste Hresolve].
  split; [apply Hhaste|].
  apply Hresolve; reflexivity.
Defined.

(** ** The directory loader *)

Lemma loadAsDir_manifest env fuel dir main fromModule toModule :
  fastfs_dirExists env dir = true ->
  fastfs_fileExists env (Path.join [dir; "package.json"]) = true ->
  package_getMain env
    (moduleCache_getPackage env (Path.join [dir; "package.json"])) = Ok main ->
  _loadAsDir env (S fuel) dir fromModule toModule
  = after [EvDirExists dir; EvFileExists (Path.join [dir; "package.json"]);
           EvGetMain (Path.join [dir; "package.json"])]
      (orElse (_loadAsFile env main fromModule toModule)
              (_loadAsDir env fuel main fromModule toModule)).
Proof.
  intros Hdir Hmanifest Hmain. rewrite loadAsDir_step. unfold call, await.
  rewrite bindW_settled, Hdir. cbn [negb]. cbv iota zeta.
  rewrite bindW_settled, Hmanifest, Hmain, bindW_settled.
  now rewrite tryResolve_orElse, !after_after.
Qed.

(** X10: a directory whose manifest names the directory itself as its
    main is never resolved: [_loadAsDir] loads the main as a file, which
    fails, and then as a directory, which is the same call again, so the
    promise never settles. *)
Theorem loadAsDir_never_settles_on_a_self_referential_main
        env dir fromModule toModule e t :
  fastfs_dirExists env dir = true ->
  fastfs_fileExists env (Path.join [dir; "package.json"]) = true ->
  package_getMain env
    (moduleCache_getPackage env (Path.join [dir; "package.json"])) = Ok dir ->
  _loadAsFile env dir fromModule toModule = Some (Err e, t) ->
  isUnableToResolve e = true ->
  forall fuel, _loadAsDir env fuel dir fromModule toModule = None.
Proof.
  intros Hdir Hmanifest Hmain Hfile He.
  induction fuel as [|fuel IH]; [reflexivity|].
  rewrite (loadAsDir_manifest _ _ _ _ _ _ Hdir Hmanifest Hmain).
  unfold orElse. now rewrite Hfile, He, IH.
Qed.

Lemma loadAsDir_never_settles_on_a_self_referential_main_witness :
  _loadAsDir Tree.selfMain 100 "/root/pkg" (Fixture.mkModule "/root/a.js")
             "./pkg" = None.
Proof.
  refine (loadAsDir_never_settles_on_a_self_referential_main Tree.selfMain
            "/root/pkg" (Fixture.mkModule "/root/a.js") "./pkg"
            (UnableToResolveError (Fixture.mkModule "/root/a.js") "./pkg"
                                  "File /root/pkg doesnt exist")
            [EvFileExists "/root/pkg"; EvFileExists "/root/pkg.js";
             EvFileExists "/root/pkg.json"] _ _ _ _ _ 100);
    reflexivity.
Defined.

(** X11: a directory with a manifest is resolved through the main of the
    manifest only.  When the main is found neither as a file nor as a
    directory, [_loadAsDir] fails with the error of the directory loader
    for the main path, and the index file of the directory itself is not
    probed. *)
Theorem loadAsDir_with_a_manifest_never_tries_the_index
        env fuel dir main fromModule toModule e t :
  fastfs_dirExists env dir = true ->
  fastfs_fileExists env (Path.join [dir; "package.json"]) = true ->
  package_getMain env
    (moduleCache_getPackage env (Path.join [dir; "package.json"])) = Ok main ->
  _loadAsFile env main fromModule toModule = Some (Err e, t) ->
  isUnableToResolve e = true ->
  fastfs_dirExists env main = false ->
  _loadAsDir env (S (S fuel)) dir fromModule toModule
  = Some (Err (UnableToResolveError fromModule toModule
                 (loadAsDir_message main)),
          [EvDirExists dir; EvFileExists (Path.join [dir; "package.json"]);
           EvGetMain (Path.join [dir; "package.json"])]
          ++ t ++ [EvDirExists main]).
Proof.
  intros Hdir Hmanifest Hmain Hfile He Hnodir.
  rewrite (loadAsDir_manifest _ _ _ _ _ _ Hdir Hmanifest Hmain).
  unfold orElse. rewrite Hfile, He, loadAsDir_step. unfold call.
  rewrite bindW_settled, Hnodir. cbn [negb]. cbv iota. unfold throw.
  simpl after. now rewrite ?app_nil_r, <- ?app_assoc.
Qed.

Lemma loadAsDir_with_a_manifest_never_tries_the_index_witness :
  fastfs_fileExists Tree.missingMain "/root/pkg/index.js" = true
  /\ _loadAsDir Tree.missingMain 2 "/root/pkg" (Fixture.mkModule "/root/a.js")
                "./pkg"
     = Some (Err (UnableToResolveError (Fixture.mkModule "/root/a.js") "./pkg"
                    (loadAsDir_message "/root/pkg/lib/main")),
             [EvDirExists "/root/pkg"; EvFileExists "/root/pkg/package.json";
              EvGetMain "/root/pkg/package.json"]
             ++ [EvFileExists "/root/pkg/lib/main";
                 EvFileExists "/root/pkg/lib/main.js";
                 EvFileExists "/root/pkg/lib/main.json"]
             ++ [EvDirExists "/root/pkg/lib/main"]).
Proof.
  split; [reflexivity|].
  refine (loadAsDir_with_a_manifest_never_tries_the_index Tree.missingMain 0
            "/root/pkg" "/root/pkg/lib/main" (Fixture.mkModule "/root/a.js")
            "./pkg"
            (UnableToResolveError (Fixture.mkModule "/root/a.js") "./pkg"
                                  "File /root/pkg/lib/main doesnt exist")
            _ _ _ _ _ _ _);
    reflexivity.
Defined.

(** ** Asset paths *)

(** X12: on an asset path, [_loadAsFile] fails with 'Directory ... doesn't
    exist' when the directory of the path is not in the file index,
    without matching any file; when files of the directory match the
    asset pattern, the first of them is loaded with [getAssetModule] and
    no file is probed.  The 'Directory ... doesn't exist' failure does not
    reach the caller of [_resolveFileOrDir]: the path is then loaded as
    a directory, and the failure of the directory loader is the
    outcome. *)
Theorem loadAsFile_takes_the_first_asset_match env p fromModule toModule :
  helpers_isAssetFile env p = true ->
  (fastfs_dirExists env (Path.dirname p) = false ->
   _loadAsFile env p fromModule toModule
   = Some (Err (UnableToResolveError fromModule toModule
                  ("Directory " +:+ Path.dirname p +:+ " doesn't exist")),
           [EvDirExists (Path.dirname p)]))
  /\ (forall assetFile others,
         fastfs_dirExists env (Path.dirname p) = true ->
         fastfs_matches env (Path.dirname p) (assetPattern env p)
         = assetFile :: others ->
         JsString.truthy assetFile = true ->
         _loadAsFile env p fromModule toModule
         = Some (moduleCache_getAssetModule env assetFile,
                 [EvDirExists (Path.dirname p);
                  EvMatches (Path.dirname p) (assetPattern env p);
                  EvGetAssetModule assetFile]))
  /\ (forall fuel,
         module_getPackage env fromModule = None ->
         Path.isAbsolutePath p = true ->
         fastfs_dirExists env (Path.dirname p) = false ->
         fastfs_dirExists env p = false ->
         _resolveFileOrDir env (S fuel) fromModule p
         = Some (Err (UnableToResolveError fromModule p (loadAsDir_message p)),
                 [EvDirExists (Path.dirname p); EvDirExists p])).
Proof.
  intros Hasset.
  assert (Hmissing : forall toModule',
    fastfs_dirExists env (Path.dirname p) = false ->
    _loadAsFile env p fromModule toModule'
    = Some (Err (UnableToResolveError fromModule toModule'
                   ("Directory " +:+ Path.dirname p +:+ " doesn't exist")),
            [EvDirExists (Path.dirname p)])).
  { intros toModule' Hdir. unfold _loadAsFile. rewrite Hasset. unfold call.
    now rewrite bindW_settled, Hdir. }
  split; [apply Hmissing|]. split.
  - intros assetFile others Hdir Hmatch Htruthy.
    unfold _loadAsFile. rewrite Hasset. unfold call.
    rewrite bindW_settled, Hdir. cbn [negb]. cbv iota.
    rewrite bindW_settled, Hmatch, Htruthy. reflexivity.
  - intros fuel Hpkg Habs Hdir Hnodir.
    unfold _resolveFileOrDir, _redirectRequire. rewrite Habs, Hpkg.
    cbv zeta. unfold ret. rewrite bindW_settled, after_nil.
    rewrite tryResolve_orElse, (Hmissing p Hdir). unfold orElse.
    change (isUnableToResolve
              (UnableToResolveError fromModule p
                 ("Directory " +:+ Path.dirname p +:+ " doesn't exist")))
      with true.
    cbv iota. rewrite loadAsDir_step. unfold call.
    rewrite bindW_settled, Hnodir. reflexivity.
Qed.

Lemma loadAsFile_takes_the_first_asset_match_witness :
  _loadAsFile Tree.scaledAsset "/root/icon.png" (Fixture.mkModule "/root/a.js")
              "./icon.png"
  = Some (Ok (Fixture.mkModule "/root/icon@2x.png"),
          [EvDirExists "/root"; EvMatches "/root" "^icon(@[\d\.]+x)?\.png";
           EvGetAssetModule "/root/icon@2x.png"]).
Proof.
  refine (proj1 (proj2 (loadAsFile_takes_the_first_asset_match Tree.scaledAsset
                          "/root/icon.png" (Fixture.mkModule "/root/a.js")
                          "./icon.png" _))
                "/root/icon@2x.png" ["/root/icon@3x.png"] _ _ _);
    reflexivity.
Defined.

(** ** What a build keeps from turn to turn *)

Lemma collectBody_inversion env fuel allMocks onProgress recursive
      mod_ st value st1 :
  collectBody env fuel allMocks onProgress recursive mod_ st
  = Some (Ok (value, st1)) ->
  exists depNames dependencies_ cache' pushed mocks1 filteredPairs mocks2,
    module_getDependencies env mod_ = Ok depNames
    /\ resolveAll env fuel mod_ depNames (cache st)
       = Some (Ok dependencies_, cache')
    /\ mergeMocks env allMocks
         match allMocks with
         | Some _ =>
             module_getName env mod_ ::
             match module_getPackage env mod_ with
             | Some pkg => [package_getName env pkg]
             | None => []
             end
         | None => []
         end (mocks st) = Ok (pushed, mocks1)
    /\ filterPairs env allMocks (combine depNames dependencies_ ++ pushed)
                   mocks1 = Ok (filteredPairs, mocks2)
    /\ let newDependencies :=
         List.filter
           (fun pair => negb (isVisited (visited st) (hash (snd pair))))
           filteredPairs in
       value = spawn recursive newDependencies
       /\ cache st1 = cache'
       /\ mocks st1 = mocks2
       /\ response st1
          = setResolvedDependencyPairs (response st) mod_ filteredPairs
       /\ finishedModules st1
          = (if onProgress then finishedModules st + 1 else finishedModules st)
       /\ totalModules st1
          = (if onProgress then totalModules st + length newDependencies
             else totalModules st)
       /\ progress st1
          = (if onProgress
             then progress st
                  ++ [(finishedModules st + 1,
                       totalModules st + length newDependencies)]
             else progress st).
Proof.
  unfold collectBody.
  destruct (module_getDependencies env mod_) as [depNames|] eqn:Hnames;
    [|discriminate].
  destruct (resolveAll env fuel mod_ depNames (cache st))
    as [[[dependencies_|] cache']|] eqn:Hall; [|discriminate|discriminate].
  destruct (mergeMocks env allMocks _ (mocks st)) as [[pushed mocks1]|]
    eqn:Hmerge; [|discriminate].
  destruct (filterPairs env allMocks _ mocks1) as [[filteredPairs mocks2]|]
    eqn:Hfilter; [|discriminate].
  intros [= <- <-].
  exists depNames, dependencies_, cache', pushed, mocks1, filteredPairs, mocks2.
  do 4 (split; [first [reflexivity|assumption]|]).
  destruct onProgress; simpl; repeat split; reflexivity.
Qed.

Lemma collectStep_inversion env fuel allMocks onProgress recursive i st st' :
  collectStep env fuel allMocks onProgress recursive i st = Some (Ok st') ->
  (nthPending i (deps st) = None /\ st' = st)
  \/ exists mod_ value st1,
      nthPending i (deps st) = Some mod_
      /\ collectBody env fuel allMocks onProgress recursive mod_ st
         = Some (Ok (value, st1))
      /\ st' = withDeps st1 (settle i value (deps st)).
Proof.
  unfold collectStep.
  destruct (nthPending i (deps st)) as [mod_|]; [|intros [= <-]; now left].
  destruct (collectBody env fuel allMocks onProgress recursive mod_ st)
    as [[[value st1]|]|] eqn:Hbody; [|discriminate|discriminate].
  intros [= <-]. right. now exists mod_, value, st1.
Qed.

Lemma runCollect_preserves env fuel allMocks onProgress recursive
      (kept : collector -> Prop) :
  (forall i st st',
      kept st ->
      collectStep env fuel allMocks onProgress recursive i st = Some (Ok st') ->
      kept st') ->
  forall schedule st st',
    kept st ->
    runCollect env fuel allMocks onProgress recursive schedule st
    = Some (Ok st') ->
    kept st' /\ pendingCount (deps st') = 0.
Proof.
  intros Hstep.
  induction schedule as [|i later IH]; intros st st' Hkept; simpl;
    destruct (pendingCount (deps st)) as [|n] eqn:Hcount.
  - now intros [= <-].
  - discriminate.
  - now intros [= <-].
  - destruct (collectStep env fuel allMocks onProgress recursive
                          (i mod S n) st) as [[st1|]|] eqn:Hturn;
      [|discriminate|discriminate].
    apply IH. exact (Hstep _ _ _ Hkept Hturn).
Qed.

Lemma getOrderedDependencies_inversion
      env fuel schedule response0 mocksPattern onProgress recursive
      (cache0 : gmap string Module) r st :
  getOrderedDependencies env fuel schedule response0 mocksPattern
                         onProgress recursive cache0
  = Some (Ok (r, st)) ->
  exists entry,
    moduleCache_getModule env (entryPath env) = Ok entry
    /\ runCollect env fuel (_getAllMocks env mocksPattern) onProgress recursive
         schedule
         {| cache := cache0; mocks := ∅; visited := [hash entry];
            response := pushDependency response0 entry;
            finishedModules := 0; totalModules := 1; progress := [];
            deps := FPending entry FNil |}
       = Some (Ok st)
    /\ finish st = Some r.
Proof.
  unfold getOrderedDependencies.
  destruct (moduleCache_getModule env (entryPath env)) as [entry|];
    [|discriminate].
  match goal with
  | |- context [runCollect _ _ _ _ _ _ ?s] => set (st0 := s)
  end.
  destruct (runCollect env fuel (_getAllMocks env mocksPattern) onProgress
                       recursive schedule st0) as [[st1|]|] eqn:Hrun;
    [|discriminate|discriminate].
  destruct (finish st1) as [r1|] eqn:Hfinish; [|discriminate].
  intros [= <- <-]. now exists entry.
Qed.

Lemma finish_inversion st r :
  finish st = Some r ->
  exists entry tree,
    deps st = FSettled entry tree FNil
    /\ pendingCount tree = 0
    /\ dependencies r = dependencies (response st) ++ preorder tree
    /\ mappings r = mappings (response st)
    /\ responseMocks r = Some (mocks st).
Proof.
  unfold finish.
  destruct (deps st) as [|m rest|m kids rest]; try discriminate.
  destruct rest; try discriminate.
  destruct (settledValue kids) as [value|] eqn:Hvalue; [|discriminate].
  intros [= <-]. exists m, kids. split; [reflexivity|].
  destruct (fold_pushDependency (recursiveFlatten value) (response st))
    as [Hd Hm].
  simpl. rewrite Hd, Hm, (recursiveFlatten_settledValue _ _ Hvalue).
  repeat split.
  clear -Hvalue. revert value Hvalue.
  induction kids as [|m' rest IH|m' kids IHk rest IHr]; simpl; intros value.
  - reflexivity.
  - discriminate.
  - destruct (settledValue kids) as [k|]; [|discriminate].
    destruct (settledValue rest) as [r|]; [|discriminate].
    intros _. now rewrite (IHk k eq_refl), (IHr r eq_refl).
Qed.

(** ** Builds that are not recursive *)

Lemma pendingCount_spawn_flat newDependencies :
  pendingCount (spawn false newDependencies) = 0.
Proof.
  induction newDependencies as [|[n d] nd IH]; simpl; [reflexivity|exact IH].
Qed.

Lemma runCollect_flat env fuel allMocks onProgress i later st0 entry :
  deps st0 = FPending entry FNil ->
  runCollect env fuel allMocks onProgress false (i :: later) st0
  = match collectBody env fuel allMocks onProgress false entry st0 with
    | Some (Ok (value, st1)) =>
        Some (Ok (withDeps st1 (FSettled entry value FNil)))
    | Some (Err e) => Some (Err e)
    | None => None
    end.
Proof.
  intros Hdeps. rewrite runCollect_cons, Hdeps. simpl pendingCount.
  rewrite Nat.mod_1_r. unfold collectStep. rewrite Hdeps. cbn [nthPending].
  destruct (collectBody env fuel allMocks onProgress false entry st0)
    as [[[value st1]|]|] eqn:Hbody; try reflexivity.
  cbn [settle]. apply runCollect_done.
  destruct (collectBody_inversion _ _ _ _ _ _ _ _ _ Hbody)
    as (? & ? & ? & ? & ? & ? & ? & _ & _ & _ & _ & -> & _).
  simpl. now rewrite pendingCount_spawn_flat.
Qed.

(** X13: with [recursive] false, the build takes one turn whatever the
    order of settling: only the entry module is collected.  Its
    resolved pairs are the only ones recorded, and the module sequence is
    the entry followed by the targets of these pairs, in their order,
    other than the entry itself. *)
Theorem flat_build_collects_the_entry_only
        env fuel response0 mocksPattern onProgress
        (cache0 : gmap string Module) :
  (forall i later,
      getOrderedDependencies env fuel (i :: later) response0 mocksPattern
                             onProgress false cache0
      = getOrderedDependencies env fuel [0] response0 mocksPattern
                               onProgress false cache0)
  /\ (forall r st,
         getOrderedDependencies env fuel [0] response0 mocksPattern
                                onProgress false cache0
         = Some (Ok (r, st)) ->
         exists entry pairs,
           moduleCache_getModule env (entryPath env) = Ok entry
           /\ collectedPairs env fuel (_getAllMocks env mocksPattern)
                             entry pairs
           /\ mappings r = mappings response0 ++ [(entry, pairs)]
           /\ dependencies r
              = dependencies response0
                ++ entry
                   :: List.map snd
                        (List.filter
                           (fun pair =>
                              negb (String.eqb (hash (snd pair)) (hash entry)))
                           pairs)).
Proof.
  split.
  - intros i later. unfold getOrderedDependencies.
    destruct (moduleCache_getModule env (entryPath env)) as [entry|];
      [|reflexivity].
    match goal with
    | |- context [runCollect _ _ _ _ _ _ ?s] => set (st0 := s)
    end.
    now rewrite (runCollect_flat _ _ _ _ i later st0 entry eq_refl),
                (runCollect_flat _ _ _ _ 0 [] st0 entry eq_refl).
  - intros r st Hrun.
    destruct (getOrderedDependencies_inversion _ _ _ _ _ _ _ _ _ _ Hrun)
      as (entry & Hentry & Hcollect & Hfinish).
    match type of Hcollect with
    | context [runCollect _ _ _ _ _ _ ?s] => set (st0 := s) in *
    end.
    rewrite (runCollect_flat _ _ _ _ 0 [] st0 entry eq_refl) in Hcollect.
    destruct (collectBody env fuel (_getAllMocks env mocksPattern) onProgress
                          false entry st0) as [[[value st1]|]|] eqn:Hbody;
      [|discriminate|discriminate].
    injection Hcollect as <-.
    destruct (collectBody_pairs _ _ _ _ _ _ _ _ _ Hbody)
      as (pairs & Hresponse & Hcollected).
    destruct (collectBody_ok _ _ _ _ _ _ _ _ _ Hbody)
      as (pairs' & Hvalue & _ & Hresponse' & _).
    assert (pairs' = pairs) as ->.
    { rewrite Hresponse in Hresponse'.
      unfold setResolvedDependencyPairs in Hresponse'.
      injection Hresponse' as Heq. apply app_inv_head in Heq.
      now injection Heq. }
    cbv zeta in Hvalue.
    destruct (finish_inversion _ _ Hfinish)
      as (entry' & tree & Hdeps & _ & Hd & Hm & _).
    simpl in Hdeps. injection Hdeps as <- <-.
    exists entry, pairs. split; [exact Hentry|]. split; [exact Hcollected|].
    simpl in Hd, Hm. rewrite Hresponse in Hd, Hm. simpl in Hd, Hm.
    split; [exact Hm|].
    rewrite Hd, Hvalue, preorder_spawn, <- app_assoc. simpl.
    do 3 f_equal. apply List.filter_ext. intros pair. simpl.
    now rewrite orb_false_r.
Qed.

Lemma flat_build_collects_the_entry_only_witness :
  exists r st entry pairs,
    getOrderedDependencies Fixture.branching 3 [0] Fixture.emptyResponse None
                           false false ∅ = Some (Ok (r, st))
    /\ moduleCache_getModule Fixture.branching (entryPath Fixture.branching)
       = Ok entry
    /\ mappings r = mappings Fixture.emptyResponse ++ [(entry, pairs)]
    /\ List.map path (dependencies r) = ["/r/a.js"; "/r/b.js"; "/r/c.js"].
Proof.
  eexists _, _.
  assert (Hrun : getOrderedDependencies Fixture.branching 3 [0]
                   Fixture.emptyResponse None false false ∅ = Some (Ok (_, _)))
    by (vm_compute; reflexivity).
  destruct (proj2 (flat_build_collects_the_entry_only Fixture.branching 3
                     Fixture.emptyResponse None false ∅) _ _ Hrun)
    as (entry & pairs & Hentry & _ & Hmappings & _).
  exists entry, pairs.
  split; [exact Hrun|]. split; [exact Hentry|]. split; [exact Hmappings|].
  reflexivity.
Defined.

(** ** Progress reports *)

Lemma preorder_count f :
  length (preorder f) = length (settledModules f) + pendingCount f.
Proof.
  induction f as [|m rest IH|m kids IHk rest IHr]; simpl.
  - reflexivity.
  - lia.
  - rewrite !length_app. lia.
Qed.

Lemma settle_counts value f :
  forall i m,
    nthPending i f = Some m ->
    length (preorder (settle i value f))
    = length (preorder f) + length (preorder value)
    /\ length (settledModules (settle i value f))
       = S (length (settledModules f) + length (settledModules value)).
Proof.
  induction f as [|m' rest IH|m' kids IHk rest IHr]; simpl; intros i m.
  - discriminate.
  - destruct i as [|i]; simpl.
    + intros _. rewrite !length_app. lia.
    + intros H. destruct (IH _ _ H). lia.
  - destruct (i <? pendingCount kids); simpl; intros H; rewrite !length_app.
    + destruct (IHk _ _ H). lia.
    + destruct (IHr _ _ H). lia.
Qed.

Lemma collectStep_progress env fuel allMocks i st st' :
  progressCounts st ->
  collectStep env fuel allMocks true true i st = Some (Ok st') ->
  progressCounts st'.
Proof.
  intros (Hfinished & Htotal & Hfst & Hle & Hlast) Hstep.
  destruct (collectStep_inversion _ _ _ _ _ _ _ _ Hstep)
    as [[_ ->]|(mod_ & value & st1 & Hnth & Hbody & ->)];
    [now repeat split|].
  destruct (collectBody_inversion _ _ _ _ _ _ _ _ _ Hbody)
    as (depNames & dependencies_ & cache' & pushed & mocks1 & filteredPairs
        & mocks2 & _ & _ & _ & _ & Hvalue & _ & _ & _ & Hf & Ht & Hp).
  cbv zeta in Hvalue, Hf, Ht, Hp. subst value.
  match type of Ht with
  | context [length ?nd] => set (newDependencies := nd) in *
  end.
  destruct (settle_counts (spawn true newDependencies) _ _ _ Hnth)
    as [Hpre Hset].
  pose proof (nthPending_lt _ _ _ Hnth) as Hpending.
  pose proof (preorder_count (deps st)) as Hcount.
  rewrite preorder_spawn, length_map in Hpre.
  rewrite settledModules_spawn in Hset. simpl in Hset.
  unfold progressCounts, withDeps. simpl.
  rewrite Hf, Ht, Hp, Hpre, Hset.
  split; [lia|]. split; [lia|]. split; [|split].
  - rewrite map_app, Hfst. simpl.
    replace (finishedModules st + 1) with (S (finishedModules st)) by lia.
    now rewrite seq_S.
  - apply Forall_app. split.
    + eapply List.Forall_impl; [|exact Hle]. intros [f t]. simpl. lia.
    + constructor; [|constructor]. simpl. lia.
  - right. now rewrite last_last.
Qed.

(** X14: with an [onProgress] callback, a recursive build reports once per
    collected module: the [k]-th report gives [k] finished modules out of
    a total that is at least [k] and at most the number of modules of the
    finished build, and the last report gives that number for both.
    Without the callback the counters stay at 0 and 1 and nothing is
    reported. *)
Theorem progress_reports_count_the_modules
        env fuel schedule response0 mocksPattern (cache0 : gmap string Module) :
  (forall r st,
      getOrderedDependencies env fuel schedule response0 mocksPattern
                             true true cache0
      = Some (Ok (r, st)) ->
      let n := length (dependencies r) - length (dependencies response0) in
      finishedModules st = n
      /\ totalModules st = n
      /\ List.map fst (progress st) = seq 1 n
      /\ Forall (fun report => fst report <= snd report <= n) (progress st)
      /\ List.last (progress st) (0, 0) = (n, n))
  /\ (forall recursive r st,
         getOrderedDependencies env fuel schedule response0 mocksPattern
                                false recursive cache0
         = Some (Ok (r, st)) ->
         finishedModules st = 0 /\ totalModules st = 1 /\ progress st = []).
Proof.
  split.
  - intros r st Hrun n.
    destruct (getOrderedDependencies_inversion _ _ _ _ _ _ _ _ _ _ Hrun)
      as (entry & Hentry & Hcollect & Hfinish).
    match type of Hcollect with
    | context [runCollect _ _ _ _ _ _ ?s] => set (st0 := s) in *
    end.
    assert (Hinit : progressCounts st0).
    { unfold progressCounts. simpl.
      split; [reflexivity|]. split; [reflexivity|]. split; [reflexivity|].
      split; [constructor|]. now left. }
    destruct (runCollect_preserves env fuel (_getAllMocks env mocksPattern)
                true true progressCounts
                (collectStep_progress env fuel (_getAllMocks env mocksPattern))
                _ _ _ Hinit Hcollect)
      as [(Hfinished & Htotal & Hfst & Hle & Hlast) Hzero].
    destruct (getOrderedDependencies_ok _ _ _ _ _ _ _ _ _ _ Hrun)
      as (entry' & tree & _ & Hdeps & _ & Hseq & _).
    assert (Hn : n = length (preorder (deps st))).
    { unfold n. rewrite Hseq, Hdeps, length_app. simpl.
      rewrite app_nil_r. lia. }
    assert (Hall : finishedModules st = n).
    { rewrite Hfinished, Hn. now rewrite settledModules_all. }
    rewrite Htotal, <- Hn in *. rewrite Hall in *.
    split; [reflexivity|]. split; [reflexivity|]. split; [exact Hfst|].
    split; [exact Hle|].
    destruct Hlast as [[_ Hzero']|Hlast]; [|exact Hlast].
    rewrite Hn, Hdeps in Hzero'. discriminate.
  - intros recursive r st Hrun.
    destruct (getOrderedDependencies_inversion _ _ _ _ _ _ _ _ _ _ Hrun)
      as (entry & _ & Hcollect & _).
    refine (proj1 (runCollect_preserves env fuel (_getAllMocks env mocksPattern)
                     false recursive
                     (fun st => finishedModules st = 0 /\ totalModules st = 1
                                /\ progress st = [])
                     _ _ _ _ _ Hcollect)); [|now repeat split].
    intros i s s' Hs Hstep.
    destruct (collectStep_inversion _ _ _ _ _ _ _ _ Hstep)
      as [[_ ->]|(mod_ & value & st1 & _ & Hbody & ->)]; [exact Hs|].
    destruct (collectBody_inversion _ _ _ _ _ _ _ _ _ Hbody)
      as (? & ? & ? & ? & ? & ? & ? & _ & _ & _ & _ & _ & _ & _ & _
          & Hf & Ht & Hp).
    unfold withDeps. simpl. now rewrite Hf, Ht, Hp.
Qed.

Lemma progress_reports_count_the_modules_witness :
  exists r st,
    getOrderedDependencies Fixture.branching 3 [0; 0; 0; 0]
                           Fixture.emptyResponse None true true ∅
    = Some (Ok (r, st))
    /\ List.map fst (progress st) = seq 1 (4 - 0)
    /\ progress st = [(1, 3); (2, 4); (3, 4); (4, 4)].
Proof.
  eexists _, _.
  assert (Hrun : getOrderedDependencies Fixture.branching 3 [0; 0; 0; 0]
                   Fixture.emptyResponse None true true ∅ = Some (Ok (_, _)))
    by (vm_compute; reflexivity).
  split; [exact Hrun|]. split; [|reflexivity].
  exact (proj1 (proj2 (proj2
           (proj1 (progress_reports_count_the_modules Fixture.branching 3
                     [0; 0; 0; 0] Fixture.emptyResponse None ∅)
                  _ _ Hrun)))).
Defined.

(** ** Mocks *)

Lemma mergeMocks_attached env allMocks :
  forall names mocks_ pushed mocks',
    mergeMocks env allMocks names mocks_ = Ok (pushed, mocks') ->
    forall name file,
      mocks' !! name = Some file ->
      mocks_ !! name = Some file
      \/ ((exists all, allMocks = Some all /\ all !! name = Some file)
          /\ exists mockModule,
              In (name, Some mockModule) pushed
              /\ moduleCache_getModule env file = Ok mockModule).
Proof.
  induction names as [|n names IH]; simpl; intros mocks_ pushed mocks'.
  - intros [= <- <-] name file Hlookup. now left.
  - destruct (unattachedMock allMocks mocks_ n) as [file0|] eqn:Hmock;
      [|apply IH].
    destruct (moduleCache_getModule env file0) as [mm0|] eqn:Hget;
      [|discriminate].
    destruct (mergeMocks env allMocks names (<[n:=file0]> mocks_))
      as [[pushed' mocks1]|] eqn:Hrest; [|discriminate].
    intros [= <- <-] name file Hlookup.
    destruct (IH _ _ _ Hrest _ _ Hlookup) as [Hold|(Hreg & mm & Hin & Hmm)].
    + destruct (decide (n = name)) as [->|Hne].
      * rewrite lookup_insert_eq in Hold. injection Hold as <-.
        right. split; [exact (unattachedMock_registered _ _ _ _ Hmock)|].
        exists mm0. split; [now left|exact Hget].
      * rewrite lookup_insert_ne in Hold by exact Hne. now left.
    + right. split; [exact Hreg|]. exists mm. split; [now right|exact Hmm].
Qed.

Lemma filterPairs_attached env allMocks :
  forall pairs mocks_ filteredPairs mocks',
    filterPairs env allMocks pairs mocks_ = Ok (filteredPairs, mocks') ->
    (forall name mockModule,
        In (name, Some mockModule) pairs -> In (name, mockModule) filteredPairs)
    /\ forall name file,
        mocks' !! name = Some file ->
        mocks_ !! name = Some file
        \/ ((exists all, allMocks = Some all /\ all !! name = Some file)
            /\ exists mockModule,
                In (name, mockModule) filteredPairs
                /\ moduleCache_getModule env file = Ok mockModule).
Proof.
  induction pairs as [|[n [modDep|]] pairs IH]; simpl;
    intros mocks_ filteredPairs mocks'.
  - intros [= <- <-]. split; [intros name mm []|]. intros name file H.
    now left.
  - destruct (filterPairs env allMocks pairs mocks_) as [[fp m']|] eqn:Hrest;
      [|discriminate].
    intros [= <- <-]. destruct (IH _ _ _ Hrest) as [Hkeep Hatt]. split.
    + intros name mm [[= <- <-]|Hin]; [now left|right; now apply Hkeep].
    + intros name file Hlookup.
      destruct (Hatt _ _ Hlookup) as [Hold|(Hreg & mm & Hin & Hmm)];
        [now left|].
      right. split; [exact Hreg|]. exists mm. split; [now right|exact Hmm].
  - destruct (unattachedMock allMocks mocks_ n) as [file0|] eqn:Hmock.
    + destruct (moduleCache_getModule env file0) as [mm0|] eqn:Hget;
        [|discriminate].
      destruct (filterPairs env allMocks pairs (<[n:=file0]> mocks_))
        as [[fp m']|] eqn:Hrest; [|discriminate].
      intros [= <- <-]. destruct (IH _ _ _ Hrest) as [Hkeep Hatt]. split.
      * intros name mm [[=]|Hin]. right. now apply Hkeep.
      * intros name file Hlookup.
        destruct (Hatt _ _ Hlookup) as [Hold|(Hreg & mm & Hin & Hmm)].
        -- destruct (decide (n = name)) as [->|Hne].
           ++ rewrite lookup_insert_eq in Hold. injection Hold as <-.
              right. split; [exact (unattachedMock_registered _ _ _ _ Hmock)|].
              exists mm0. split; [now left|exact Hget].
           ++ rewrite lookup_insert_ne in Hold by exact Hne. now left.
        -- right. split; [exact Hreg|]. exists mm.
           split; [now right|exact Hmm].
    + intros Hrest. destruct (IH _ _ _ Hrest) as [Hkeep Hatt]. split.
      * intros name mm [[=]|Hin]. now apply Hkeep.
      * exact Hatt.
Qed.

Lemma collectStep_attached env fuel allMocks onProgress recursive i st st' :
  attachedMocks env allMocks (mappings (response st)) (mocks st) ->
  collectStep env fuel allMocks onProgress recursive i st = Some (Ok st') ->
  attachedMocks env allMocks (mappings (response st')) (mocks st').
Proof.
  intros Hkept Hstep.
  destruct (collectStep_inversion _ _ _ _ _ _ _ _ Hstep)
    as [[_ ->]|(mod_ & value & st1 & _ & Hbody & ->)]; [exact Hkept|].
  destruct (collectBody_inversion _ _ _ _ _ _ _ _ _ Hbody)
    as (depNames & dependencies_ & cache' & pushed & mocks1 & filteredPairs
        & mocks2 & _ & _ & Hmerge & Hfilter & _ & _ & Hmocks & Hresponse & _).
  unfold withDeps. simpl. rewrite Hmocks, Hresponse. simpl.
  destruct (filterPairs_attached _ _ _ _ _ _ Hfilter) as [Hkeep Hatt].
  intros name file Hlookup.
  assert (Hhere : forall mockModule,
             In (name, mockModule) filteredPairs ->
             moduleCache_getModule env file = Ok mockModule ->
             exists m pairs mm,
               In (m, pairs) (mappings (response st) ++ [(mod_, filteredPairs)])
               /\ In (name, mm) pairs
               /\ moduleCache_getModule env file = Ok mm).
  { intros mm Hin Hmm. exists mod_, filteredPairs, mm.
    split; [apply in_app_iff; right; now left|]. now split. }
  destruct (Hatt _ _ Hlookup) as [Hold|(Hreg & mm & Hin & Hmm)];
    [|split; [exact Hreg|exact (Hhere _ Hin Hmm)]].
  destruct (mergeMocks_attached _ _ _ _ _ _ Hmerge _ _ Hold)
    as [Holder|(Hreg & mm & Hin & Hmm)].
  - destruct (Hkept _ _ Holder) as (Hreg & m & pairs & mm & Hin & Hpair & Hmm).
    split; [exact Hreg|]. exists m, pairs, mm.
    split; [apply in_app_iff; now left|]. now split.
  - split; [exact Hreg|]. apply (Hhere mm); [|exact Hmm].
    apply Hkeep, in_app_iff. now right.
Qed.

(** X15: the mock table handed to the response holds attached mocks
    only: each of its entries is a mock the pattern found, registered
    under the same name, and the module of that mock stands under that
    name in the resolved pairs recorded for some module.  Without a mocks
    pattern the table is empty. *)
Theorem mock_table_holds_the_attached_mocks
        env fuel schedule response0 mocksPattern onProgress recursive
        (cache0 : gmap string Module) r st :
  getOrderedDependencies env fuel schedule response0 mocksPattern
                         onProgress recursive cache0
  = Some (Ok (r, st)) ->
  exists table,
    responseMocks r = Some table
    /\ attachedMocks env (_getAllMocks env mocksPattern) (mappings r) table
    /\ (_getAllMocks env mocksPattern = None -> table = ∅).
Proof.
  intros Hrun.
  destruct (getOrderedDependencies_inversion _ _ _ _ _ _ _ _ _ _ Hrun)
    as (entry & _ & Hcollect & Hfinish).
  destruct (finish_inversion _ _ Hfinish)
    as (_ & _ & _ & _ & _ & Hmappings & Hmocks).
  exists (mocks st). split; [exact Hmocks|].
  assert (Hatt : attachedMocks env (_getAllMocks env mocksPattern)
                               (mappings r) (mocks st)).
  { rewrite Hmappings.
    refine (proj1 (runCollect_preserves env fuel (_getAllMocks env mocksPattern)
                     onProgress recursive
                     (fun s => attachedMocks env (_getAllMocks env mocksPattern)
                                 (mappings (response s)) (mocks s))
                     (collectStep_attached env fuel _ onProgress recursive)
                     _ _ _ _ Hcollect)).
    intros name file Hlookup. simpl in Hlookup.
    rewrite lookup_empty in Hlookup. discriminate. }
  split; [exact Hatt|].
  intros Hnone. apply map_empty. intros name.
  destruct (mocks st !! name) as [file|] eqn:Hlookup; [|reflexivity].
  destruct (Hatt _ _ Hlookup) as [(all & Hall & _) _]. congruence.
Qed.

Lemma mock_table_holds_the_attached_mocks_witness :
  exists r st table,
    getOrderedDependencies (Tree.mocked "/r/a.js") 3 [0; 0; 0]
      Fixture.emptyResponse (Some "__mocks__") false true ∅
    = Some (Ok (r, st))
    /\ List.map path (dependencies r)
       = ["/r/a.js"; "/r/b.js"; "/r/other/__mocks__/b.js"]
    /\ responseMocks r = Some table
    /\ attachedMocks (Tree.mocked "/r/a.js")
         (_getAllMocks (Tree.mocked "/r/a.js") (Some "__mocks__"))
         (mappings r) table.
Proof.
  eexists _, _.
  assert (Hrun : getOrderedDependencies (Tree.mocked "/r/a.js") 3 [0; 0; 0]
                   Fixture.emptyResponse (Some "__mocks__") false true ∅
                 = Some (Ok (_, _))) by (vm_compute; reflexivity).
  destruct (mock_table_holds_the_attached_mocks _ _ _ _ _ _ _ _ _ _ Hrun)
    as (table & Htable & Hattached & _).
  exists table. split; [exact Hrun|]. split; [reflexivity|].
  split; [exact Htable|exact Hattached].
Defined.

(** X1: [_getAllMocks] answers [null] when no pattern is given; with a
    pattern, the table maps the base name without extension of each
    matched file to that file, and of two files with the same base name
    the one matched later is kept. *)
Theorem getAllMocks_keeps_the_last_file env :
  _getAllMocks env None = None
  /\ _getAllMocks env (Some "") = None
  /\ forall pattern,
      JsString.truthy pattern = true ->
      exists all,
        _getAllMocks env (Some pattern) = Some all
        /\ forall name,
            all !! name
            = lastNamed name (fastfs_matchFilesByPattern env pattern).
Proof.
  split; [reflexivity|]. split; [reflexivity|].
  intros pattern Htruthy. unfold _getAllMocks. rewrite Htruthy.
  eexists. split; [reflexivity|]. intros name.
  assert (Hfold : forall files (table : gmap string string),
    fold_left (fun (mocks_ : gmap string string) file =>
                 <[Path.basenameNoExt file := file]> mocks_) files table
    !! name
    = match lastNamed name files with
      | Some file => Some file
      | None => table !! name
      end).
  { induction files as [|file files IH]; intros table; simpl; [reflexivity|].
    rewrite IH. destruct (lastNamed name files); [reflexivity|].
    destruct (String.eqb_spec (Path.basenameNoExt file) name) as [<-|Hne].
    - apply lookup_insert_eq.
    - now apply lookup_insert_ne. }
  rewrite Hfold, lookup_empty.
  now destruct (lastNamed name (fastfs_matchFilesByPattern env pattern)).
Qed.

Lemma getAllMocks_keeps_the_last_file_witness :
  exists all,
    _getAllMocks (Tree.mocked "/r/a.js") (Some "__mocks__") = Some all
    /\ all !! "b" = Some "/r/other/__mocks__/b.js"
    /\ all !! "a" = None.
Proof.
  destruct (proj2 (proj2 (getAllMocks_keeps_the_last_file
                            (Tree.mocked "/r/a.js")))
                  "__mocks__" eq_refl) as (all & Hall & Hlookup).
  exists all. split; [exact Hall|]. split; apply Hlookup.
Defined.

(** ** Flattening *)

(** X2: [recursiveFlatten] lists the modules of an array nested to any
    depth from left to right: it distributes over concatenation, an
    inner array counts for its own flattening, a module for itself, and
    an array of modules is left as it is, so that flattening twice is
    flattening once. *)
Theorem recursiveFlatten_lists_every_level :
  (forall a b,
      recursiveFlatten (a ++ b) = recursiveFlatten a ++ recursiveFlatten b)
  /\ (forall items rest,
         recursiveFlatten (JArray items :: rest)
         = recursiveFlatten items ++ recursiveFlatten rest)
  /\ (forall m rest,
         recursiveFlatten (JModule m :: rest) = m :: recursiveFlatten rest)
  /\ (forall modules, recursiveFlatten (List.map JModule modules) = modules)
  /\ (forall array,
         recursiveFlatten (List.map JModule (recursiveFlatten array))
         = recursiveFlatten array).
Proof.
  assert (Hflat : forall modules,
             recursiveFlatten (List.map JModule modules) = modules).
  { unfold recursiveFlatten.
    induction modules as [|m modules IH]; simpl; [reflexivity|].
    now rewrite IH. }
  unfold recursiveFlatten in *. repeat split.
  - intros a b. now rewrite map_app, concat_app.
  - exact Hflat.
  - intros array. apply Hflat.
Qed.

(** ** Strings *)

Lemma length_append a b :
  String.length (a +:+ b) = String.length a + String.length b.
Proof. induction a as [|c a IH]; simpl; [reflexivity|now rewrite IH]. Qed.

Lemma append_assoc a b c : (a +:+ b) +:+ c = a +:+ (b +:+ c).
Proof.
  induction a as [|x a IH]; [reflexivity|].
  change (String x ((a +:+ b) +:+ c) = String x (a +:+ (b +:+ c))).
  now rewrite IH.
Qed.

Lemma append_inv_head a b c : a +:+ b = a +:+ c -> b = c.
Proof.
  induction a as [|x a IH]; simpl; [trivial|]. intros [= H]. now apply IH.
Qed.

Lemma substring_prefix a b :
  String.substring 0 (String.length a) (a +:+ b) = a.
Proof.
  induction a as [|c a IH]; simpl.
  - now destruct b.
  - now rewrite IH.
Qed.

Lemma slice0_prefix a b :
  JsString.slice0 (a +:+ b) (Z.of_nat (String.length a)) = a.
Proof.
  unfold JsString.slice0. rewrite length_append.
  destruct (Z.ltb_spec (Z.of_nat (String.length a)) 0) as [Hneg|_]; [lia|].
  rewrite Z.min_l by lia. rewrite Nat2Z.id. apply substring_prefix.
Qed.

Lemma slice0_last s :
  JsString.slice0 s (-1) = String.substring 0 (String.length s - 1) s.
Proof.
  unfold JsString.slice0. cbv zeta. change (-1 <? 0)%Z with true. cbv iota.
  f_equal. destruct (String.length s); simpl; lia.
Qed.

Lemma indexOfChar_from_skip c a b :
  forall i start,
    (i + Z.of_nat (String.length a) <= start)%Z ->
    JsString.indexOfChar_from c (a +:+ b) i start
    = JsString.indexOfChar_from c b (i + Z.of_nat (String.length a))%Z start.
Proof.
  induction a as [|x a IH]; intros i start Hle.
  - simpl. f_equal. lia.
  - change (String x a +:+ b) with (String x (a +:+ b)).
    simpl JsString.indexOfChar_from.
    destruct (Z.leb_spec start i) as [Hstart|_];
      [simpl String.length in Hle; lia|].
    simpl andb. cbv iota. rewrite IH by (simpl String.length in Hle; lia).
    f_equal. simpl String.length. lia.
Qed.

Lemma indexOfChar_from_free c b :
  slashFree b = true -> c = Path.slash ->
  forall i start, JsString.indexOfChar_from c b i start = (-1)%Z.
Proof.
  intros Hfree ->. induction b as [|x b IH]; intros i start; [reflexivity|].
  simpl in Hfree. apply andb_true_iff in Hfree. destruct Hfree as [Hx Hb].
  apply negb_true_iff in Hx. simpl. rewrite Hx, andb_false_r. now apply IH.
Qed.

Lemma indexOfChar_from_first b rest :
  slashFree b = true ->
  forall i start,
    (start <= i)%Z ->
    JsString.indexOfChar_from Path.slash (b +:+ String Path.slash rest) i start
    = (i + Z.of_nat (String.length b))%Z.
Proof.
  intros Hfree. induction b as [|x b IH]; intros i start Hle.
  - simpl. destruct (Z.leb_spec start i); [|lia]. simpl. lia.
  - simpl in Hfree. apply andb_true_iff in Hfree. destruct Hfree as [Hx Hb].
    apply negb_true_iff in Hx.
    change (String x b +:+ String Path.slash rest)
      with (String x (b +:+ String Path.slash rest)).
    simpl JsString.indexOfChar_from. rewrite Hx, andb_false_r.
    rewrite (IH Hb) by lia. simpl String.length. lia.
Qed.

(** ** The directory of the requester's package *)

(** X17: [fromModuleDir], the directory a redirected relative name is
    resolved against, is the path of the requester cut at the first [/]
    after its last [node_modules/]: the directory of the innermost
    installed package the requester belongs to (for a scoped package,
    the scope directory).  For a requester outside [node_modules] the
    search for [/] starts at index 12: the result is the path cut at the
    first [/] from there on, or the path without its last character when
    there is none. *)
Theorem fromModuleDir_cuts_after_the_package_name :
  (forall pre pkg rest,
      JsString.lastIndexOf
        (pre +:+ "node_modules/" +:+ pkg +:+ "/" +:+ rest) "node_modules/"
      = Z.of_nat (String.length pre) ->
      slashFree pkg = true ->
      fromModuleDir (pre +:+ "node_modules/" +:+ pkg +:+ "/" +:+ rest)
      = pre +:+ "node_modules/" +:+ pkg)
  /\ (forall a b rest,
         JsString.lastIndexOf (a +:+ b +:+ "/" +:+ rest) "node_modules/"
         = (-1)%Z ->
         String.length a = 12 ->
         slashFree b = true ->
         fromModuleDir (a +:+ b +:+ "/" +:+ rest) = a +:+ b)
  /\ (forall a b,
         JsString.lastIndexOf (a +:+ b) "node_modules/" = (-1)%Z ->
         String.length a <= 12 ->
         slashFree b = true ->
         b = "" \/ String.length a = 12 ->
         fromModuleDir (a +:+ b)
         = String.substring 0 (String.length (a +:+ b) - 1) (a +:+ b)).
Proof.
  split; [|split].
  - intros pre pkg rest Hlast Hfree. unfold fromModuleDir. rewrite Hlast.
    unfold JsString.indexOfChar.
    replace (pre +:+ "node_modules/" +:+ pkg +:+ "/" +:+ rest)
      with ((pre +:+ "node_modules/") +:+ (pkg +:+ "/" +:+ rest))
      by now rewrite append_assoc.
    rewrite indexOfChar_from_skip
      by (rewrite length_append; simpl String.length; lia).
    change ("/" +:+ rest) with (String Path.slash rest).
    rewrite (indexOfChar_from_first _ _ Hfree)
      by (rewrite length_append; simpl String.length; lia).
    replace ((pre +:+ "node_modules/") +:+ (pkg +:+ String Path.slash rest))
      with ((pre +:+ "node_modules/" +:+ pkg) +:+ String Path.slash rest)
      by now rewrite !append_assoc.
    replace (0 + Z.of_nat (String.length (pre +:+ "node_modules/"))
             + Z.of_nat (String.length pkg))%Z
      with (Z.of_nat (String.length (pre +:+ "node_modules/" +:+ pkg)))
      by (rewrite !length_append; lia).
    apply slice0_prefix.
  - intros a b rest Hlast Ha Hfree. unfold fromModuleDir. rewrite Hlast.
    unfold JsString.indexOfChar.
    rewrite indexOfChar_from_skip by lia.
    change ("/" +:+ rest) with (String Path.slash rest).
    rewrite (indexOfChar_from_first _ _ Hfree) by lia.
    replace (a +:+ b +:+ String Path.slash rest)
      with ((a +:+ b) +:+ String Path.slash rest)
      by now rewrite append_assoc.
    replace (0 + Z.of_nat (String.length a) + Z.of_nat (String.length b))%Z
      with (Z.of_nat (String.length (a +:+ b)))
      by (rewrite length_append; lia).
    apply slice0_prefix.
  - intros a b Hlast Ha Hfree Hshape. unfold fromModuleDir. rewrite Hlast.
    unfold JsString.indexOfChar.
    assert (Hnone : JsString.indexOfChar_from Path.slash (a +:+ b) 0 (-1 + 13)
                    = (-1)%Z).
    { destruct Hshape as [->|Hlen].
      - rewrite indexOfChar_from_skip by lia. reflexivity.
      - rewrite indexOfChar_from_skip by lia.
        now apply indexOfChar_from_free. }
    rewrite Hnone. apply slice0_last.
Qed.

Lemma fromModuleDir_cuts_after_the_package_name_witness :
  fromModuleDir ("/root/" +:+ "node_modules/" +:+ "@scope" +:+ "/"
                 +:+ "pkg/lib/index.js")
  = "/root/" +:+ "node_modules/" +:+ "@scope"
  /\ fromModuleDir ("/Users/alice" +:+ "" +:+ "/" +:+ "app/src/a.js")
     = "/Users/alice" +:+ ""
  /\ fromModuleDir ("/root/a.js" +:+ "") = "/root/a.j".
Proof.
  pose proof fromModuleDir_cuts_after_the_package_name as (H1 & H2 & H3).
  split; [|split].
  - apply (H1 "/root/" "@scope" "pkg/lib/index.js"); reflexivity.
  - apply (H2 "/Users/alice" "" "app/src/a.js"); reflexivity.
  - apply (H3 "/root/a.js" ""); [reflexivity|simpl; lia|reflexivity|now left].
Defined.

(** ** The search queue *)

Lemma searchQueue_from_step fuel fsRoot currDir realModuleName :
  currDir <> fsRoot ->
  searchQueue_from (S fuel) fsRoot currDir realModuleName
  = match searchQueue_from fuel fsRoot (Path.dirname currDir)
                           realModuleName with
    | Some queue =>
        Some (Path.join [currDir; "node_modules"; realModuleName] :: queue)
    | None => None
    end.
Proof.
  intros Hne. cbn [searchQueue_from].
  now destruct (String.eqb_spec currDir fsRoot).
Qed.

Lemma searchQueue_from_total realModuleName :
  forall n segs fuel,
    Forall (fun x => segment x = true) segs ->
    length segs = n ->
    n <= fuel ->
    exists queue,
      searchQueue_from fuel "/" (String Path.slash (Path.unsplit segs))
                       realModuleName = Some queue
      /\ length queue = n.
Proof.
  induction n as [|n IH]; intros segs fuel Hsegs Hlen Hfuel.
  - destruct segs; [|discriminate]. exists []. now destruct fuel.
  - destruct fuel as [|fuel]; [lia|].
    destruct segs as [|x rest] eqn:Hshape; [discriminate|]. rewrite <- Hshape in *.
    assert (Hne : String Path.slash (Path.unsplit segs) <> "/").
    { intros [= H]. subst segs. inversion Hsegs; subst.
      now apply (unsplit_nonempty x rest). }
    rewrite (searchQueue_from_step _ _ _ _ Hne).
    rewrite (dirname_absolute (String Path.slash (Path.unsplit segs)))
      by reflexivity.
    rewrite components_absolute, (components_unsplit _ Hsegs).
    destruct (IH (List.removelast segs) fuel) as (queue & -> & Hqueue).
    + now apply Forall_removelast.
    + rewrite length_removelast. lia.
    + lia.
    + eexists. split; [reflexivity|]. simpl. now rewrite Hqueue.
Qed.

Lemma searchQueue_from_relative realModuleName :
  forall fuel currDir,
    currDir <> "" ->
    searchQueue_from fuel "" currDir realModuleName = None.
Proof.
  induction fuel as [|fuel IH]; intros currDir Hne.
  - cbn [searchQueue_from]. now destruct (String.eqb_spec currDir "").
  - rewrite (searchQueue_from_step _ _ _ _ Hne).
    now rewrite IH by apply dirname_nonempty.
Qed.

(** X18: the loop that fills the search queue ends for a requester with
    an absolute path, with one candidate for each directory above the
    requester, the file-system root left out; for a requester whose path
    is not absolute it never ends, the parent of [.] being [.] and the
    root of a relative path the empty string. *)
Theorem search_queue_is_filled_for_absolute_paths fromModule realModuleName :
  (Path.isAbsolutePath (path fromModule) = true ->
   forall fuel,
     length (Path.components (path fromModule)) - 1 <= fuel ->
     exists queue dirs,
       searchQueue fuel fromModule realModuleName = Some queue
       /\ ascending "/" (Path.dirname (path fromModule)) dirs
       /\ queue
          = List.map (fun d => Path.join [d; "node_modules"; realModuleName])
                     dirs
       /\ length dirs = length (Path.components (path fromModule)) - 1)
  /\ (Path.isAbsolutePath (path fromModule) = false ->
      forall fuel, searchQueue fuel fromModule realModuleName = None).
Proof.
  unfold searchQueue, Path.root. split; intros Habs fuel; rewrite Habs.
  - intros Hfuel. rewrite (dirname_absolute _ Habs).
    destruct (searchQueue_from_total realModuleName
                (length (List.removelast (Path.components (path fromModule))))
                (List.removelast (Path.components (path fromModule))) fuel)
      as (queue & Hqueue & Hlen).
    + apply Forall_removelast, components_segments.
    + reflexivity.
    + now rewrite length_removelast.
    + destruct (searchQueue_from_ascending _ _ _ _ _ Hqueue)
        as (dirs & Hasc & ->).
      exists (List.map
                (fun d => Path.join [d; "node_modules"; realModuleName]) dirs),
             dirs.
      split; [exact Hqueue|]. split; [exact Hasc|]. split; [reflexivity|].
      rewrite length_map, length_removelast in Hlen. exact Hlen.
  - apply searchQueue_from_relative, dirname_nonempty.
Qed.

Lemma search_queue_is_filled_for_absolute_paths_witness :
  (exists queue dirs,
      searchQueue 3 (Fixture.mkModule "/root/app/src/a.js") "lib" = Some queue
      /\ ascending "/" (Path.dirname "/root/app/src/a.js") dirs
      /\ queue = List.map (fun d => Path.join [d; "node_modules"; "lib"]) dirs
      /\ length dirs = 4 - 1)
  /\ searchQueue 100 (Fixture.mkModule "app/src/a.js") "lib" = None.
Proof.
  pose proof (search_queue_is_filled_for_absolute_paths
                (Fixture.mkModule "/root/app/src/a.js") "lib") as [Habs _].
  pose proof (search_queue_is_filled_for_absolute_paths
                (Fixture.mkModule "app/src/a.js") "lib") as [_ Hrel].
  split.
  - apply (Habs eq_refl 3). simpl. lia.
  - apply (Hrel eq_refl 100).
Defined.

(** ** Memo keys *)

(** X19: for one requesting module, two dependency names have the same
    memo key only when they are the same name, so that resolving a name
    leaves what the memo holds for the other names of the module as it
    was.  Across modules the key does not tell pairs apart: a module
    path [p:d] with the name [c] has the key of the path [p] with the
    name [d:c]. *)
Theorem memo_key_separates_the_names_of_a_module env fromModule :
  (forall name1 name2,
      resolutionHash env (path fromModule) name1
      = resolutionHash env (path fromModule) name2 ->
      name1 = name2)
  /\ (forall fuel name1 name2 (cache_ : gmap string Module) r t cache',
         name1 <> name2 ->
         resolveDependency env fuel fromModule name1 cache_
         = Some (r, t, cache') ->
         cache' !! resolutionHash env (path fromModule) name2
         = cache_ !! resolutionHash env (path fromModule) name2)
  /\ (forall p d c,
         Path.resolve (cwd env) (p +:+ ":" +:+ d)
         = Path.resolve (cwd env) p +:+ ":" +:+ d ->
         resolutionHash env (p +:+ ":" +:+ d) c
         = resolutionHash env p (d +:+ ":" +:+ c)).
Proof.
  assert (Hinj : forall name1 name2,
             resolutionHash env (path fromModule) name1
             = resolutionHash env (path fromModule) name2 ->
             name1 = name2).
  { unfold resolutionHash. intros name1 name2 H.
    apply append_inv_head in H. now apply (append_inv_head ":") in H. }
  split; [exact Hinj|]. split.
  - intros fuel name1 name2 cache_ r t cache' Hne.
    unfold resolveDependency, resolveDependency_lookup.
    destruct (cache_ !! resolutionHash env (path fromModule) name1).
    { now intros [= _ _ <-]. }
    destruct (deprecatedAssetMap_resolve env fromModule name1).
    { now intros [= _ _ <-]. }
    destruct (resolveDependency_settle env fuel fromModule name1 cache_)
      as [[[r1 t1] cache1]|] eqn:Hsettle; [|discriminate].
    intros [= _ _ <-].
    destruct (resolveDependency_settle_cache _ _ _ _ _ _ _ _ Hsettle)
      as [(m & _ & ->)|[_ ->]]; [|reflexivity].
    apply lookup_insert_ne. intros Heq. apply Hne. now apply Hinj.
  - intros p d c Hresolve. unfold resolutionHash. rewrite Hresolve.
    now rewrite !append_assoc.
Qed.

Lemma memo_key_separates_the_names_of_a_module_witness :
  resolutionHash Fixture.onlyJson "/root/a:b" "c"
  = resolutionHash Fixture.onlyJson "/root/a" "b:c"
  /\ (<["/root/a.js:./x" := Fixture.mkModule "/root/x.json"]> ∅
      : gmap string Module) !! "/root/a.js:./y" = None.
Proof.
  pose proof (memo_key_separates_the_names_of_a_module Fixture.onlyJson
                (Fixture.mkModule "/root/a.js")) as (_ & Hkeeps & Hcollide).
  split.
  - apply (Hcollide "/root/a" "b" "c"). reflexivity.
  - refine (Hkeeps 1 "./x" "./y" ∅ (Ok (Some (Fixture.mkModule "/root/x.json")))
                   _ _ _ _); [discriminate|reflexivity].
Defined.

(** ** The mock of a module *)

Lemma unattachedMock_elsewhere allMocks mocks_ name file n file' :
  mocks_ !! name = Some file ->
  JsString.truthy file = true ->
  unattachedMock allMocks mocks_ n = Some file' ->
  n <> name.
Proof.
  intros Hlookup Htruthy Hmock ->. unfold unattachedMock, truthyEntry in Hmock.
  rewrite Hlookup, Htruthy in Hmock.
  destruct allMocks as [all|]; [|discriminate].
  destruct (all !! name) as [f|]; [|discriminate].
  destruct (JsString.truthy f); discriminate.
Qed.

Lemma mergeMocks_keeps env allMocks name file :
  JsString.truthy file = true ->
  forall names mocks_ pushed mocks',
    mergeMocks env allMocks names mocks_ = Ok (pushed, mocks') ->
    mocks_ !! name = Some file ->
    mocks' !! name = Some file.
Proof.
  intros Htruthy.
  induction names as [|n names IH]; simpl; intros mocks_ pushed mocks'.
  - now intros [= _ <-].
  - destruct (unattachedMock allMocks mocks_ n) as [file0|] eqn:Hmock;
      [|apply IH].
    destruct (moduleCache_getModule env file0); [|discriminate].
    destruct (mergeMocks env allMocks names (<[n:=file0]> mocks_))
      as [[pushed' mocks1]|] eqn:Hrest; [|discriminate].
    intros [= _ <-] Hlookup. apply (IH _ _ _ Hrest).
    rewrite lookup_insert_ne; [exact Hlookup|].
    exact (unattachedMock_elsewhere _ _ _ _ _ _ Hlookup Htruthy Hmock).
Qed.

Lemma filterPairs_keeps env allMocks name file :
  JsString.truthy file = true ->
  forall pairs mocks_ filteredPairs mocks',
    filterPairs env allMocks pairs mocks_ = Ok (filteredPairs, mocks') ->
    mocks_ !! name = Some file ->
    mocks' !! name = Some file.
Proof.
  intros Htruthy.
  induction pairs as [|[n [modDep|]] pairs IH]; simpl;
    intros mocks_ filteredPairs mocks'.
  - now intros [= _ <-].
  - destruct (filterPairs env allMocks pairs mocks_) as [[fp m']|] eqn:Hrest;
      [|discriminate].
    intros [= _ <-]. exact (IH _ _ _ Hrest).
  - destruct (unattachedMock allMocks mocks_ n) as [file0|] eqn:Hmock;
      [|apply IH].
    destruct (moduleCache_getModule env file0); [|discriminate].
    destruct (filterPairs env allMocks pairs (<[n:=file0]> mocks_))
      as [[fp m']|] eqn:Hrest; [|discriminate].
    intros [= _ <-] Hlookup. apply (IH _ _ _ Hrest).
    rewrite lookup_insert_ne; [exact Hlookup|].
    exact (unattachedMock_elsewhere _ _ _ _ _ _ Hlookup Htruthy Hmock).
Qed.

Lemma mergeMocks_own env all name file rest mocks_ pushed mocks' :
  all !! name = Some file ->
  JsString.truthy file = true ->
  mocks_ !! name = None ->
  mergeMocks env (Some all) (name :: rest) mocks_ = Ok (pushed, mocks') ->
  exists mockModule,
    moduleCache_getModule env file = Ok mockModule
    /\ In (name, Some mockModule) pushed
    /\ mocks' !! name = Some file.
Proof.
  intros Hall Htruthy Hfree. cbn [mergeMocks].
  assert (Hmock : unattachedMock (Some all) mocks_ name = Some file)
    by (unfold unattachedMock, truthyEntry; now rewrite Hall, Htruthy, Hfree).
  rewrite Hmock.
  destruct (moduleCache_getModule env file) as [mockModule|]; [|discriminate].
  destruct (mergeMocks env (Some all) rest (<[name:=file]> mocks_))
    as [[pushed' mocks1]|] eqn:Hrest; [|discriminate].
  intros [= <- <-]. exists mockModule. split; [reflexivity|].
  split; [now left|].
  apply (mergeMocks_keeps env (Some all) name file Htruthy _ _ _ _ Hrest).
  apply lookup_insert_eq.
Qed.

Lemma collectStep_keeps_mock env fuel allMocks onProgress recursive
      name file recorded i st st' :
  JsString.truthy file = true ->
  (exists more, mappings (response st) = recorded ++ more)
  /\ mocks st !! name = Some file ->
  collectStep env fuel allMocks onProgress recursive i st = Some (Ok st') ->
  (exists more, mappings (response st') = recorded ++ more)
  /\ mocks st' !! name = Some file.
Proof.
  intros Htruthy [[more Hmore] Hlookup] Hstep.
  destruct (collectStep_inversion _ _ _ _ _ _ _ _ Hstep)
    as [[_ ->]|(mod_ & value & st1 & _ & Hbody & ->)]; [now eauto|].
  destruct (collectBody_inversion _ _ _ _ _ _ _ _ _ Hbody)
    as (depNames & dependencies_ & cache' & pushed & mocks1 & filteredPairs
        & mocks2 & _ & _ & Hmerge & Hfilter & _ & _ & Hmocks & Hresponse & _).
  unfold withDeps. simpl. rewrite Hmocks, Hresponse. simpl. split.
  - exists (more ++ [(mod_, filteredPairs)]). now rewrite Hmore, app_assoc.
  - apply (filterPairs_keeps _ _ _ _ Htruthy _ _ _ _ Hfilter).
    exact (mergeMocks_keeps _ _ _ _ Htruthy _ _ _ _ Hmerge Hlookup).
Qed.

(** X20: in a build with mocks, a mock file registered under the name of
    the entry module is attached to it: the module of the mock is pushed
    after the dependencies of the entry and recorded under that name in
    its resolved pairs, and the mock table of the response holds the
    file under that name. *)
Theorem mock_of_the_entry_is_attached
        env fuel schedule response0 mocksPattern onProgress recursive
        (cache0 : gmap string Module) r st all entry file :
  getOrderedDependencies env fuel schedule response0 mocksPattern
                         onProgress recursive cache0
  = Some (Ok (r, st)) ->
  _getAllMocks env mocksPattern = Some all ->
  moduleCache_getModule env (entryPath env) = Ok entry ->
  all !! module_getName env entry = Some file ->
  JsString.truthy file = true ->
  exists pairs mockModule table,
    In (entry, pairs) (mappings r)
    /\ In (module_getName env entry, mockModule) pairs
    /\ moduleCache_getModule env file = Ok mockModule
    /\ responseMocks r = Some table
    /\ table !! module_getName env entry = Some file.
Proof.
  intros Hrun Hmocks Hentry Hall Htruthy.
  destruct (getOrderedDependencies_inversion _ _ _ _ _ _ _ _ _ _ Hrun)
    as (entry' & Hentry' & Hcollect & Hfinish).
  rewrite Hentry in Hentry'. injection Hentry' as <-.
  rewrite Hmocks in Hcollect.
  match type of Hcollect with
  | context [runCollect _ _ _ _ _ _ ?s] => set (st0 := s) in *
  end.
  destruct schedule as [|i later]; [discriminate|].
  rewrite runCollect_cons in Hcollect.
  change (pendingCount (deps st0)) with 1 in Hcollect.
  rewrite Nat.mod_1_r in Hcollect. cbv iota in Hcollect.
  destruct (collectStep env fuel (Some all) onProgress recursive 0 st0)
    as [[st1|]|] eqn:Hstep; [|discriminate|discriminate].
  destruct (collectStep_inversion _ _ _ _ _ _ _ _ Hstep)
    as [[Hnone _]|(mod_ & value & st2 & Hnth & Hbody & ->)];
    [discriminate|].
  injection Hnth as <-.
  destruct (collectBody_inversion _ _ _ _ _ _ _ _ _ Hbody)
    as (depNames & dependencies_ & cache' & pushed & mocks1 & filteredPairs
        & mocks2 & _ & _ & Hmerge & Hfilter & _ & _ & Hmocks2 & Hresponse & _).
  destruct (mergeMocks_own _ _ _ _ _ _ _ _ Hall Htruthy
              (lookup_empty _) Hmerge) as (mockModule & Hget & Hpushed & Hown).
  destruct (filterPairs_attached _ _ _ _ _ _ Hfilter) as [Hkeep _].
  pose proof (filterPairs_keeps _ _ _ _ Htruthy _ _ _ _ Hfilter Hown) as Hown2.
  assert (Hkept :
    (exists more,
        mappings (response st)
        = (mappings (response st0) ++ [(entry, filteredPairs)]) ++ more)
    /\ mocks st !! module_getName env entry = Some file).
  { refine (proj1 (runCollect_preserves env fuel (Some all) onProgress recursive
                     (fun s =>
                        (exists more,
                            mappings (response s)
                            = (mappings (response st0)
                               ++ [(entry, filteredPairs)]) ++ more)
                        /\ mocks s !! module_getName env entry = Some file)
                     _ _ _ _ _ Hcollect)).
    - intros j s s'. now apply collectStep_keeps_mock.
    - unfold withDeps. simpl. rewrite Hmocks2, Hresponse. simpl.
      split; [exists []; now rewrite app_nil_r|exact Hown2]. }
  destruct Hkept as [[more Hmore] Htable].
  destruct (finish_inversion _ _ Hfinish)
    as (_ & _ & _ & _ & _ & Hmappings & Hresponsemocks).
  exists filteredPairs, mockModule, (mocks st).
  split.
  { rewrite Hmappings, Hmore. apply in_app_iff. left. apply in_app_iff.
    right. now left. }
  split; [apply Hkeep, in_app_iff; now right|].
  split; [exact Hget|]. split; [exact Hresponsemocks|exact Htable].
Qed.

Lemma mock_of_the_entry_is_attached_witness :
  exists r st pairs mockModule table,
    getOrderedDependencies (Tree.mocked "/r/b.js") 3 [0; 0]
      Fixture.emptyResponse (Some "__mocks__") false true ∅
    = Some (Ok (r, st))
    /\ In (Fixture.mkModule "/r/b.js", pairs) (mappings r)
    /\ In ("b", mockModule) pairs
    /\ moduleCache_getModule (Tree.mocked "/r/b.js") "/r/other/__mocks__/b.js"
       = Ok mockModule
    /\ responseMocks r = Some table
    /\ table !! "b" = Some "/r/other/__mocks__/b.js".
Proof.
  eexists _, _.
  assert (Hrun : getOrderedDependencies (Tree.mocked "/r/b.js") 3 [0; 0]
                   Fixture.emptyResponse (Some "__mocks__") false true ∅
                 = Some (Ok (_, _))) by (vm_compute; reflexivity).
  destruct (mock_of_the_entry_is_attached (Tree.mocked "/r/b.js") 3 [0; 0]
              Fixture.emptyResponse (Some "__mocks__") false true ∅ _ _
              (<["b" := "/r/other/__mocks__/b.js"]>
                 (<["b" := "/r/__mocks__/b.js"]> ∅))
              (Fixture.mkModule "/r/b.js") "/r/other/__mocks__/b.js"
              Hrun eq_refl eq_refl eq_refl eq_refl)
    as (pairs & mockModule & table & H1 & H2 & H3 & H4 & H5).
  exists pairs, mockModule, table. now repeat split.
Defined.

(** ** The memo along a build *)

Lemma settleAll_memo env fuel mod_ (before : gmap string Module) :
  forall started (cache1 : gmap string Module) vs cache2,
    settleAll env fuel mod_ started cache1 = Some (Ok vs, cache2) ->
    (forall name,
        In (name, InFlight) started ->
        before !! resolutionHash env (path mod_) name = None) ->
    ((forall k v, before !! k = Some v -> cache1 !! k = Some v) ->
     forall k v, before !! k = Some v -> cache2 !! k = Some v)
    /\ forall k v,
        cache2 !! k = Some v ->
        cache1 !! k = Some v
        \/ exists name t,
            k = resolutionHash env (path mod_) name
            /\ resolvePipeline env fuel mod_ name = Some (Ok v, t).
Proof.
  induction started as [|[name state] started IH]; simpl;
    intros cache1 vs cache2.
  - intros [= _ <-] _. split; [trivial|]. intros k v Hk. now left.
  - destruct state as [hit|].
    + destruct (settleAll env fuel mod_ started cache1) as [[[vs'|] c2]|]
        eqn:Hrest; [|discriminate|discriminate].
      intros [= _ <-] Hfree. apply (IH _ _ _ Hrest).
      intros n Hn. apply Hfree. now right.
    + destruct (resolveDependency_settle env fuel mod_ name cache1)
        as [[[[v1|] t1] c1]|] eqn:Hsettle; [|discriminate|discriminate].
      destruct (settleAll env fuel mod_ started c1) as [[[vs'|] c2]|]
        eqn:Hrest; [|discriminate|discriminate].
      intros [= _ <-] Hfree.
      destruct (IH _ _ _ Hrest) as [Hkeeps Hnew].
      { intros n Hn. apply Hfree. now right. }
      assert (Hfreed : before !! resolutionHash env (path mod_) name = None)
        by (apply Hfree; now left).
      unfold resolveDependency_settle in Hsettle.
      destruct (resolvePipeline env fuel mod_ name) as [[[m|e] tp]|] eqn:Hp;
        [| |discriminate].
      * injection Hsettle as <- <- <-. split.
        -- intros Hsub. apply Hkeeps. intros k v Hk.
           rewrite lookup_insert_ne; [now apply Hsub|]. congruence.
        -- intros k v Hk. destruct (Hnew _ _ Hk) as [Hold|Hlater];
             [|now right].
           destruct (decide (resolutionHash env (path mod_) name = k))
             as [<-|Hne].
           ++ rewrite lookup_insert_eq in Hold. injection Hold as <-.
              right. now exists name, tp.
           ++ rewrite lookup_insert_ne in Hold by exact Hne. now left.
      * assert (c1 = cache1) as ->.
        { destruct (negb (isUnableToResolve e)); [congruence|].
          destruct (shouldThrowOnUnresolvedErrors env (entryPath env)
                                                  (platform env));
            congruence. }
        split; [exact Hkeeps|exact Hnew].
Qed.

Lemma collectStep_memo env fuel allMocks onProgress recursive
      (before : gmap string Module) i st st' :
  (forall k v, before !! k = Some v -> cache st !! k = Some v)
  /\ (forall k v,
         cache st !! k = Some v ->
         before !! k = Some v
         \/ exists m name t,
             k = resolutionHash env (path m) name
             /\ resolvePipeline env fuel m name = Some (Ok v, t)) ->
  collectStep env fuel allMocks onProgress recursive i st = Some (Ok st') ->
  (forall k v, before !! k = Some v -> cache st' !! k = Some v)
  /\ (forall k v,
         cache st' !! k = Some v ->
         before !! k = Some v
         \/ exists m name t,
             k = resolutionHash env (path m) name
             /\ resolvePipeline env fuel m name = Some (Ok v, t)).
Proof.
  intros [Hsub Hfrom] Hstep.
  destruct (collectStep_inversion _ _ _ _ _ _ _ _ Hstep)
    as [[_ ->]|(mod_ & value & st1 & _ & Hbody & ->)]; [now split|].
  destruct (collectBody_inversion _ _ _ _ _ _ _ _ _ Hbody)
    as (depNames & dependencies_ & cache' & pushed & mocks1 & filteredPairs
        & mocks2 & _ & Hall & _ & _ & _ & Hcache & _).
  unfold withDeps. simpl. rewrite Hcache. unfold resolveAll in Hall.
  destruct (settleAll_memo env fuel mod_ before _ _ _ _ Hall)
    as [Hkeeps Hnew].
  - intros name Hin. apply in_map_iff in Hin.
    destruct Hin as (n & [= <- Hstate] & _).
    unfold resolveDependency_lookup in Hstate.
    destruct (cache st !! resolutionHash env (path mod_) n) as [hit|] eqn:Hkey;
      [discriminate|].
    destruct (before !! resolutionHash env (path mod_) n) as [v|] eqn:Hb;
      [|reflexivity].
    rewrite (Hsub _ _ Hb) in Hkey. discriminate.
  - split; [exact (Hkeeps Hsub)|].
    intros k v Hk. destruct (Hnew _ _ Hk) as [Hold|(name & t & -> & Hp)].
    + now apply Hfrom.
    + right. now exists mod_, name, t.
Qed.

(** X21: a build only adds to the memo of the request: every entry the
    memo held before the build is there, unchanged, after it, and every
    other entry is a module the pipeline resolved for the module and
    name of its key. *)
Theorem build_only_adds_to_the_memo
        env fuel schedule response0 mocksPattern onProgress recursive
        (cache0 : gmap string Module) r st :
  getOrderedDependencies env fuel schedule response0 mocksPattern
                         onProgress recursive cache0
  = Some (Ok (r, st)) ->
  (forall k v, cache0 !! k = Some v -> cache st !! k = Some v)
  /\ (forall k v,
         cache st !! k = Some v ->
         cache0 !! k = Some v
         \/ exists m name t,
             k = resolutionHash env (path m) name
             /\ resolvePipeline env fuel m name = Some (Ok v, t)).
Proof.
  intros Hrun.
  destruct (getOrderedDependencies_inversion _ _ _ _ _ _ _ _ _ _ Hrun)
    as (entry & _ & Hcollect & _).
  refine (proj1 (runCollect_preserves env fuel (_getAllMocks env mocksPattern)
                   onProgress recursive
                   (fun s =>
                      (forall k v, cache0 !! k = Some v -> cache s !! k = Some v)
                      /\ (forall k v,
                             cache s !! k = Some v ->
                             cache0 !! k = Some v
                             \/ exists m name t,
                                 k = resolutionHash env (path m) name
                                 /\ resolvePipeline env fuel m name
                                    = Some (Ok v, t)))
                   _ _ _ _ _ Hcollect)).
  - intros i s s'. apply collectStep_memo.
  - simpl. split; [trivial|]. intros k v Hk. now left.
Qed.

Lemma build_only_adds_to_the_memo_witness :
  exists r st,
    getOrderedDependencies Fixture.circular 3 [0; 0] Fixture.emptyResponse
      None false true (<["/r/b.js:./a" := Fixture.mkModule "/r/a.js"]> ∅)
    = Some (Ok (r, st))
    /\ cache st !! "/r/b.js:./a" = Some (Fixture.mkModule "/r/a.js")
    /\ cache st !! "/r/a.js:./b" = Some (Fixture.mkModule "/r/b.js").
Proof.
  eexists _, _.
  assert (Hrun : getOrderedDependencies Fixture.circular 3 [0; 0]
                   Fixture.emptyResponse None false true
                   (<["/r/b.js:./a" := Fixture.mkModule "/r/a.js"]> ∅)
                 = Some (Ok (_, _))) by (vm_compute; reflexivity).
  split; [exact Hrun|]. split; [|reflexivity].
  apply (proj1 (build_only_adds_to_the_memo _ _ _ _ _ _ _ _ _ _ Hrun)).
  reflexivity.
Defined.

(** ** Chains of fallbacks *)

(** X22: [_tryResolve] composes associatively: a chain of fallbacks
    nested to the left, as the node_modules search builds it, has the
    outcome and the calls of the chain nested to the right.  A rejected
    [UnableToResolveError] with no call made is a left unit, and a chain
    whose first action fulfils ignores what follows. *)
Theorem tryResolve_is_associative {A} (a b c : unit -> W A) :
  _tryResolve (fun _ => _tryResolve a b) c
  = _tryResolve a (fun _ => _tryResolve b c)
  /\ (forall e,
         isUnableToResolve e = true ->
         _tryResolve (fun _ => throw e) b = b tt)
  /\ (forall v t,
         a tt = Some (Ok v, t) ->
         _tryResolve a b = Some (Ok v, t)).
Proof.
  repeat (rewrite !tryResolve_orElse; cbv beta). split; [|split].
  - unfold orElse.
    destruct (a tt) as [[[v|e] t]|]; try reflexivity.
    destruct (isUnableToResolve e) eqn:He; simpl; repeat (rewrite He; simpl);
      [|reflexivity].
    destruct (b tt) as [[[v'|e'] t']|]; simpl; try reflexivity.
    destruct (isUnableToResolve e'); [|reflexivity].
    now rewrite after_after.
  - intros e He. rewrite tryResolve_orElse. unfold orElse, throw.
    rewrite He. apply after_nil.
  - intros v t Ha. try rewrite tryResolve_orElse. unfold orElse.
    now rewrite Ha.
Qed.

Lemma tryResolve_is_associative_witness :
  _tryResolve
    (fun _ => throw (A := Module)
                (UnableToResolveError (Fixture.mkModule "/root/a.js") "./x"
                                      "Node module not found"))
    (fun _ => _loadAsFile Fixture.onlyJson "/root/x"
                          (Fixture.mkModule "/root/a.js") "./x")
  = _loadAsFile Fixture.onlyJson "/root/x" (Fixture.mkModule "/root/a.js") "./x".
Proof.
  refine (proj1 (proj2 (tryResolve_is_associative
                          (fun _ => throw (A := Module)
                             (UnableToResolveError
                                (Fixture.mkModule "/root/a.js") "./x"
                                "Node module not found"))
                          (fun _ => _loadAsFile Fixture.onlyJson "/root/x"
                                      (Fixture.mkModule "/root/a.js") "./x")
                          (fun _ => None))) _ _).
  reflexivity.
Defined.

(** ** One record for each listed module *)

Lemma settledModules_settle_permutation value f :
  forall i m, nthPending i f = Some m ->
              Permutation (settledModules (settle i value f))
                          (m :: settledModules f ++ settledModules value).
Proof.
  induction f as [|m' rest IH|m' kids IHk rest IHr]; simpl; intros i m.
  - discriminate.
  - destruct i as [|i]; simpl.
    + intros [= <-]. apply perm_skip, Permutation_app_comm.
    + intros H. exact (IH _ _ H).
  - destruct (i <? pendingCount kids); simpl; intros H.
    + rewrite (IHk _ _ H). simpl. rewrite perm_swap. apply perm_skip.
      apply perm_skip. rewrite <- !app_assoc.
      apply Permutation_app_head, Permutation_app_comm.
    + rewrite (IHr _ _ H), <- Permutation_middle, perm_swap.
      now rewrite app_assoc.
Qed.

Lemma collectStep_records env fuel allMocks onProgress base i st st' :
  (exists recorded,
      mappings (response st) = base ++ recorded
      /\ Permutation (List.map fst recorded) (settledModules (deps st))) ->
  collectStep env fuel allMocks onProgress true i st = Some (Ok st') ->
  exists recorded,
    mappings (response st') = base ++ recorded
    /\ Permutation (List.map fst recorded) (settledModules (deps st')).
Proof.
  intros (recorded & Hrecorded & Hperm) Hstep.
  destruct (collectStep_inversion _ _ _ _ _ _ _ _ Hstep)
    as [[_ ->]|(mod_ & value & st1 & Hnth & Hbody & ->)];
    [now exists recorded|].
  destruct (collectBody_inversion _ _ _ _ _ _ _ _ _ Hbody)
    as (depNames & dependencies_ & cache' & pushed & mocks1 & filteredPairs
        & mocks2 & _ & _ & _ & _ & Hvalue & _ & _ & Hresponse & _).
  exists (recorded ++ [(mod_, filteredPairs)]).
  unfold withDeps. simpl. rewrite Hresponse. simpl.
  split; [now rewrite Hrecorded, app_assoc|].
  rewrite (settledModules_settle_permutation value _ _ _ Hnth).
  rewrite Hvalue, settledModules_spawn, app_nil_r, map_app. simpl.
  rewrite <- Permutation_cons_append. now apply perm_skip.
Qed.

(** X23: a recursive build records resolved pairs once for each module it
    lists: the modules [setResolvedDependencyPairs] was called for are,
    with their multiplicity, the modules of the sequence the build
    appends to the response. *)
Theorem recursive_build_records_each_listed_module
        env fuel schedule response0 mocksPattern onProgress
        (cache0 : gmap string Module) r st :
  getOrderedDependencies env fuel schedule response0 mocksPattern
                         onProgress true cache0
  = Some (Ok (r, st)) ->
  exists listed recorded,
    dependencies r = dependencies response0 ++ listed
    /\ mappings r = mappings response0 ++ recorded
    /\ Permutation (List.map fst recorded) listed.
Proof.
  intros Hrun.
  destruct (getOrderedDependencies_inversion _ _ _ _ _ _ _ _ _ _ Hrun)
    as (entry & _ & Hcollect & Hfinish).
  destruct (getOrderedDependencies_ok _ _ _ _ _ _ _ _ _ _ Hrun)
    as (entry' & tree & _ & Hdeps & Hzero & Hseq & Hmappings & _).
  match type of Hcollect with
  | context [runCollect _ _ _ _ _ _ ?s] => set (st0 := s) in *
  end.
  assert (Hinit : exists recorded,
             mappings (response st0) = mappings response0 ++ recorded
             /\ Permutation (List.map fst recorded)
                            (settledModules (deps st0))).
  { exists []. simpl. now rewrite app_nil_r. }
  destruct (runCollect_preserves env fuel (_getAllMocks env mocksPattern)
              onProgress true
              (fun s =>
                 exists recorded,
                   mappings (response s) = mappings response0 ++ recorded
                   /\ Permutation (List.map fst recorded)
                                  (settledModules (deps s)))
              (collectStep_records env fuel _ onProgress (mappings response0))
              _ _ _ Hinit Hcollect)
    as [(recorded & Hrecorded & Hperm) Hdone].
  exists (entry' :: preorder tree), recorded.
  split; [exact Hseq|]. split; [now rewrite Hmappings|].
  rewrite Hperm, (settledModules_all _ Hdone), Hdeps. simpl.
  now rewrite app_nil_r.
Qed.

Lemma recursive_build_records_each_listed_module_witness :
  exists r st listed recorded,
    getOrderedDependencies Fixture.twoNames 3 [0; 1; 0] Fixture.emptyResponse
                           None false true ∅ = Some (Ok (r, st))
    /\ dependencies r = dependencies Fixture.emptyResponse ++ listed
    /\ mappings r = mappings Fixture.emptyResponse ++ recorded
    /\ Permutation (List.map fst recorded) listed
    /\ length (mappings r) = 3.
Proof.
  eexists _, _.
  assert (Hrun : getOrderedDependencies Fixture.twoNames 3 [0; 1; 0]
                   Fixture.emptyResponse None false true ∅ = Some (Ok (_, _)))
    by (vm_compute; reflexivity).
  destruct (recursive_build_records_each_listed_module _ _ _ _ _ _ _ _ _ Hrun)
    as (listed & recorded & H1 & H2 & H3).
  exists listed, recorded. split; [exact Hrun|]. now repeat split.
Defined.

(** ** Normalized names *)

Lemma endsInSlash_cons c s : s <> "" -> endsInSlash (String c s) = endsInSlash s.
Proof. destruct s; [congruence|reflexivity]. Qed.

Lemma endsInSlash_append a b : b <> "" -> endsInSlash (a +:+ b) = endsInSlash b.
Proof.
  intros Hb. induction a as [|c a IH]; [reflexivity|].
  change (String c a +:+ b) with (String c (a +:+ b)).
  rewrite endsInSlash_cons; [exact IH|].
  destruct a; [exact Hb|discriminate].
Qed.

Lemma endsInSlash_segment x :
  segment x = true -> endsInSlash x = false.
Proof.
  unfold segment. intros H. apply andb_true_iff in H. destruct H as [_ Hfree].
  induction x as [|c x IH]; [reflexivity|].
  simpl in Hfree. apply andb_true_iff in Hfree. destruct Hfree as [Hc Hx].
  apply negb_true_iff in Hc.
  destruct x as [|c' x]; [exact Hc|]. rewrite endsInSlash_cons by discriminate.
  now apply IH.
Qed.

Lemma endsInSlash_unsplit segs :
  Forall (fun x => segment x = true) segs ->
  endsInSlash (Path.unsplit segs) = false.
Proof.
  induction 1 as [|x rest Hx Hrest IH]; [reflexivity|].
  destruct rest as [|y rest]; [now apply endsInSlash_segment|].
  rewrite unsplit_cons by discriminate.
  rewrite endsInSlash_append; [|discriminate].
  rewrite endsInSlash_cons; [exact IH|].
  inversion Hrest; subst. now apply unsplit_nonempty.
Qed.

Lemma endsInSlash_slashFree x : slashFree x = true -> endsInSlash x = false.
Proof.
  induction x as [|c x IH]; [reflexivity|]. simpl slashFree. intros Hfree.
  apply andb_true_iff in Hfree. destruct Hfree as [Hc Hx].
  apply negb_true_iff in Hc.
  destruct x as [|c' x]; [exact Hc|]. rewrite endsInSlash_cons by discriminate.
  now apply IH.
Qed.

Lemma split_nonempty s : Path.split s <> [].
Proof.
  destruct s as [|c s]; simpl; [discriminate|].
  destruct (Ascii.eqb c Path.slash); [discriminate|].
  destruct (Path.split s); discriminate.
Qed.

Lemma split_append a b :
  Path.split (a +:+ String Path.slash b) = Path.split a ++ Path.split b.
Proof.
  induction a as [|c a IH]; [reflexivity|].
  change (String c a +:+ String Path.slash b)
    with (String c (a +:+ String Path.slash b)).
  simpl Path.split. rewrite IH.
  destruct (Ascii.eqb c Path.slash); [reflexivity|].
  pose proof (split_nonempty a) as Hne.
  destruct (Path.split a); [contradiction|reflexivity].
Qed.

Lemma last_slash s :
  slashFree s = true
  \/ exists a b, s = a +:+ String Path.slash b /\ slashFree b = true.
Proof.
  induction s as [|c s IH]; [now left|].
  destruct IH as [Hfree|(a & b & -> & Hb)].
  - simpl. destruct (Ascii.eqb_spec c Path.slash) as [->|Hc].
    + right. now exists "", s.
    + now left.
  - right. now exists (String c a), b.
Qed.

Lemma endsWithSlash_endsInSlash s :
  s <> "" -> Path.endsWithSlash s = endsInSlash s.
Proof.
  intros Hne. unfold Path.endsWithSlash.
  destruct (last_slash s) as [Hfree|(a & b & -> & Hb)].
  - rewrite (split_slashFree _ Hfree), (endsInSlash_slashFree _ Hfree).
    simpl. now destruct s.
  - rewrite split_append, (split_slashFree _ Hb), last_last.
    rewrite endsInSlash_append by discriminate.
    destruct b as [|c b]; [reflexivity|].
    rewrite endsInSlash_cons by discriminate.
    now rewrite (endsInSlash_slashFree _ Hb).
Qed.

Lemma normalizeOnto_segments abs :
  forall segs stack,
    Forall (fun x => segment x = true) segs ->
    Forall (fun x => segment x = true) stack ->
    Forall (fun x => segment x = true) (Path.normalizeOnto abs stack segs).
Proof.
  induction segs as [|s segs IH]; intros stack Hsegs Hstack; simpl.
  - now apply Forall_rev.
  - inversion Hsegs as [|? ? Hs Hrest]; subst.
    destruct (String.eqb s "."); [now apply IH|].
    destruct (String.eqb s "..").
    + destruct stack as [|top below].
      * destruct abs; apply IH; auto.
      * inversion Hstack; subst.
        destruct (String.eqb top ".."); apply IH; auto.
    + apply IH; auto.
Qed.

Lemma substring_init s :
  String.substring 0 (String.length (s +:+ "/") - 1) (s +:+ "/") = s.
Proof.
  rewrite length_append. simpl String.length.
  replace (String.length s + 1 - 1) with (String.length s) by lia.
  apply substring_prefix.
Qed.

(** X24: [normalizePath] is [path.normalize] without its trailing slash:
    the name it returns never ends with [/].  The root [/] becomes the
    empty name. *)
Theorem normalizePath_strips_the_trailing_slash :
  (forall modulePath, endsInSlash (normalizePath modulePath) = false)
  /\ (forall modulePath q,
         Path.normalize modulePath = q +:+ "/" -> normalizePath modulePath = q)
  /\ (forall modulePath,
         endsInSlash (Path.normalize modulePath) = false ->
         normalizePath modulePath = Path.normalize modulePath)
  /\ normalizePath "/" = "".
Proof.
  assert (Hne : forall p, Path.normalize p <> "").
  { intros p. unfold Path.normalize. destruct p as [|c p]; [discriminate|].
    destruct (Path.isAbsolutePath (String c p)); [discriminate|].
    destruct (Path.unsplit _) as [|c' b]; [discriminate|].
    destruct (Path.endsWithSlash _); discriminate. }
  assert (Hstrip : forall p q,
             Path.normalize p = q +:+ "/" -> normalizePath p = q).
  { intros p q Hq. unfold normalizePath.
    rewrite (endsWithSlash_endsInSlash _ (Hne p)), Hq.
    rewrite endsInSlash_append by discriminate. simpl endsInSlash. cbv iota.
    apply substring_init. }
  assert (Hkeep : forall p,
             endsInSlash (Path.normalize p) = false ->
             normalizePath p = Path.normalize p).
  { intros p Hp. unfold normalizePath.
    now rewrite (endsWithSlash_endsInSlash _ (Hne p)), Hp. }
  split; [|split; [exact Hstrip|split; [exact Hkeep|reflexivity]]].
  intros p.
  destruct p as [|c p]; [reflexivity|].
  set (abs := Path.isAbsolutePath (String c p)).
  set (segs := Path.normalizeOnto abs [] (Path.components (String c p))).
  assert (Hsegs : Forall (fun x => segment x = true) segs)
    by (apply normalizeOnto_segments; [apply components_segments|constructor]).
  assert (Hshape :
    Path.normalize (String c p)
    = (let body := Path.unsplit segs in
       let body :=
         match body with
         | EmptyString => if abs then "" else "."
         | _ => if Path.endsWithSlash (String c p) then body +:+ "/" else body
         end in
       if abs then "/" +:+ body else body)) by reflexivity.
  cbv zeta in Hshape.
  destruct segs as [|x rest] eqn:Hsegs_eq.
  - simpl Path.unsplit in Hshape. cbv iota in Hshape.
    destruct abs.
    + rewrite (Hstrip _ "" Hshape). reflexivity.
    + rewrite Hkeep; rewrite Hshape; reflexivity.
  - pose proof (endsInSlash_unsplit _ Hsegs) as Hbody.
    inversion Hsegs; subst.
    pose proof (unsplit_nonempty x rest ltac:(assumption)) as Hnonempty.
    destruct (Path.unsplit (x :: rest)) as [|b body] eqn:Hunsplit;
      [congruence|].
    destruct (Path.endsWithSlash (String c p)).
    + destruct abs.
      * rewrite (Hstrip _ ("/" +:+ String b body)).
        -- change ("/" +:+ String b body) with (String Path.slash (String b body)).
           now rewrite endsInSlash_cons by discriminate.
        -- rewrite Hshape. reflexivity.
      * rewrite (Hstrip _ (String b body) Hshape). exact Hbody.
    + destruct abs.
      * assert (Hq : endsInSlash (Path.normalize (String c p)) = false).
        { rewrite Hshape.
          change ("/" +:+ String b body)
            with (String Path.slash (String b body)).
          now rewrite endsInSlash_cons by discriminate. }
        now rewrite (Hkeep _ Hq).
      * assert (Hq : endsInSlash (Path.normalize (String c p)) = false)
          by (now rewrite Hshape).
        now rewrite (Hkeep _ Hq).
Qed.

Lemma normalizePath_strips_the_trailing_slash_witness :
  normalizePath "lodash/fp/" = "lodash/fp"
  /\ normalizePath "lodash/./fp" = Path.normalize "lodash/./fp".
Proof.
  pose proof normalizePath_strips_the_trailing_slash as (_ & Hstrip & Hkeep & _).
  split.
  - apply Hstrip. reflexivity.
  - apply Hkeep. reflexivity.
Defined.

(** ** Resolutions that settle *)

Lemma settles_after {A} t (w : W A) : settles w -> settles (after t w).
Proof. intros [[r t'] ->]. now eexists. Qed.

Lemma settles_bindW {A B} (m : W A) (f : A -> W B) :
  settles m -> (forall a t, m = Some (Ok a, t) -> settles (f a)) ->
  settles (bindW m f).
Proof.
  intros [[[a|e] t] ->] Hf; simpl; [|now eexists].
  apply settles_after. exact (Hf _ _ eq_refl).
Qed.

Lemma settles_orElse {A} (first second : W A) :
  settles first -> settles second -> settles (orElse first second).
Proof.
  intros [[[a|e] t] ->] H2; unfold orElse; [now eexists|].
  destruct (isUnableToResolve e); [now apply settles_after|now eexists].
Qed.

Lemma loadAsFile_settles env p fromModule toModule :
  settles (_loadAsFile env p fromModule toModule).
Proof.
  assert (Hprobes : settles (loadAsFile_probes env p fromModule toModule)).
  { rewrite loadAsFile_probes_in_order.
    generalize (UnableToResolveError fromModule toModule
                  ("File " +:+ p +:+ " doesnt exist")).
    induction (probeCandidates env p) as [|c rest IH]; intros notFound; simpl.
    - now eexists.
    - destruct (fastfs_fileExists env c); [now eexists|].
      apply settles_after, IH. }
  unfold _loadAsFile.
  destruct (helpers_isAssetFile env p); [|exact Hprobes].
  apply settles_bindW; [now eexists|]. intros exists_ t [= <- _].
  destruct (fastfs_dirExists env (Path.dirname p)); cbn [negb];
    [|now eexists].
  apply settles_bindW; [now eexists|]. intros found t' [= <- _].
  destruct (fastfs_matches env (Path.dirname p) (assetPattern env p))
    as [|assetFile rest]; [exact Hprobes|].
  destruct (JsString.truthy assetFile); [now eexists|exact Hprobes].
Qed.

Lemma loadAsDir_settles env fuel p fromModule toModule :
  flatMains env ->
  settles (_loadAsDir env (S (S fuel)) p fromModule toModule).
Proof.
  intros Hflat. rewrite loadAsDir_step.
  apply settles_bindW; [now eexists|]. intros exists_ t [= <- _].
  destruct (fastfs_dirExists env p); cbn [negb]; [|now eexists].
  apply settles_bindW; [now eexists|]. intros hasManifest t' [= <- _].
  destruct (fastfs_fileExists env (Path.join [p; "package.json"]));
    [|apply loadAsFile_settles].
  apply settles_bindW; [now eexists|]. intros main t'' [= Hmain _].
  rewrite tryResolve_orElse.
  apply settles_orElse; [apply loadAsFile_settles|].
  rewrite loadAsDir_step.
  apply settles_bindW; [now eexists|]. intros exists' t3 [= <- _].
  destruct (fastfs_dirExists env main); cbn [negb]; [|now eexists].
  apply settles_bindW; [now eexists|]. intros hasManifest' t4 [= <- _].
  rewrite (Hflat _ _ Hmain). apply loadAsFile_settles.
Qed.

Lemma redirectRequire_settles env fromModule modulePath :
  settles (_redirectRequire env fromModule modulePath).
Proof.
  unfold _redirectRequire.
  destruct (module_getPackage env fromModule); now eexists.
Qed.

Lemma resolveFileOrDir_settles env fuel fromModule toModuleName :
  flatMains env ->
  settles (_resolveFileOrDir env (S (S fuel)) fromModule toModuleName).
Proof.
  intros Hflat. unfold _resolveFileOrDir. cbv zeta.
  apply settles_bindW; [apply redirectRequire_settles|].
  intros realModuleName t _. rewrite tryResolve_orElse.
  apply settles_orElse; [apply loadAsFile_settles|now apply loadAsDir_settles].
Qed.

Lemma resolveNodeDependency_settles env fuel fromModule toModuleName :
  flatMains env ->
  Path.isAbsolutePath (path fromModule) = true ->
  length (Path.components (path fromModule)) <= S (S fuel) ->
  settles (_resolveNodeDependency env (S (S fuel)) fromModule toModuleName).
Proof.
  intros Hflat Habs Hfuel. unfold _resolveNodeDependency.
  destruct (looksRelative toModuleName);
    [now apply resolveFileOrDir_settles|].
  apply settles_bindW; [apply redirectRequire_settles|].
  intros realModuleName t _.
  destruct (looksRelative realModuleName);
    [now apply resolveFileOrDir_settles|].
  unfold searchQueue, Path.root. rewrite Habs, (dirname_absolute _ Habs).
  destruct (searchQueue_from_total realModuleName
              (length (List.removelast (Path.components (path fromModule))))
              (List.removelast (Path.components (path fromModule)))
              (S (S fuel))) as (queue & -> & _).
  { apply Forall_removelast, components_segments. }
  { reflexivity. }
  { rewrite length_removelast. lia. }
  unfold searchNodeModules.
  assert (Hfold : forall p,
    settles p ->
    settles (fold_left (searchStep env (S (S fuel)) fromModule toModuleName)
                       queue p)).
  { induction queue as [|c rest IH]; intros p Hp; simpl; [exact Hp|].
    apply IH. unfold searchStep. rewrite !tryResolve_orElse.
    apply settles_orElse; [|now apply loadAsDir_settles].
    apply settles_orElse; [exact Hp|apply loadAsFile_settles]. }
  apply Hfold. now eexists.
Qed.

Lemma hastePackageLoop_settles env :
  forall n fuel dep name,
    Path.isAbsolutePath name = false ->
    length (Path.components name) <= n ->
    S n <= fuel ->
    settles (hastePackageLoop env fuel dep name).
Proof.
  assert (Hone : forall fuel dep name,
    Path.dirname name = "." ->
    settles (hastePackageLoop env (S fuel) dep name)).
  { intros fuel dep name Hdir.
    destruct name as [|c name]; [now eexists|].
    destruct (String.eqb_spec (String c name) ".") as [->|Hdot];
      [now eexists|].
    rewrite (hastePackageLoop_step env fuel dep (String c name) eq_refl Hdot).
    apply settles_after. destruct (isHastePackage _); [now eexists|].
    rewrite Hdir, hastePackageLoop_stop by now right. now eexists. }
  induction n as [|n IH]; intros fuel dep name Hrel Hlen Hfuel;
    (destruct fuel as [|fuel]; [lia|]).
  - destruct (dirname_relative _ Hrel) as [Hdir|[_ Hsegs]];
      [now apply Hone|].
    destruct (Path.components name); [now destruct Hsegs|].
    simpl in Hlen. lia.
  - destruct (dirname_relative _ Hrel) as [Hdir|[Hdir Hsegs]];
      [now apply Hone|].
    destruct name as [|c name]; [now eexists|].
    destruct (String.eqb_spec (String c name) ".") as [->|Hdot];
      [now eexists|].
    rewrite (hastePackageLoop_step env fuel dep (String c name) eq_refl Hdot).
    apply settles_after. destruct (isHastePackage _); [now eexists|].
    pose proof (Forall_removelast _ _ (components_segments (String c name)))
      as Hall.
    apply IH; [| |lia].
    + rewrite Hdir.
      destruct (List.removelast (Path.components (String c name)))
        as [|x rest]; [now destruct Hsegs|].
      inversion Hall; subst. now apply unsplit_relative.
    + rewrite Hdir, (components_unsplit _ Hall), length_removelast.
      destruct (Path.components (String c name)); [now destruct Hsegs|].
      simpl in Hlen |- *. lia.
Qed.

Lemma resolveHasteDependency_settles env fuel fromModule toModuleName :
  flatMains env ->
  (forall realModuleName tr,
      _redirectRequire env fromModule (normalizePath toModuleName)
      = Some (Ok realModuleName, tr) ->
      Path.isAbsolutePath realModuleName = false
      /\ length (Path.components realModuleName) <= S fuel) ->
  settles (_resolveHasteDependency env (S (S fuel)) fromModule toModuleName).
Proof.
  intros Hflat Hredirect.
  destruct (redirectRequire_settles env fromModule (normalizePath toModuleName))
    as [[[real|e] tr] Hr].
  2:{ unfold _resolveHasteDependency. cbv zeta.
      change (match module_getPackage env fromModule with
              | Some p =>
                  await (EvRedirect (manifest p) (normalizePath toModuleName))
                        (package_redirectRequire env p
                                                 (normalizePath toModuleName))
              | None => ret (normalizePath toModuleName)
              end)
        with (_redirectRequire env fromModule (normalizePath toModuleName)).
      rewrite Hr. now eexists. }
  destruct (Hredirect _ _ Hr) as [Hrel Hlen].
  destruct (hasteMap_getModule env real (platform env)) as [[m|pkg]|] eqn:Hdep.
  - unfold _resolveHasteDependency. cbv zeta.
    change (match module_getPackage env fromModule with
            | Some p =>
                await (EvRedirect (manifest p) (normalizePath toModuleName))
                      (package_redirectRequire env p
                                               (normalizePath toModuleName))
            | None => ret (normalizePath toModuleName)
            end)
      with (_redirectRequire env fromModule (normalizePath toModuleName)).
    rewrite Hr, bindW_settled. unfold call. rewrite bindW_settled, Hdep.
    now eexists.
  - rewrite (resolveHasteDependency_walk _ _ _ _ _ _ Hr)
      by (intros m; now rewrite Hdep).
    apply settles_after, settles_bindW.
    + now apply (hastePackageLoop_settles env (S fuel)).
    + intros [[[m|pkg']|] packageName] t _; try now eexists.
      apply settles_orElse; [apply loadAsFile_settles|].
      now apply loadAsDir_settles.
  - rewrite (resolveHasteDependency_walk _ _ _ _ _ _ Hr)
      by (intros m; now rewrite Hdep).
    apply settles_after, settles_bindW.
    + now apply (hastePackageLoop_settles env (S fuel)).
    + intros [[[m|pkg']|] packageName] t _; try now eexists.
      apply settles_orElse; [apply loadAsFile_settles|].
      now apply loadAsDir_settles.
Qed.

(** X25: [resolveDependency] settles, with a module, with [null] or with
    an error, whenever the requester has an absolute path, no main of a
    package is itself a directory with a manifest, and the package of the
    requester redirects the specifier to a name that is not absolute
    (with fuel for the depth of the requester and of that name). *)
Theorem resolveDependency_settles
        env fuel fromModule toModuleName (cache_ : gmap string Module) :
  flatMains env ->
  Path.isAbsolutePath (path fromModule) = true ->
  length (Path.components (path fromModule)) <= S (S fuel) ->
  (forall realModuleName tr,
      _redirectRequire env fromModule (normalizePath toModuleName)
      = Some (Ok realModuleName, tr) ->
      Path.isAbsolutePath realModuleName = false
      /\ length (Path.components realModuleName) <= S fuel) ->
  settles (resolveDependency env (S (S fuel)) fromModule toModuleName cache_).
Proof.
  intros Hflat Habs Hfuel Hredirect.
  unfold resolveDependency.
  destruct (resolveDependency_lookup env fromModule toModuleName cache_)
    as [[hit|] t]; [now eexists|].
  assert (Hp : settles (resolvePipeline env (S (S fuel)) fromModule
                                        toModuleName)).
  { unfold resolvePipeline.
    destruct (_ && _ && _)%bool;
      [|now apply resolveNodeDependency_settles].
    rewrite tryResolve_orElse. apply settles_orElse.
    - now apply resolveHasteDependency_settles.
    - now apply resolveNodeDependency_settles. }
  unfold resolveDependency_settle.
  destruct Hp as [[[m|e] tp] ->]; [now eexists|].
  destruct (negb (isUnableToResolve e)); [now eexists|].
  destruct (shouldThrowOnUnresolvedErrors env (entryPath env) (platform env));
    now eexists.
Qed.

Lemma resolveDependency_settles_witness :
  settles (resolveDependency Tree.oneMain (S (S 2))
             (Fixture.mkModule "/root/app/src/a.js") "lib" ∅).
Proof.
  apply resolveDependency_settles.
  - intros dir main [= <-]. reflexivity.
  - reflexivity.
  - simpl. lia.
  - intros real tr [= <- _]. split; [reflexivity|simpl; lia].
Defined.
